(** * GpuJoin runtime: inner-relation loader, multi-relation buffer,
      task scheduler and result-buffer sizing (gpujoin.c)

    A shallow embedding of the runtime part of gpujoin.c.  C integers are
    [Z] with the wrap-around of their width written out, the [double]
    estimates are exact rationals ([Q]), per-device C arrays are lists
    indexed by [cuda_index], [elog(ERROR, ...)] is the [ERROR] outcome of a
    small result monad, and the asynchronous CUDA calls a function issues are
    recorded, in issue order, in an event log. *)

From Stdlib Require Import ZArith QArith Qround String Lia.
From stdpp Require Import base option list sorting gmap.

Local Open Scope Z_scope.

(** ** Outcomes of a call that may [elog(ERROR, ...)] *)

Inductive result (A : Type) : Type :=
| OK (a : A)
| ERROR (msg : string).
Arguments OK {A} a.
Arguments ERROR {A} msg.

Definition bind {A B : Type} (r : result A) (k : A -> result B) : result B :=
  match r with
  | OK a => k a
  | ERROR msg => ERROR msg
  end.

Notation "'do' x <- r ; k" := (bind r (fun x => k))
  (at level 10, x name, r at level 100, k at level 200).
Notation "'do' ' p <- r ; k" := (bind r (fun x => match x with p => k end))
  (at level 10, p pattern, r at level 100, k at level 200).

Definition is_error {A : Type} (r : result A) : bool :=
  match r with OK _ => false | ERROR _ => true end.

(** ** C scalars *)

Definition UINT_MAX : Z := 2 ^ 32 - 1.
Definition INT_MAX : Z := 2 ^ 31 - 1.

(** [cl_uint] and [pg_crc32] arithmetic is modulo 2^32, [Size] modulo 2^64. *)
Definition wrap32 (z : Z) : Z := z mod 2 ^ 32.
Definition wrap64 (z : Z) : Z := z mod 2 ^ 64.

(** [(double) n] for an integer and the truncating conversion back. *)
Definition to_double (z : Z) : Q := inject_Z z.
Definition trunc (q : Q) : Z := Z.quot (Qnum q) (Z.pos (Qden q)).

(** [Max] and [Min] of c.h: [((x) > (y) ? (x) : (y))]. *)
Definition Max (x y : Z) : Z := if x >? y then x else y.
Definition Min (x y : Z) : Z := if x <? y then x else y.
Definition Qgtb (x y : Q) : bool := negb (Qle_bool x y).
Definition QMax (x y : Q) : Q := if Qgtb x y then x else y.
Definition QMin (x y : Q) : Q := if Qgtb y x then x else y.

(** ** Constants, macros and data-store helpers declared outside gpujoin.c *)

Inductive JoinType := JOIN_INNER | JOIN_LEFT | JOIN_FULL | JOIN_RIGHT.

Inductive kds_format := KDS_FORMAT_ROW | KDS_FORMAT_SLOT | KDS_FORMAT_HASH.

(** A row as the loader sees it: its length and the value
    [get_tuple_hashvalue] computes for it (the CRC32 of the evaluated key
    columns, which needs the expression evaluator). *)
Record HeapTuple := mk_tuple {
  t_len : Z;
  t_hash : Z
}.

Record kern_data_store := mk_kds {
  k_length : Z;
  k_usage : Z;
  k_nitems : Z;
  k_nrooms : Z;
  k_nslots : Z;
  k_format : kds_format;
  k_hash_min : Z;
  k_hash_max : Z
}.

(** [pds_items] is the content of the store, in the order in which a walk
    over it (KERN_HASH_FIRST_ITEM / KERN_HASH_NEXT_ITEM for a hash store)
    visits the rows. *)
Record pgstrom_data_store := mk_pds {
  kds : kern_data_store;
  kds_length : Z;
  pds_items : list HeapTuple
}.

Class Env := {
  pgstrom_chunk_size : Z;
  pgstrom_chunk_size_limit : Z;
  pgstrom_chunk_size_margin : Q;
  gpuMemMaxAllocSize : Z;
  BLCKSZ : Z;
  STROMALIGN : Z -> Z;
  LONGALIGN : Z -> Z;
  MAXALIGN : Z -> Z;
  GPUMEMALIGN : Z -> Z;
  (* offsetof(kern_data_store, colmeta[n]) *)
  offsetof_kds_colmeta : Z -> Z;
  (* offsetof(kern_resultbuf, results[n]) *)
  offsetof_kresultbuf_results : Z -> Z;
  (* offsetof(kern_gpujoin, kparams) *)
  offsetof_kgpujoin_kparams : Z;
  (* offsetof(kern_multirels, chunks[n]) *)
  offsetof_kmultirels_chunks : Z -> Z;
  (* offsetof(pgstrom_multirels, kern.chunks[n]) *)
  offsetof_pmrels_chunks : Z -> Z;
  sizeof_cl_bool : Z;
  sizeof_Datum : Z;
  (* offsetof(kern_hashitem, htup) and offsetof(kern_tupitem, htup) *)
  offsetof_khashitem_htup : Z;
  offsetof_ktupitem_htup : Z;
  KERN_DATA_STORE_HEAD_LENGTH : kern_data_store -> Z;
  (* the data-store API of datastore.c *)
  pgstrom_create_data_store_hash : Z -> Z -> pgstrom_data_store;
  pgstrom_create_data_store_row : Z -> pgstrom_data_store;
  pgstrom_create_data_store_slot : Z -> pgstrom_data_store;
  pgstrom_data_store_insert_hashitem :
    pgstrom_data_store -> HeapTuple -> Z -> option pgstrom_data_store;
  pgstrom_data_store_insert_tuple :
    pgstrom_data_store -> HeapTuple -> option pgstrom_data_store;
  pgstrom_expand_data_store : pgstrom_data_store -> Z -> Z -> pgstrom_data_store;
  pgstrom_shrink_data_store : pgstrom_data_store -> pgstrom_data_store
}.

Definition set_hash_range (pds : pgstrom_data_store) (lo hi : Z)
  : pgstrom_data_store :=
  let k := kds pds in
  mk_pds (mk_kds (k_length k) (k_usage k) (k_nitems k) (k_nrooms k)
                 (k_nslots k) (k_format k) lo hi)
         (kds_length pds) (pds_items pds).

(** ** Per-depth loader state *)

Record innerState := mk_istate {
  (* rows the upstream plan node has not delivered yet: ExecProcNode(state) *)
  upstream : list HeapTuple;
  pds_list : list pgstrom_data_store;
  pds_index : Z;
  pds_limit : Z;
  consumed : Z;
  ntuples : Z;
  tupstore : option (list HeapTuple);
  depth : Z;
  join_type : JoinType;
  nbatches_exec : Z;
  nrows_ratio : Q;
  ichunk_size : Z;
  hash_nslots : Z;
  hgram_shift : Z;
  hgram_width : Z;
  hgram_size : list Z;
  hgram_nitems : list Z;
  (* hash_inner_keys != NIL and hash_outer_keys != NIL; gpujoin_begin sets
     the two together, so both hold for a hash join and neither for a
     nest loop *)
  hash_inner_keys : bool;
  hash_outer_keys : bool;
  (* number of columns of the scan tuple descriptor *)
  scan_natts : Z
}.

Definition with_loader (ist : innerState)
    (up : list HeapTuple) (pl : list pgstrom_data_store) (cons nt : Z)
    (ts : option (list HeapTuple)) (hs hn : list Z) : innerState :=
  mk_istate up pl (pds_index ist) (pds_limit ist) cons nt ts
            (depth ist) (join_type ist) (nbatches_exec ist) (nrows_ratio ist)
            (ichunk_size ist) (hash_nslots ist) (hgram_shift ist)
            (hgram_width ist) hs hn (hash_inner_keys ist) (hash_outer_keys ist)
            (scan_natts ist).

Definition set_pds_list (ist : innerState) (pl : list pgstrom_data_store) :=
  with_loader ist (upstream ist) pl (consumed ist) (ntuples ist)
              (tupstore ist) (hgram_size ist) (hgram_nitems ist).

Definition set_pds_index (ist : innerState) (ix : Z) : innerState :=
  mk_istate (upstream ist) (pds_list ist) ix (pds_limit ist) (consumed ist)
            (ntuples ist) (tupstore ist)
            (depth ist) (join_type ist) (nbatches_exec ist) (nrows_ratio ist)
            (ichunk_size ist) (hash_nslots ist) (hgram_shift ist)
            (hgram_width ist) (hgram_size ist) (hgram_nitems ist)
            (hash_inner_keys ist) (hash_outer_keys ist)
            (scan_natts ist).

Definition set_pds_limit (ist : innerState) (lim : Z) : innerState :=
  mk_istate (upstream ist) (pds_list ist) (pds_index ist) lim (consumed ist)
            (ntuples ist) (tupstore ist)
            (depth ist) (join_type ist) (nbatches_exec ist) (nrows_ratio ist)
            (ichunk_size ist) (hash_nslots ist) (hgram_shift ist)
            (hgram_width ist) (hgram_size ist) (hgram_nitems ist)
            (hash_inner_keys ist) (hash_outer_keys ist)
            (scan_natts ist).

Definition set_nbatches_exec (ist : innerState) (n : Z) : innerState :=
  mk_istate (upstream ist) (pds_list ist) (pds_index ist) (pds_limit ist)
            (consumed ist) (ntuples ist) (tupstore ist)
            (depth ist) (join_type ist) n (nrows_ratio ist)
            (ichunk_size ist) (hash_nslots ist) (hgram_shift ist)
            (hgram_width ist) (hgram_size ist) (hgram_nitems ist)
            (hash_inner_keys ist) (hash_outer_keys ist)
            (scan_natts ist).

(** ** The multi-relation buffer, the task and the scan state *)

(** Device addresses and event handles; [None] is the null value. *)
Definition CUdeviceptr := positive.
Definition CUevent := positive.

Record kern_chunk := mk_chunk {
  chunk_offset : Z;
  ojmap_offset : Z;
  right_outer : bool;
  left_outer : bool
}.

Record pgstrom_multirels := mk_pmrels {
  head_length : Z;
  usage_length : Z;
  ojmap_length : Z;
  inner_chunks : list pgstrom_data_store;
  outer_join_kicked : bool;
  n_attached : Z;
  (* one cell per CUDA context *)
  refcnt : list Z;
  m_kmrels : list (option CUdeviceptr);
  ev_loaded : list (option CUevent);
  m_ojmaps : list (option CUdeviceptr);
  (* kern_multirels *)
  kern_nrels : Z;
  kern_ndevs : Z;
  kern_chunks : list kern_chunk
}.

Definition set_attach (pm : pgstrom_multirels) (kicked : bool) (n : Z)
    : pgstrom_multirels :=
  mk_pmrels (head_length pm) (usage_length pm) (ojmap_length pm)
            (inner_chunks pm) kicked n (refcnt pm) (m_kmrels pm)
            (ev_loaded pm) (m_ojmaps pm) (kern_nrels pm) (kern_ndevs pm)
            (kern_chunks pm).

Definition set_device (pm : pgstrom_multirels) (rc : list Z)
    (km : list (option CUdeviceptr)) (ev : list (option CUevent))
    (oj : list (option CUdeviceptr)) : pgstrom_multirels :=
  mk_pmrels (head_length pm) (usage_length pm) (ojmap_length pm)
            (inner_chunks pm) (outer_join_kicked pm) (n_attached pm)
            rc km ev oj (kern_nrels pm) (kern_ndevs pm) (kern_chunks pm).

Inductive StromError :=
| StromError_Success
| StromError_DataStoreNoSpace
| StromError_Other (code : Z).

Record kern_resultbuf := mk_kresultbuf {
  kr_nrels : Z;
  kr_nrooms : Z;
  kr_nitems : Z
}.

Record kern_gpujoin := mk_kgjoin {
  kresults_1_offset : Z;
  kresults_2_offset : Z;
  kresults_total_items : Z;
  kresults_max_items : Z;
  kg_num_rels : Z;
  kg_start_depth : Z;
  kg_kerror : StromError;
  kg_outer_nitems : list Z;
  (* header of KERN_GPUJOIN_IN_RESULTS(kgjoin, 1) *)
  kresults_in : kern_resultbuf
}.

Record pgstrom_gpujoin := mk_gpujoin {
  (* address of the task object *)
  task_addr : nat;
  (* task.kerror.errcode *)
  task_errcode : StromError;
  cuda_index : nat;
  cuda_stream : nat;
  m_kgjoin : option CUdeviceptr;
  task_m_kmrels : option CUdeviceptr;
  task_m_ojmaps : option CUdeviceptr;
  oitems_base : Z;
  oitems_nums : Z;
  (* address of the attached pgstrom_multirels *)
  pmrels : option nat;
  pds_src : option pgstrom_data_store;
  pds_dst : option pgstrom_data_store;
  kern : kern_gpujoin
}.

Definition set_buffers (t : pgstrom_gpujoin) (nums : Z)
    (src dst : option pgstrom_data_store) (k : kern_gpujoin)
    : pgstrom_gpujoin :=
  mk_gpujoin (task_addr t) (task_errcode t) (cuda_index t) (cuda_stream t)
             (m_kgjoin t) (task_m_kmrels t) (task_m_ojmaps t)
             (oitems_base t) nums (pmrels t) src dst k.

Definition set_cuda (t : pgstrom_gpujoin)
    (kg km oj : option CUdeviceptr) : pgstrom_gpujoin :=
  mk_gpujoin (task_addr t) (task_errcode t) (cuda_index t) (cuda_stream t)
             kg km oj
             (oitems_base t) (oitems_nums t) (pmrels t) (pds_src t)
             (pds_dst t) (kern t).

(** The outer plan node: the rows (or, for bulk input, the chunks) it has
    not delivered yet and, for ExecReScan, all of them. *)
Record outer_plan := mk_outer {
  outer_all_rows : list HeapTuple;
  outer_rows : list HeapTuple;
  outer_all_chunks : list pgstrom_data_store;
  outer_chunks : list pgstrom_data_store;
  (* outerPlanState(gjs)->plan->plan_rows *)
  outer_plan_rows : Q
}.

Definition ExecReScan (o : outer_plan) : outer_plan :=
  mk_outer (outer_all_rows o) (outer_all_rows o)
           (outer_all_chunks o) (outer_all_chunks o) (outer_plan_rows o).

Record GpuJoinState := mk_gjs {
  (* GpuTaskState *)
  scan_done : bool;
  scan_bulk : bool;
  scan_overflow : option HeapTuple;
  pending_tasks : list pgstrom_gpujoin;
  num_pending_tasks : Z;
  kern_params_length : Z;
  num_context : nat;
  (* gts.css.ss.ps.plan->plan_rows and the width of the scan tuple *)
  plan_rows : Q;
  scan_tupdesc_natts : Z;
  outer_node : outer_plan;
  outer_ratio : Q;
  curr_pmrels : option nat;
  result_format : kds_format;
  result_width : Z;
  kresults_ratio : Q;
  outer_join_start_depth : Z;
  num_rels : Z;
  source_nitems : Z;
  outer_nitems : list Z;
  inners : list innerState;
  (* the allocated pgstrom_multirels objects, by address, and the next
     address to hand out *)
  multirels_heap : gmap nat pgstrom_multirels;
  next_addr : nat
}.

Definition set_scan (g : GpuJoinState) (done : bool)
    (ovf : option HeapTuple) (o : outer_plan) : GpuJoinState :=
  mk_gjs done (scan_bulk g) ovf (pending_tasks g) (num_pending_tasks g)
         (kern_params_length g) (num_context g) (plan_rows g)
         (scan_tupdesc_natts g) o (outer_ratio g) (curr_pmrels g)
         (result_format g) (result_width g) (kresults_ratio g)
         (outer_join_start_depth g) (num_rels g) (source_nitems g)
         (outer_nitems g) (inners g) (multirels_heap g) (next_addr g).

Definition set_pending (g : GpuJoinState) (q : list pgstrom_gpujoin) (n : Z)
    : GpuJoinState :=
  mk_gjs (scan_done g) (scan_bulk g) (scan_overflow g) q n
         (kern_params_length g) (num_context g) (plan_rows g)
         (scan_tupdesc_natts g) (outer_node g) (outer_ratio g) (curr_pmrels g)
         (result_format g) (result_width g) (kresults_ratio g)
         (outer_join_start_depth g) (num_rels g) (source_nitems g)
         (outer_nitems g) (inners g) (multirels_heap g) (next_addr g).

Definition set_curr_pmrels (g : GpuJoinState) (c : option nat)
    : GpuJoinState :=
  mk_gjs (scan_done g) (scan_bulk g) (scan_overflow g) (pending_tasks g)
         (num_pending_tasks g)
         (kern_params_length g) (num_context g) (plan_rows g)
         (scan_tupdesc_natts g) (outer_node g) (outer_ratio g) c
         (result_format g) (result_width g) (kresults_ratio g)
         (outer_join_start_depth g) (num_rels g) (source_nitems g)
         (outer_nitems g) (inners g) (multirels_heap g) (next_addr g).

Definition set_stats (g : GpuJoinState) (src : Z) (out : list Z)
    : GpuJoinState :=
  mk_gjs (scan_done g) (scan_bulk g) (scan_overflow g) (pending_tasks g)
         (num_pending_tasks g)
         (kern_params_length g) (num_context g) (plan_rows g)
         (scan_tupdesc_natts g) (outer_node g) (outer_ratio g) (curr_pmrels g)
         (result_format g) (result_width g) (kresults_ratio g)
         (outer_join_start_depth g) (num_rels g) src out
         (inners g) (multirels_heap g) (next_addr g).

Definition set_inners (g : GpuJoinState) (ins : list innerState)
    : GpuJoinState :=
  mk_gjs (scan_done g) (scan_bulk g) (scan_overflow g) (pending_tasks g)
         (num_pending_tasks g)
         (kern_params_length g) (num_context g) (plan_rows g)
         (scan_tupdesc_natts g) (outer_node g) (outer_ratio g) (curr_pmrels g)
         (result_format g) (result_width g) (kresults_ratio g)
         (outer_join_start_depth g) (num_rels g) (source_nitems g)
         (outer_nitems g) ins (multirels_heap g) (next_addr g).

Definition set_heap (g : GpuJoinState) (h : gmap nat pgstrom_multirels)
    (next : nat) : GpuJoinState :=
  mk_gjs (scan_done g) (scan_bulk g) (scan_overflow g) (pending_tasks g)
         (num_pending_tasks g)
         (kern_params_length g) (num_context g) (plan_rows g)
         (scan_tupdesc_natts g) (outer_node g) (outer_ratio g) (curr_pmrels g)
         (result_format g) (result_width g) (kresults_ratio g)
         (outer_join_start_depth g) (num_rels g) (source_nitems g)
         (outer_nitems g) (inners g) h next.

(** The CUDA driver and allocator calls a function issues, in issue order.
    The driver calls are taken to succeed (a failure is an [elog(ERROR)]
    that aborts the query); an allocation may fail. *)
Inductive kernel_name :=
| gpujoin_preparation
| gpujoin_exec_nestloop
| gpujoin_exec_hashjoin
| gpujoin_outer_nestloop
| gpujoin_outer_hashjoin
| gpujoin_projection_row
| gpujoin_projection_slot.

(** What a device allocation holds: the mirror of the inner relations
    ([m_kmrels]), the outer-join map ([m_ojmaps]) or a task's own buffer
    ([m_kgjoin]). *)
Inductive buffer_kind := Mirror | OuterJoinMap | TaskBuffer.

Inductive cuda_call :=
| GpuMemAlloc (dev : nat) (kind : buffer_kind) (len : Z)
              (ret : option CUdeviceptr)
| GpuMemFree (dev : nat) (kind : buffer_kind) (ptr : CUdeviceptr)
| CuMemsetD32 (ptr : CUdeviceptr) (value count : Z)
| CuEventCreate (ev : CUevent)
| CuEventRecord (ev : CUevent) (stream : nat)
| CuEventDestroy (ev : CUevent)
| CuStreamWaitEvent (stream : nat) (ev : CUevent)
| CuMemcpyHtoDAsync (dst : option CUdeviceptr) (offset len : Z) (stream : nat)
| CuMemcpyDtoHAsync (src : option CUdeviceptr) (len : Z) (stream : nat)
| CuMemcpyPeerAsync (dst_dev src_dev : nat) (depth len : Z) (stream : nat)
| CuLaunchKernel (kernel : kernel_name) (depth : Z) (stream : nat)
| CuStreamAddCallback (stream : nat).

(** ** InnerRelationLoader: histogram repartitioning
       (gpujoin_inner_hash_preload_TS) *)

(** Loop variables of the greedy pass over the histogram. *)
Record ts_loop := mk_ts {
  ts_hash_min : Z;
  ts_curr_size : Z;
  ts_curr_nitems : Z;
  ts_pds_list : list pgstrom_data_store;
  ts_hash_max_list : list Z
}.

Definition ts_init : ts_loop := mk_ts 0 0 0 [] [].

Section Loader.
Context `{Env}.

(** The body of [if (curr_size + next_size > istate->pds_limit)]: seal the
    chunk accumulated so far and reset the counters. *)
Definition ts_cut (ist : innerState) (i : Z) (st : ts_loop) : result ts_loop :=
  if ts_curr_size st =? 0 then
    ERROR "Too extreme hash-key distribution"
  else
    let nslots :=
      wrap32 (trunc (to_double (ts_curr_nitems st) * pgstrom_chunk_size_margin)) in
    let kds_length :=
      STROMALIGN (offsetof_kds_colmeta (scan_natts ist)) +
      STROMALIGN (4 * nslots) + ts_curr_size st in
    let hash_max :=
      wrap32 ((i + 1) * wrap32 (Z.shiftl 1 (hgram_shift ist)) - 1) in
    let pds_hash :=
      set_hash_range (pgstrom_create_data_store_hash kds_length nslots)
                     (ts_hash_min st) hash_max in
    OK (mk_ts (wrap32 (hash_max + 1)) 0 0
              (ts_pds_list st ++ [pds_hash])
              (ts_hash_max_list st ++ [hash_max])).

(** One iteration of [for (i=0; i < istate->hgram_width; i++)]. *)
Definition ts_step (ist : innerState) (i : Z) (next_size next_nitems : Z)
    (st : ts_loop) : result ts_loop :=
  do st1 <- (if ts_curr_size st + next_size >? pds_limit ist
             then ts_cut ist i st else OK st);
  OK (mk_ts (ts_hash_min st1) (ts_curr_size st1 + next_size)
            (ts_curr_nitems st1 + next_nitems)
            (ts_pds_list st1) (ts_hash_max_list st1)).

(** The loop from bucket [i] on; [buckets] pairs hgram_size[i..] with
    hgram_nitems[i..]. *)
Fixpoint ts_loop_from (ist : innerState) (i : Z) (buckets : list (Z * Z))
    (st : ts_loop) : result ts_loop :=
  match buckets with
  | [] => OK st
  | (next_size, next_nitems) :: rest =>
      do st' <- ts_step ist i next_size next_nitems st;
      ts_loop_from ist (i + 1) rest st'
  end.

Definition hgram_buckets (ist : innerState) : list (Z * Z) :=
  take (Z.to_nat (hgram_width ist))
       (zip (hgram_size ist) (hgram_nitems ist)).

(** "The last partitioned chunk". *)
Definition ts_last_chunk (ist : innerState) (st : ts_loop) : ts_loop :=
  let nslots :=
    Max (wrap32 (trunc (to_double (ts_curr_nitems st) * pgstrom_chunk_size_margin)))
        128 in
  let kds_length :=
    STROMALIGN (offsetof_kds_colmeta (scan_natts ist)) +
    STROMALIGN (4 * nslots) + ts_curr_size st + BLCKSZ in
  let pds_hash :=
    set_hash_range (pgstrom_create_data_store_hash kds_length nslots)
                   (ts_hash_min st) UINT_MAX in
  mk_ts (ts_hash_min st) (ts_curr_size st) (ts_curr_nitems st)
        (ts_pds_list st ++ [pds_hash])
        (ts_hash_max_list st ++ [UINT_MAX]).

(** The partitioning decision of gpujoin_inner_hash_preload_TS: the chunks
    (still empty) and the list of their upper hash bounds. *)
Definition ts_partition (ist : innerState) : result ts_loop :=
  do st <- ts_loop_from ist 0 (hgram_buckets ist) ts_init;
  OK (ts_last_chunk ist st).

(** [forboth (lc1, pds_list, lc2, hash_max_list)] for one row: the row goes
    to the first chunk whose upper bound is not below its hash value; a
    failed insertion there is an error; a row no chunk accepts is dropped. *)
Fixpoint ts_route (chunks : list pgstrom_data_store) (maxes : list Z)
    (tup : HeapTuple) : result (list pgstrom_data_store) :=
  match chunks, maxes with
  | pds :: chunks', hash_max :: maxes' =>
      if t_hash tup <=? hash_max then
        match pgstrom_data_store_insert_hashitem pds tup (t_hash tup) with
        | Some pds' => OK (pds' :: chunks')
        | None => ERROR "Bug? GpuHashJoin Histgram was not correct"
        end
      else
        do rest <- ts_route chunks' maxes' tup;
        OK (pds :: rest)
  | _, _ => OK chunks
  end.

(** [while (tuplestore_gettupleslot(...))]. *)
Fixpoint ts_load (chunks : list pgstrom_data_store) (maxes : list Z)
    (rows : list HeapTuple) : result (list pgstrom_data_store) :=
  match rows with
  | [] => OK chunks
  | tup :: rows' =>
      do chunks' <- ts_route chunks maxes tup;
      ts_load chunks' maxes rows'
  end.

(** [rows] is the content of [istate->tupstore], which the caller has
    checked to be there. *)
Definition gpujoin_inner_hash_preload_TS (ist : innerState)
    (rows : list HeapTuple) : result innerState :=
  do st <- ts_partition ist;
  do chunks <- ts_load (ts_pds_list st) (ts_hash_max_list st) rows;
  OK (with_loader ist (upstream ist)
        (map pgstrom_shrink_data_store chunks)
        (consumed ist) (ntuples ist) None
        (hgram_size ist) (hgram_nitems ist)).

(** ** InnerRelationLoader: one row of a hash-join depth
       (gpujoin_inner_hash_preload) *)

(** Computations that may also fail to finish within the given number of
    passes through a [goto retry] or [while] loop ([None]). *)
Definition fbind {A B : Type} (c : option (result A))
    (k : A -> option (result B)) : option (result B) :=
  match c with
  | None => None
  | Some (ERROR msg) => Some (ERROR msg)
  | Some (OK a) => k a
  end.

(** [pds_hash] and [pds_heap] point at the last cell of [pds_list]; a call
    that changes the store behind the pointer changes that cell. *)
Definition update_last {A : Type} (f : A -> A) (l : list A) : list A :=
  alter f (pred (length l)) l.

Definition hash_consumption (tup : HeapTuple) : Z :=
  4 + MAXALIGN (offsetof_khashitem_htup + t_len tup).

(** "histgram update". *)
Definition hgram_update (ist : innerState) (hash consumption : Z)
    : innerState :=
  let index := Z.to_nat (Z.shiftr hash (hgram_shift ist)) in
  with_loader ist (upstream ist) (pds_list ist) (consumed ist) (ntuples ist)
    (tupstore ist)
    (alter (Z.add consumption) index (hgram_size ist))
    (alter (Z.add 1) index (hgram_nitems ist)).

Definition spill_to_tupstore (ist : innerState) (pds_hash : pgstrom_data_store)
    : innerState :=
  with_loader ist (upstream ist) [] (consumed ist) (ntuples ist)
    (Some (pds_items pds_hash)) (hgram_size ist) (hgram_nitems ist).

Definition open_overflow_chunk (ist : innerState)
    (pds_hash : pgstrom_data_store) : innerState :=
  let shrunk := pgstrom_shrink_data_store pds_hash in
  let hash_nslots :=
    wrap32 (trunc (to_double (k_nitems (kds shrunk)) * pgstrom_chunk_size_margin)) in
  let pds_new := pgstrom_create_data_store_hash (pds_limit ist) hash_nslots in
  with_loader ist (upstream ist)
    (update_last (fun _ => shrunk) (pds_list ist) ++ [pds_new])
    (k_usage (kds pds_new)) (ntuples ist)
    (tupstore ist) (hgram_size ist) (hgram_nitems ist).

(** The last part of the function, from the call of
    pgstrom_data_store_insert_hashitem on; [retry] is the [goto retry]
    taken after the store has been expanded. *)
Definition hash_try_insert (retry : innerState -> option (innerState * Z))
    (ist1 : innerState) (tup : HeapTuple) (consumption total_usage : Z)
    : option (innerState * Z) :=
  match last (pds_list ist1) with
  | None => None
  | Some pds_hash =>
      match pgstrom_data_store_insert_hashitem pds_hash tup (t_hash tup) with
      | Some pds' =>
          Some (with_loader ist1 (upstream ist1)
                  (update_last (fun _ => pds') (pds_list ist1))
                  (consumed ist1 + consumption) (ntuples ist1 + 1)
                  (tupstore ist1) (hgram_size ist1) (hgram_nitems ist1),
                total_usage + consumption)
      | None =>
          let nitems_old := k_nitems (kds pds_hash) in
          let nslots_new :=
            wrap32 (trunc (pgstrom_chunk_size_margin *
                           to_double (wrap32 (2 * nitems_old)))) in
          let pds' :=
            pgstrom_expand_data_store pds_hash
              (2 * kds_length pds_hash) nslots_new in
          retry (set_pds_list ist1
                   (update_last (fun _ => pds') (pds_list ist1)))
      end
  end.

(** The code from the [retry:] label to the end of the function.  One unit
    of [fuel] is spent per [goto retry]. *)
Fixpoint hash_preload_retry (fuel : nat) (ist : innerState) (tup : HeapTuple)
    (consumption total_usage : Z) : option (innerState * Z) :=
  match fuel with
  | O => None
  | S fuel' =>
      let retry (ist' : innerState) :=
        hash_preload_retry fuel' ist' tup consumption total_usage in
      match tupstore ist with
      | Some rows =>
          Some (with_loader ist (upstream ist) (pds_list ist)
                  (consumed ist + consumption) (ntuples ist + 1)
                  (Some (rows ++ [tup])) (hgram_size ist) (hgram_nitems ist),
                total_usage + consumption)
      | None =>
          if (pds_limit ist >? 0) && (pds_limit ist <=? consumed ist + consumption)
          then
            match last (pds_list ist) with
            | None => None
            | Some pds_hash =>
                match join_type ist with
                | JOIN_INNER | JOIN_RIGHT =>
                    hash_try_insert retry (open_overflow_chunk ist pds_hash)
                                    tup consumption total_usage
                | JOIN_LEFT | JOIN_FULL =>
                    retry (spill_to_tupstore ist pds_hash)
                end
            end
          else hash_try_insert retry ist tup consumption total_usage
      end
  end.

Definition hash_empty_len (ist : innerState) : Z :=
  STROMALIGN (offsetof_kds_colmeta (scan_natts ist)) + STROMALIGN (4 * 4).

(** The result is [(more, istate, total_usage)]: [more] is the function's
    return value, [total_usage] the updated [*p_total_usage]. *)
Definition gpujoin_inner_hash_preload (fuel : nat) (ist : innerState)
    (total_usage : Z) : option (result (bool * innerState * Z)) :=
  match upstream ist with
  | [] =>
      Some (do ist1 <- match tupstore ist with
                       | Some rows => gpujoin_inner_hash_preload_TS ist rows
                       | None => OK ist
                       end;
            let ist2 :=
              match pds_list ist1 with
              | [] => set_pds_list ist1
                        [pgstrom_create_data_store_hash (hash_empty_len ist1) 4]
              | _ => ist1
              end in
            OK (false, ist2, total_usage))
  | tup :: rest =>
      let ist0 :=
        with_loader ist rest (pds_list ist) (consumed ist) (ntuples ist)
          (tupstore ist) (hgram_size ist) (hgram_nitems ist) in
      let ist1 :=
        match pds_list ist0, tupstore ist0 with
        | [], None =>
            let pds_hash :=
              pgstrom_create_data_store_hash
                (Max (ichunk_size ist0) (pgstrom_chunk_size / 4))
                (hash_nslots ist0) in
            with_loader ist0 (upstream ist0) [pds_hash]
              (KERN_DATA_STORE_HEAD_LENGTH (kds pds_hash)) (ntuples ist0)
              (tupstore ist0) (hgram_size ist0) (hgram_nitems ist0)
        | _, _ => ist0
        end in
      let consumption := hash_consumption tup in
      let ist2 := hgram_update ist1 (t_hash tup) consumption in
      match hash_preload_retry fuel ist2 tup consumption total_usage with
      | None => None
      | Some (ist3, tu) => Some (OK (true, ist3, tu))
      end
  end.

(** ** InnerRelationLoader: one row of a nest-loop depth
       (gpujoin_inner_heap_preload) *)

Fixpoint heap_insert_retry (fuel : nat) (pds_heap : pgstrom_data_store)
    (tup : HeapTuple) : option pgstrom_data_store :=
  match fuel with
  | O => None
  | S fuel' =>
      match pgstrom_data_store_insert_tuple pds_heap tup with
      | Some pds' => Some pds'
      | None =>
          heap_insert_retry fuel'
            (pgstrom_expand_data_store pds_heap (2 * kds_length pds_heap) 0)
            tup
      end
  end.

Definition gpujoin_inner_heap_preload (fuel : nat) (ist : innerState)
    (total_usage : Z) : option (result (bool * innerState * Z)) :=
  match upstream ist with
  | [] =>
      let ist1 :=
        match pds_list ist with
        | [] => set_pds_list ist
                  [pgstrom_create_data_store_row
                     (STROMALIGN (offsetof_kds_colmeta (scan_natts ist)))]
        | _ => ist
        end in
      Some (OK (false, ist1, total_usage))
  | tup :: rest =>
      let ist0 :=
        with_loader ist rest (pds_list ist) (consumed ist) (ntuples ist)
          (tupstore ist) (hgram_size ist) (hgram_nitems ist) in
      let ist1 :=
        match pds_list ist0 with
        | [] =>
            let pds_heap :=
              pgstrom_create_data_store_row
                (Max (ichunk_size ist0) (pgstrom_chunk_size / 4)) in
            with_loader ist0 (upstream ist0) [pds_heap]
              (KERN_DATA_STORE_HEAD_LENGTH (kds pds_heap)) (ntuples ist0)
              (tupstore ist0) (hgram_size ist0) (hgram_nitems ist0)
        | _ => ist0
        end in
      let consumption := 4 + LONGALIGN (offsetof_ktupitem_htup + t_len tup) in
      match last (pds_list ist1) with
      | None => None
      | Some pds_last =>
          let ist2 :=
            if (pds_limit ist1 >? 0) &&
               (pds_limit ist1 <=? consumed ist1 + consumption)
            then
              with_loader ist1 (upstream ist1)
                (pds_list ist1 ++
                 [pgstrom_create_data_store_row (kds_length pds_last)])
                (STROMALIGN (offsetof_kds_colmeta (scan_natts ist1)))
                (ntuples ist1)
                (tupstore ist1) (hgram_size ist1) (hgram_nitems ist1)
            else ist1 in
          match last (pds_list ist2) with
          | None => None
          | Some pds_heap =>
              match heap_insert_retry fuel pds_heap tup with
              | None => None
              | Some pds' =>
                  Some (OK (true,
                            with_loader ist2 (upstream ist2)
                              (update_last (fun _ => pds') (pds_list ist2))
                              (consumed ist2 + consumption) (ntuples ist2 + 1)
                              (tupstore ist2) (hgram_size ist2)
                              (hgram_nitems ist2),
                            total_usage + consumption))
              end
          end
      end
  end.

(** ** InnerRelationLoader: the round-robin load of all depths
       (first half of gpujoin_inner_preload) *)

Definition preload_one (fuel : nat) (ist : innerState) (total_usage : Z)
    : option (result (bool * innerState * Z)) :=
  if hash_inner_keys ist
  then gpujoin_inner_hash_preload fuel ist total_usage
  else gpujoin_inner_heap_preload fuel ist total_usage.

(** [for (i=0; i < istate_nums; i++)] over [istate_buf], which holds the
    positions in [gjs->inners] of the depths that still deliver rows; the
    result lists the positions that stay. *)
Fixpoint preload_pass (fuel : nat) (istate_buf : list nat)
    (inners : list innerState) (total_usage : Z)
    : option (result (list nat * list innerState * Z)) :=
  match istate_buf with
  | [] => Some (OK ([], inners, total_usage))
  | k :: buf' =>
      match inners !! k with
      | None => None
      | Some ist =>
          fbind (preload_one fuel ist total_usage) (fun '(more, ist', tu) =>
          fbind (preload_pass fuel buf' (<[k := ist']> inners) tu)
                (fun '(kept, inners', tu') =>
          Some (OK (if more : bool then k :: kept else kept, inners', tu'))))
      end
  end.

Definition fix_pds_limit (inners : list innerState) : list innerState :=
  map (fun ist => set_pds_limit ist (consumed ist)) inners.

(** [while (istate_nums > 0)]. *)
Fixpoint preload_loop (fuel : nat) (istate_buf : list nat)
    (inners : list innerState) (total_usage total_limit : Z)
    (kmrels_size_fixed : bool) : option (result (list innerState * bool)) :=
  match istate_buf with
  | [] => Some (OK (inners, kmrels_size_fixed))
  | _ =>
      match fuel with
      | O => None
      | S fuel' =>
          fbind (preload_pass (S fuel') istate_buf inners total_usage)
                (fun '(kept, inners', tu) =>
          if negb kmrels_size_fixed && (tu >=? total_limit)
          then preload_loop fuel' kept (fix_pds_limit inners') tu total_limit true
          else preload_loop fuel' kept inners' tu total_limit kmrels_size_fixed)
      end
  end.

(** "set up initial pds_index". *)
Definition init_pds_index (inners : list innerState) : list innerState :=
  map (fun ist =>
         set_nbatches_exec (set_pds_index ist 1)
                           (Z.of_nat (length (pds_list ist))))
      inners.

Definition inner_load_all (fuel : nat) (num_rels : Z)
    (inners : list innerState) : option (result (list innerState)) :=
  let total_limit := wrap64 (gpuMemMaxAllocSize / 2 - BLCKSZ * num_rels) in
  let total_usage := STROMALIGN (offsetof_kmultirels_chunks num_rels) in
  fbind (preload_loop fuel (seq 0 (Z.to_nat num_rels)) inners
                      total_usage total_limit false)
        (fun '(inners', kmrels_size_fixed) =>
  let inners'' :=
    if kmrels_size_fixed then inners' else fix_pds_limit inners' in
  Some (OK (init_pds_index inners''))).

(** ** TaskScheduler: the odometer over the loaded chunks
       (second half of gpujoin_inner_preload) *)

(** [for (j=i+1; j < gjs->num_rels; j++) gjs->inners[i].pds_index = 1;]
    run for [n] values of [j]. *)
Fixpoint odometer_reset (n : nat) (i : nat) (inners : list innerState)
    : list innerState :=
  match n with
  | O => inners
  | S n' => odometer_reset n' i (alter (fun ist => set_pds_index ist 1) i inners)
  end.

(** [for (i=gjs->num_rels - 1; i >= 0; i--)] entered with [i = k - 1];
    [None] is the exit with [i < 0]. *)
Fixpoint odometer_advance (k : nat) (num_rels : nat)
    (inners : list innerState) : option (list innerState) :=
  match k with
  | O => None
  | S i =>
      match inners !! i with
      | None => odometer_advance i num_rels inners
      | Some ist =>
          if pds_index ist <? Z.of_nat (length (pds_list ist)) then
            Some (odometer_reset (num_rels - (i + 1)) i
                    (alter (fun ist => set_pds_index ist (pds_index ist + 1))
                           i inners))
          else odometer_advance i num_rels inners
      end
  end.

End Loader.

(** ** InnerRelationSet: construction of a window and the per-device
       reference counts *)

Section Multirels.
Context `{Env}.

(** gpujoin_create_multirels: a zero-filled object with one cell per CUDA
    context in each per-device array.  [inner_chunks] and [kern.chunks] are
    filled, cell by cell in increasing order, by the caller. *)
Definition gpujoin_create_multirels (gjs : GpuJoinState) : pgstrom_multirels :=
  let head := STROMALIGN (offsetof_pmrels_chunks (num_rels gjs)) in
  mk_pmrels head head 0 [] false 0
            (replicate (num_context gjs) 0)
            (replicate (num_context gjs) None)
            (replicate (num_context gjs) None)
            (replicate (num_context gjs) None)
            (num_rels gjs) (Z.of_nat (num_context gjs)) [].

(** One pass of [for (i=0; i < gjs->num_rels; i++)] under "make a first
    pmrels": the chunk of the depth is [linitial(istate->pds_list)]. *)
Definition window_add (ist : innerState) (pm : pgstrom_multirels)
    : option pgstrom_multirels :=
  match pds_list ist with
  | [] => None
  | pds :: _ =>
      let is_right :=
        match join_type ist with
        | JOIN_RIGHT | JOIN_FULL => true
        | _ => false
        end in
      let is_left :=
        match join_type ist with
        | JOIN_LEFT | JOIN_FULL => true
        | _ => false
        end in
      let chunk :=
        mk_chunk (usage_length pm)
                 (if is_right then ojmap_length pm else 0)
                 is_right is_left in
      Some (mk_pmrels (head_length pm)
              (usage_length pm + STROMALIGN (k_length (kds pds)))
              (if is_right
               then ojmap_length pm +
                    STROMALIGN (sizeof_cl_bool * k_nitems (kds pds)) *
                    kern_ndevs pm
               else ojmap_length pm)
              (inner_chunks pm ++ [pds])
              (outer_join_kicked pm) (n_attached pm)
              (refcnt pm) (m_kmrels pm) (ev_loaded pm) (m_ojmaps pm)
              (kern_nrels pm) (kern_ndevs pm)
              (kern_chunks pm ++ [chunk]))
  end.

Fixpoint build_window (ins : list innerState) (pm : pgstrom_multirels)
    : option pgstrom_multirels :=
  match ins with
  | [] => Some pm
  | ist :: rest =>
      match window_add ist pm with
      | None => None
      | Some pm' => build_window rest pm'
      end
  end.

(** gpujoin_inner_preload: the new window's address, or [None] for the
    NULL that ends the inner scan. *)
Definition gpujoin_inner_preload (fuel : nat) (gjs : GpuJoinState)
    : option (result (GpuJoinState * option nat)) :=
  fbind (match curr_pmrels gjs with
         | None =>
             fbind (inner_load_all fuel (num_rels gjs) (inners gjs))
                   (fun ins => Some (OK (Some ins)))
         | Some _ =>
             Some (OK (odometer_advance (Z.to_nat (num_rels gjs))
                                        (Z.to_nat (num_rels gjs))
                                        (inners gjs)))
         end)
        (fun advanced =>
           match advanced with
           | None => Some (OK (gjs, None))
           | Some ins =>
               match build_window (take (Z.to_nat (num_rels gjs)) ins)
                                  (gpujoin_create_multirels gjs) with
               | None => None
               | Some pm =>
                   let a := next_addr gjs in
                   Some (OK (set_heap (set_inners gjs ins)
                               (<[a := set_attach pm (outer_join_kicked pm) 1]>
                                  (multirels_heap gjs))
                               (S a),
                             Some a))
               end
           end).

Definition multirels_attach_buffer (pm : pgstrom_multirels)
    : pgstrom_multirels :=
  set_attach pm (outer_join_kicked pm) (n_attached pm + 1).

Definition dev_refcnt (pm : pgstrom_multirels) (dev : nat) : Z :=
  default 0 (refcnt pm !! dev).
Definition dev_m_kmrels (pm : pgstrom_multirels) (dev : nat)
    : option CUdeviceptr := default None (m_kmrels pm !! dev).
Definition dev_ev_loaded (pm : pgstrom_multirels) (dev : nat)
    : option CUevent := default None (ev_loaded pm !! dev).
Definition dev_m_ojmaps (pm : pgstrom_multirels) (dev : nat)
    : option CUdeviceptr := default None (m_ojmaps pm !! dev).

(** multirels_get_buffer on device [dev].  [a_kmrels] and [a_ojmaps] are
    what gpuMemAlloc answers if it is asked for the mirror and for the
    outer-join map.  The result is the return value, the buffer, the two
    addresses written through [p_kmrels] / [p_ojmaps] and the calls made. *)
Definition multirels_get_buffer (pm : pgstrom_multirels) (dev : nat)
    (a_kmrels a_ojmaps : option CUdeviceptr)
    : bool * pgstrom_multirels *
      (option CUdeviceptr * option CUdeviceptr) * list cuda_call :=
  let finish (pm1 : pgstrom_multirels) (log : list cuda_call) :=
    let pm2 :=
      set_device pm1 (<[dev := dev_refcnt pm1 dev + 1]> (refcnt pm1))
                 (m_kmrels pm1) (ev_loaded pm1) (m_ojmaps pm1) in
    (true, pm2, (dev_m_kmrels pm2 dev, dev_m_ojmaps pm2 dev), log) in
  if dev_refcnt pm dev =? 0 then
    let log1 := [GpuMemAlloc dev Mirror (usage_length pm) a_kmrels] in
    match a_kmrels with
    | None => (false, pm, (None, None), log1)
    | Some kmrels =>
        if (ojmap_length pm >? 0) && negb (bool_decide (is_Some (dev_m_ojmaps pm dev)))
        then
          let log2 :=
            log1 ++ [GpuMemAlloc dev OuterJoinMap (ojmap_length pm) a_ojmaps] in
          match a_ojmaps with
          | None =>
              (false, pm, (None, None), log2 ++ [GpuMemFree dev Mirror kmrels])
          | Some ojmaps =>
              finish
                (set_device pm (refcnt pm)
                   (<[dev := Some kmrels]> (m_kmrels pm)) (ev_loaded pm)
                   (<[dev := Some ojmaps]> (m_ojmaps pm)))
                (log2 ++ [CuMemsetD32 ojmaps 0 (ojmap_length pm / 4)])
          end
        else
          finish
            (set_device pm (refcnt pm)
               (<[dev := Some kmrels]> (m_kmrels pm)) (ev_loaded pm)
               (m_ojmaps pm))
            log1
    end
  else finish pm [].

(** multirels_put_buffer on device [dev]. *)
Definition multirels_put_buffer (pm : pgstrom_multirels) (dev : nat)
    : pgstrom_multirels * list cuda_call :=
  let rc := dev_refcnt pm dev - 1 in
  let pm1 :=
    set_device pm (<[dev := rc]> (refcnt pm)) (m_kmrels pm) (ev_loaded pm)
               (m_ojmaps pm) in
  if rc =? 0 then
    let log1 :=
      match dev_m_kmrels pm1 dev with
      | Some p => [GpuMemFree dev Mirror p]
      | None => []
      end in
    let log2 :=
      match dev_ev_loaded pm1 dev with
      | Some ev => [CuEventDestroy ev]
      | None => []
      end in
    (set_device pm1 (refcnt pm1) (<[dev := None]> (m_kmrels pm1))
                (<[dev := None]> (ev_loaded pm1)) (m_ojmaps pm1),
     log1 ++ log2)
  else (pm1, []).

(** multirels_send_buffer; [ev_new] is the handle cuEventCreate returns if
    it is called. *)
Definition multirels_send_buffer (pm : pgstrom_multirels) (dev stream : nat)
    (ev_new : CUevent) : pgstrom_multirels * list cuda_call :=
  match dev_ev_loaded pm dev with
  | None =>
      let m := dev_m_kmrels pm dev in
      (set_device pm (refcnt pm) (m_kmrels pm)
                  (<[dev := Some ev_new]> (ev_loaded pm)) (m_ojmaps pm),
       [CuEventCreate ev_new;
        CuMemcpyHtoDAsync m 0 (offsetof_kmultirels_chunks (kern_nrels pm)) stream]
       ++ map (fun '(pds, c) =>
                 CuMemcpyHtoDAsync m (chunk_offset c) (k_length (kds pds)) stream)
              (take (Z.to_nat (kern_nrels pm))
                    (zip (inner_chunks pm) (kern_chunks pm)))
       ++ [CuEventRecord ev_new stream])
  | Some ev => (pm, [CuStreamWaitEvent stream ev])
  end.

(** multirels_colocate_outer_join_maps for [depth] on device [dev]: one
    peer copy from every other device that holds an outer-join map. *)
Definition multirels_colocate_outer_join_maps (pm : pgstrom_multirels)
    (num_context dev stream : nat) (depth : Z) : list cuda_call :=
  let nitems :=
    match inner_chunks pm !! Z.to_nat (depth - 1) with
    | Some chunk => k_nitems (kds chunk)
    | None => 0
    end in
  omap (fun i =>
          if bool_decide (i = dev) then None
          else match dev_m_ojmaps pm i with
               | None => None
               | Some _ =>
                   Some (CuMemcpyPeerAsync dev i depth
                           (STROMALIGN (sizeof_cl_bool * nitems)) stream)
               end)
       (seq 0 num_context).

End Multirels.

(** ** SizeEstimator (compute_outer_ntuples_OJ, gpujoin_attach_result_buffer) *)

Definition znth (l : list Z) (i : Z) : Z := default 0 (l !! Z.to_nat i).

(** The values of [oitems_nums], [kresults_ratio] and [dst_nrows_ratio]. *)
Record estimate := mk_estimate {
  est_oitems_nums : Z;
  est_kresults_ratio : Q;
  est_dst_nrows_ratio : Q
}.

Section Sizing.
Context `{Env}.

Local Open Scope Q_scope.

(** One pass of the loop of compute_outer_ntuples_OJ, on
    [(ntuples, kresults_ratio)]. *)
Definition oj_step (gjs : GpuJoinState) (pm : pgstrom_multirels)
    (oitems_nums : Z) (i : Z) (acc : Q * Q) : Q * Q :=
  let '(ntuples, kresults_ratio) := acc in
  match inners gjs !! Z.to_nat (i - 1) with
  | None => acc
  | Some istate =>
      let exec_nrows_ratio :=
        if (znth (outer_nitems gjs) (i - 1) >? 0)%Z
        then to_double (znth (outer_nitems gjs) i) /
             to_double (znth (outer_nitems gjs) (i - 1))
        else if (znth (outer_nitems gjs) i >? 0)%Z then 1 else 0 in
      let ntuples1 :=
        if (depth istate >? outer_join_start_depth gjs)%Z
        then ntuples * (exec_nrows_ratio * pgstrom_chunk_size_margin)
        else ntuples in
      let ntuples2 :=
        match join_type istate with
        | JOIN_RIGHT | JOIN_FULL =>
            let nitems :=
              match inner_chunks pm !! Z.to_nat (i - 1) with
              | Some pds_in => k_nitems (kds pds_in)
              | None => 0%Z
              end in
            ntuples1 +
            (1 - QMin exec_nrows_ratio 1) * pgstrom_chunk_size_margin *
            to_double nitems
        | _ => ntuples1
        end in
      (ntuples2,
       QMax kresults_ratio
            (to_double (i + 1) * ntuples2 / to_double oitems_nums))
  end.

(** The result is [(size_t) ntuples] and the value stored through
    [p_kresults_ratio]. *)
Definition compute_outer_ntuples_OJ (gjs : GpuJoinState)
    (pm : pgstrom_multirels) (pgjoin : pgstrom_gpujoin) (depth : Z)
    : Z * Q :=
  let start := outer_join_start_depth gjs in
  let '(ntuples, kresults_ratio) :=
    foldl (fun acc i => oj_step gjs pm (oitems_nums pgjoin) i acc)
          (0, 0)
          (map (fun k => (start + Z.of_nat k)%Z)
               (seq 0 (Z.to_nat (depth - start)))) in
  (wrap64 (trunc ntuples), kresults_ratio).

(** [kresults_ratio_exec] after its [for (i=1; i <= gjs->num_rels; i++)]. *)
Definition kresults_ratio_exec (gjs : GpuJoinState) : Q :=
  foldl (fun acc i =>
           QMax acc (to_double (i + 1) * to_double (znth (outer_nitems gjs) 0) /
                     to_double (source_nitems gjs)))
        (to_double (znth (outer_nitems gjs) 0) / to_double (source_nitems gjs))
        (map (fun k => (1 + Z.of_nat k)%Z) (seq 0 (Z.to_nat (num_rels gjs)))).

(** The estimate before "In case of re-execution due to NoDataSpace
    error". *)
Definition fresh_estimate (gjs : GpuJoinState) (pm : pgstrom_multirels)
    (pgjoin : pgstrom_gpujoin) : estimate :=
  let outer_plan_nrows := outer_plan_rows (outer_node gjs) in
  let i_last := (num_rels gjs - 1)%Z in
  let nrows_ratio_last :=
    match inners gjs !! Z.to_nat i_last with
    | Some ist => nrows_ratio ist
    | None => 0
    end in
  match pds_src pgjoin with
  | Some src =>
      let oitems_nums := wrap32 (k_nitems (kds src) - oitems_base pgjoin) in
      if (source_nitems gjs =? 0)%Z then
        mk_estimate oitems_nums (kresults_ratio gjs) nrows_ratio_last
      else
        let kresults_ratio_plan := kresults_ratio gjs in
        let kresults_ratio_exec := kresults_ratio_exec gjs in
        let dst_nrows_ratio_plan := nrows_ratio_last in
        let dst_nrows_ratio_exec :=
          to_double (znth (outer_nitems gjs) i_last) /
          to_double (source_nitems gjs) in
        if (source_nitems gjs >=? wrap64 (trunc ((3 # 10) * outer_plan_nrows)))%Z
        then mk_estimate oitems_nums kresults_ratio_exec dst_nrows_ratio_exec
        else
          let merge_ratio :=
            to_double (source_nitems gjs) / ((3 # 10) * outer_plan_nrows) in
          mk_estimate oitems_nums
            (kresults_ratio_exec * merge_ratio +
             kresults_ratio_plan * (1 - merge_ratio))
            (dst_nrows_ratio_exec * merge_ratio +
             dst_nrows_ratio_plan * (1 - merge_ratio))
  | None =>
      let nitems_in :=
        match inner_chunks pm !! Z.to_nat (outer_join_start_depth gjs - 1) with
        | Some pds_in => k_nitems (kds pds_in)
        | None => 0%Z
        end in
      let oitems_nums := wrap32 (nitems_in - oitems_base pgjoin) in
      let '(ntuples, kresults_ratio) :=
        compute_outer_ntuples_OJ gjs pm pgjoin (num_rels gjs + 1) in
      mk_estimate oitems_nums kresults_ratio
                  (to_double ntuples / to_double oitems_nums)
  end.

(** "In case of re-execution due to NoDataSpace error". *)
Definition retry_estimate (gjs : GpuJoinState) (pm : pgstrom_multirels)
    (pgjoin : pgstrom_gpujoin) : estimate :=
  let e := fresh_estimate gjs pm pgjoin in
  match pds_dst pgjoin with
  | Some dst =>
      let kresults_ratio_prev :=
        to_double (kresults_max_items (kern pgjoin)) /
        to_double (oitems_nums pgjoin) in
      let dst_nrows_ratio_prev :=
        to_double (k_nitems (kds dst)) / to_double (oitems_nums pgjoin) in
      mk_estimate (est_oitems_nums e)
                  (QMax (est_kresults_ratio e) kresults_ratio_prev)
                  (QMax (est_dst_nrows_ratio e) dst_nrows_ratio_prev)
  | None => e
  end.

Local Open Scope Z_scope.

Definition kgjoin_head (gjs : GpuJoinState) : Z :=
  offsetof_kgpujoin_kparams + STROMALIGN (kern_params_length gjs).

(** [total_items] before the comparison with the chunk size. *)
Definition estimated_total_items (e : estimate) : Z :=
  wrap64 (trunc (est_kresults_ratio e * to_double (est_oitems_nums e) *
                 pgstrom_chunk_size_margin)%Q).

Definition kgjoin_length (gjs : GpuJoinState) (total_items : Z) : Z :=
  kgjoin_head gjs +
  STROMALIGN (offsetof_kresultbuf_results total_items) +
  STROMALIGN (offsetof_kresultbuf_results total_items).

Definition reduced_items (gjs : GpuJoinState) : Z :=
  wrap64 (wrap64 (pgstrom_chunk_size - kgjoin_head gjs) / 2 -
          STROMALIGN (offsetof_kresultbuf_results 0)) / 4.

(** [(cl_uint)((double) n * (double) num / (double) den)]. *)
Definition scale_oitems (n num den : Z) : Z :=
  wrap32 (trunc (to_double n * to_double num / to_double den)%Q).

(** "Length estimation of kern_gpujoin including two kern_resultbuf. If too
    large, oitems_nums shall be reduced."  The result is the admitted row
    count and [total_items]. *)
Definition cap_result_buffer (gjs : GpuJoinState) (e : estimate)
    : result (Z * Z) :=
  let total_items := estimated_total_items e in
  if kgjoin_length gjs total_items >? pgstrom_chunk_size then
    let oitems_nums :=
      scale_oitems (est_oitems_nums e) (reduced_items gjs) total_items in
    if oitems_nums <? 1 then ERROR "Kresults growth ratio too large"
    else OK (oitems_nums, reduced_items gjs)
  else OK (est_oitems_nums e, total_items).

(** The two arms under "in case of StromError_DataStoreNoSpace": the
    destination store is emptied, in place or in a larger allocation. *)
Definition reset_dst (dst : pgstrom_data_store) (new_length nrooms : Z)
    : pgstrom_data_store :=
  let k := kds dst in
  if new_length <=? k_length k then
    mk_pds (mk_kds (k_length k) 0 0 nrooms (k_nslots k) (k_format k)
                   (k_hash_min k) (k_hash_max k))
           (kds_length dst) []
  else
    mk_pds (mk_kds new_length 0 0 nrooms (k_nslots k) (k_format k)
                   (k_hash_min k) (k_hash_max k))
           new_length [].

Definition dst_head (gjs : GpuJoinState) : Z :=
  STROMALIGN (offsetof_kds_colmeta (scan_tupdesc_natts gjs)).

(** The [KDS_FORMAT_SLOT] arm: admitted row count and destination store. *)
Definition size_dst_slot (gjs : GpuJoinState) (pgjoin : pgstrom_gpujoin)
    (oitems_nums result_nitems : Z)
    : result (Z * pgstrom_data_store) :=
  let ncols := scan_tupdesc_natts gjs in
  let unit := LONGALIGN ((sizeof_Datum + 1) * ncols) in
  let length := dst_head gjs + unit * result_nitems in
  do '(oitems_nums', result_nitems') <-
    (if ncols =? 0 then OK (oitems_nums, INT_MAX)
     else if length <? pgstrom_chunk_size / 4 then
       OK (oitems_nums, wrap64 (pgstrom_chunk_size / 4 - dst_head gjs) / unit)
     else if length >? pgstrom_chunk_size_limit then
       let small_nitems :=
         wrap64 (pgstrom_chunk_size_limit - dst_head gjs) / unit in
       let reduced := scale_oitems oitems_nums small_nitems result_nitems in
       if reduced <? 1 then ERROR "Too much growth of results tuples"
       else OK (reduced, small_nitems)
     else OK (oitems_nums, result_nitems));
  OK (oitems_nums',
      match pds_dst pgjoin with
      | None => pgstrom_create_data_store_slot result_nitems'
      | Some dst =>
          reset_dst dst (dst_head gjs + unit * result_nitems') result_nitems'
      end).

(** The [KDS_FORMAT_ROW] arm.  The average width of a result row of the
    previous attempt divides by its row count; that division stops the
    process when the count is zero. *)
Definition size_dst_row (gjs : GpuJoinState) (pgjoin : pgstrom_gpujoin)
    (oitems_nums result_nitems : Z)
    : result (Z * pgstrom_data_store) :=
  do width <-
    match pds_dst pgjoin with
    | None => OK (result_width gjs)
    | Some dst =>
        let k := kds dst in
        if k_nitems k =? 0 then ERROR "integer division by zero"
        else OK (MAXALIGN
                   (wrap64 (k_usage k - KERN_DATA_STORE_HEAD_LENGTH k -
                            4 * k_nitems k) / k_nitems k))
    end;
  let per_row := MAXALIGN (offsetof_ktupitem_htup + width) in
  let new_length :=
    dst_head gjs + STROMALIGN (4 * result_nitems) + per_row * result_nitems in
  do new_length' <-
    (if new_length <? pgstrom_chunk_size / 4 then OK (pgstrom_chunk_size / 4)
     else if new_length >? pgstrom_chunk_size_limit then
       if oitems_nums <? 1 then ERROR "Too much growth of results tuples"
       else OK pgstrom_chunk_size_limit
     else OK new_length);
  OK (oitems_nums,
      match pds_dst pgjoin with
      | None => pgstrom_create_data_store_row new_length'
      | Some dst => reset_dst dst new_length' INT_MAX
      end).

(** gpujoin_attach_result_buffer; [pm] is the buffer [pgjoin->pmrels]
    points to. *)
Definition gpujoin_attach_result_buffer (gjs : GpuJoinState)
    (pm : pgstrom_multirels) (pgjoin : pgstrom_gpujoin)
    : result pgstrom_gpujoin :=
  let e := retry_estimate gjs pm pgjoin in
  do '(oitems_nums, total_items) <- cap_result_buffer gjs e;
  let kgjoin :=
    mk_kgjoin (kgjoin_head gjs)
              (kgjoin_head gjs +
               STROMALIGN (offsetof_kresultbuf_results total_items))
              total_items 0 (num_rels gjs) (outer_join_start_depth gjs)
              StromError_Success (kg_outer_nitems (kern pgjoin))
              (mk_kresultbuf 1 total_items 0) in
  let result_nitems :=
    wrap64 (trunc (to_double oitems_nums * est_dst_nrows_ratio e *
                   pgstrom_chunk_size_margin)%Q) in
  do '(oitems_nums', dst) <-
    match result_format gjs with
    | KDS_FORMAT_SLOT => size_dst_slot gjs pgjoin oitems_nums result_nitems
    | KDS_FORMAT_ROW => size_dst_row gjs pgjoin oitems_nums result_nitems
    | KDS_FORMAT_HASH => ERROR "Bug? unexpected result format"
    end;
  OK (set_buffers pgjoin oitems_nums' (pds_src pgjoin) (Some dst) kgjoin).

End Sizing.

(** ** TaskScheduler and Task lifecycle *)

Section Scheduler.
Context `{Env}.

(** gpujoin_create_task: the task object gets the next free address, is
    attached to the buffer at [pm_addr] and is sized. *)
Definition gpujoin_create_task (gjs : GpuJoinState) (pm_addr : nat)
    (src : option pgstrom_data_store) (base : Z)
    : option (result (GpuJoinState * pgstrom_gpujoin)) :=
  match multirels_heap gjs !! pm_addr with
  | None => None
  | Some pm =>
      let pm' := multirels_attach_buffer pm in
      let pgjoin :=
        mk_gpujoin (next_addr gjs) StromError_Success 0%nat 0%nat
                   None None None
                   base 4025479151 (* 0xefefefef *) (Some pm_addr) src None
                   (mk_kgjoin 0 0 0 0 0 0 StromError_Success []
                              (mk_kresultbuf 0 0 0)) in
      let gjs' :=
        set_heap gjs (<[pm_addr := pm']> (multirels_heap gjs))
                 (S (next_addr gjs)) in
      Some (do pgjoin' <- gpujoin_attach_result_buffer gjs' pm' pgjoin;
            OK (gjs', pgjoin'))
  end.

(** [__gpuMemFree] of every outer-join map the buffer holds, device by
    device. *)
Definition free_ojmaps (pm : pgstrom_multirels) (num_context : nat)
    : list cuda_call :=
  omap (fun index =>
          match dev_m_ojmaps pm index with
          | Some p => Some (GpuMemFree index OuterJoinMap p)
          | None => None
          end)
       (seq 0 num_context).

(** multirels_detach_buffer on the buffer at [pm_addr]. *)
Definition multirels_detach_buffer (gjs : GpuJoinState) (pm_addr : nat)
    (may_kick_outer_join : bool)
    : option (result (GpuJoinState * list cuda_call)) :=
  match multirels_heap gjs !! pm_addr with
  | None => None
  | Some pm =>
      fbind
        (if may_kick_outer_join && (n_attached pm =? 1) &&
            negb (outer_join_kicked pm)
         then
           fbind (gpujoin_create_task gjs pm_addr None 0)
                 (fun '(gjs1, pgjoin_new) =>
           let gjs2 :=
             set_pending gjs1 (pending_tasks gjs1 ++ [pgjoin_new])
                         (num_pending_tasks gjs1 + 1) in
           Some (OK (set_heap gjs2
                       (alter (fun pm1 => set_attach pm1 true (n_attached pm1))
                              pm_addr (multirels_heap gjs2))
                       (next_addr gjs2))))
         else Some (OK gjs))
        (fun gjs3 =>
           match multirels_heap gjs3 !! pm_addr with
           | None => None
           | Some pm3 =>
               let n := n_attached pm3 - 1 in
               if n =? 0 then
                 Some (OK (set_heap gjs3 (delete pm_addr (multirels_heap gjs3))
                                    (next_addr gjs3),
                           free_ojmaps pm3 (num_context gjs3)))
               else
                 Some (OK (set_heap gjs3
                             (<[pm_addr := set_attach pm3 (outer_join_kicked pm3) n]>
                                (multirels_heap gjs3))
                             (next_addr gjs3),
                           []))
           end)
  end.

(** The [while (true)] loop of gpujoin_next_chunk over the rows the outer
    node still has; the result is the rows left, the chunk built,
    [scan_done] and [scan_overflow]. *)
Fixpoint outer_fill (rows : list HeapTuple) (pds : option pgstrom_data_store)
    : list HeapTuple * option pgstrom_data_store * bool * option HeapTuple :=
  match rows with
  | [] => ([], pds, true, None)
  | slot :: rest =>
      let p :=
        match pds with
        | Some p => p
        | None => pgstrom_create_data_store_row pgstrom_chunk_size
        end in
      match pgstrom_data_store_insert_tuple p slot with
      | Some p' => outer_fill rest (Some p')
      | None => (rest, Some p, false, Some slot)
      end
  end.

(** Reading the next outer chunk: row by row, or BulkExecProcNode. *)
Definition read_outer (gjs : GpuJoinState)
    : GpuJoinState * option pgstrom_data_store :=
  let o := outer_node gjs in
  if negb (scan_bulk gjs) then
    let '(rows, pds, done, ovf) :=
      match scan_overflow gjs with
      | Some slot =>
          let p := pgstrom_create_data_store_row pgstrom_chunk_size in
          match pgstrom_data_store_insert_tuple p slot with
          | Some p' =>
              let '(rows, pds, done, ovf) := outer_fill (outer_rows o) (Some p') in
              (rows, pds, done || scan_done gjs, ovf)
          | None => (outer_rows o, Some p, scan_done gjs, Some slot)
          end
      | None =>
          let '(rows, pds, done, ovf) := outer_fill (outer_rows o) None in
          (rows, pds, done || scan_done gjs, ovf)
      end in
    (set_scan gjs done ovf
       (mk_outer (outer_all_rows o) rows (outer_all_chunks o) (outer_chunks o)
                 (outer_plan_rows o)),
     pds)
  else
    match outer_chunks o with
    | pds :: rest =>
        (set_scan gjs (scan_done gjs) (scan_overflow gjs)
           (mk_outer (outer_all_rows o) (outer_rows o) (outer_all_chunks o) rest
                     (outer_plan_rows o)),
         Some pds)
    | [] => (set_scan gjs true (scan_overflow gjs) o, None)
    end.

(** gpujoin_next_chunk; one unit of [fuel] per [goto retry]. *)
Fixpoint gpujoin_next_chunk (fuel : nat) (gjs : GpuJoinState)
    : option (result (GpuJoinState * option pgstrom_gpujoin)) :=
  match fuel with
  | O => None
  | S fuel' =>
      fbind
        (if scan_done gjs || negb (bool_decide (is_Some (curr_pmrels gjs)))
         then
           fbind (gpujoin_inner_preload (S fuel') gjs)
                 (fun '(gjs1, pmrels_new) =>
           fbind (match curr_pmrels gjs1 with
                  | Some cur =>
                      fbind (multirels_detach_buffer gjs1 cur true)
                            (fun '(gjs2, _) =>
                               Some (OK (set_curr_pmrels gjs2 None)))
                  | None => Some (OK gjs1)
                  end)
                 (fun gjs3 =>
           match pmrels_new with
           | None => Some (OK (gjs3, false))
           | Some a =>
               let gjs4 := set_curr_pmrels gjs3 (Some a) in
               Some (OK (if scan_done gjs4
                         then set_scan gjs4 false (scan_overflow gjs4)
                                       (ExecReScan (outer_node gjs4))
                         else gjs4,
                         true))
           end))
         else Some (OK (gjs, true)))
        (fun '(gjs5, more) =>
           if more : bool then
             let '(gjs6, pds) := read_outer gjs5 in
             match pds with
             | None => gpujoin_next_chunk fuel' gjs6
             | Some p =>
                 match curr_pmrels gjs6 with
                 | None => None
                 | Some cur =>
                     fbind (gpujoin_create_task gjs6 cur (Some p) 0)
                           (fun '(gjs7, task) => Some (OK (gjs7, Some task)))
                 end
             end
           else Some (OK (gjs5, None)))
  end.

(** gpujoin_cleanup_cuda_resources: the task gives back its device buffer
    and its reference on the device mirror; [m_ojmaps] is not among the
    pointers it clears. *)
Definition gpujoin_cleanup_cuda_resources (pm : pgstrom_multirels)
    (pgjoin : pgstrom_gpujoin)
    : pgstrom_multirels * pgstrom_gpujoin * list cuda_call :=
  let log1 :=
    match m_kgjoin pgjoin with
    | Some p => [GpuMemFree (cuda_index pgjoin) TaskBuffer p]
    | None => []
    end in
  let '(pm', log2) :=
    match task_m_kmrels pgjoin with
    | Some _ => multirels_put_buffer pm (cuda_index pgjoin)
    | None => (pm, [])
    end in
  (pm', set_cuda pgjoin None None (task_m_ojmaps pgjoin), log1 ++ log2).

(** The kernel launches of one depth in the loop of
    __gpujoin_task_process. *)
Definition launch_depth (gjs : GpuJoinState) (pm : pgstrom_multirels)
    (pgjoin : pgstrom_gpujoin) (depth : Z) : list cuda_call :=
  match inners gjs !! Z.to_nat (depth - 1) with
  | None => []
  | Some istate =>
      let stream := cuda_stream pgjoin in
      let is_nestloop := negb (hash_outer_keys istate) in
      let probe :=
        if bool_decide (is_Some (pds_src pgjoin)) ||
           (depth >? outer_join_start_depth gjs)
        then [CuLaunchKernel (if is_nestloop then gpujoin_exec_nestloop
                              else gpujoin_exec_hashjoin) depth stream]
        else [] in
      let sweep :=
        match join_type istate with
        | JOIN_RIGHT | JOIN_FULL =>
            multirels_colocate_outer_join_maps pm (num_context gjs)
              (cuda_index pgjoin) stream depth ++
            [CuLaunchKernel (if is_nestloop then gpujoin_outer_nestloop
                             else gpujoin_outer_hashjoin) depth stream]
        | _ => []
        end in
      CuLaunchKernel gpujoin_preparation depth stream :: probe ++ sweep
  end.

(** [for (depth = start_depth; depth <= gjs->num_rels; depth++)]. *)
Definition launch_all_depths (gjs : GpuJoinState) (pm : pgstrom_multirels)
    (pgjoin : pgstrom_gpujoin) : list cuda_call :=
  let start := outer_join_start_depth gjs in
  concat (map (fun k => launch_depth gjs pm pgjoin (start + Z.of_nat k))
              (seq 0 (Z.to_nat (num_rels gjs + 1 - start)))).

(** __gpujoin_task_process; [a_kgjoin] is gpuMemAlloc's answer for the
    task's device buffer and [ev_new] the event handle cuEventCreate would
    give to multirels_send_buffer. *)
Definition __gpujoin_task_process (gjs : GpuJoinState)
    (pm : pgstrom_multirels) (pgjoin : pgstrom_gpujoin)
    (a_kgjoin : option CUdeviceptr) (ev_new : CUevent)
    : bool * pgstrom_multirels * pgstrom_gpujoin * list cuda_call :=
  let dev := cuda_index pgjoin in
  let stream := cuda_stream pgjoin in
  let length :=
    kresults_2_offset (kern pgjoin) + kresults_2_offset (kern pgjoin) -
    kresults_1_offset (kern pgjoin) in
  let total_length :=
    GPUMEMALIGN length +
    match pds_src pgjoin with
    | Some src => GPUMEMALIGN (k_length (kds src))
    | None => 0
    end +
    match pds_dst pgjoin with
    | Some dst => GPUMEMALIGN (k_length (kds dst))
    | None => 0
    end in
  let alloc := GpuMemAlloc dev TaskBuffer total_length a_kgjoin in
  match a_kgjoin with
  | None =>
      let '(pm', pgjoin', log) := gpujoin_cleanup_cuda_resources pm pgjoin in
      (false, pm', pgjoin', alloc :: log)
  | Some kg =>
      let pgjoin1 :=
        set_cuda pgjoin (Some kg) (task_m_kmrels pgjoin) (task_m_ojmaps pgjoin) in
      let '(pm1, send) := multirels_send_buffer pm dev stream ev_new in
      let dma_send :=
        [CuMemcpyHtoDAsync (Some kg) 0 (kgjoin_head gjs) stream] ++
        match pds_src pgjoin with
        | Some src => [CuMemcpyHtoDAsync (Some kg) 1 (k_length (kds src)) stream]
        | None => []
        end ++
        match pds_dst pgjoin with
        | Some dst =>
            [CuMemcpyHtoDAsync (Some kg) 2
               (KERN_DATA_STORE_HEAD_LENGTH (kds dst)) stream]
        | None => []
        end in
      let proj :=
        match pds_dst pgjoin with
        | Some dst =>
            match k_format (kds dst) with
            | KDS_FORMAT_ROW => gpujoin_projection_row
            | _ => gpujoin_projection_slot
            end
        | None => gpujoin_projection_slot
        end in
      (true, pm1, pgjoin1,
       alloc :: send ++ dma_send ++
       launch_all_depths gjs pm1 pgjoin1 ++
       [CuLaunchKernel proj (num_rels gjs + 1) stream;
        CuMemcpyDtoHAsync (Some kg) offsetof_kgpujoin_kparams stream;
        CuMemcpyDtoHAsync (Some kg)
          match pds_dst pgjoin with
          | Some dst => k_length (kds dst)
          | None => 0
          end stream;
        CuStreamAddCallback stream])
  end.

(** gpujoin_task_process. *)
Definition gpujoin_task_process (gjs : GpuJoinState) (pm : pgstrom_multirels)
    (pgjoin : pgstrom_gpujoin)
    (a_kmrels a_ojmaps a_kgjoin : option CUdeviceptr) (ev_new : CUevent)
    : bool * pgstrom_multirels * pgstrom_gpujoin * list cuda_call :=
  let '(ok, pm1, (p_kmrels, p_ojmaps), log1) :=
    multirels_get_buffer pm (cuda_index pgjoin) a_kmrels a_ojmaps in
  if ok then
    let '(status, pm2, pgjoin2, log2) :=
      __gpujoin_task_process gjs pm1
        (set_cuda pgjoin (m_kgjoin pgjoin) p_kmrels p_ojmaps) a_kgjoin ev_new in
    (status, pm2, pgjoin2, log1 ++ log2)
  else (false, pm1, pgjoin, log1).

(** [for (i=0; i <= pgjoin->kern.num_rels; i++)
       gjs->outer_nitems[i] += pgjoin->kern.outer_nitems[i];] *)
Definition accumulate_outer_nitems (gjs_nitems task_nitems : list Z)
    (num_rels : Z) : list Z :=
  imap (fun i x =>
          if Z.of_nat i <=? num_rels then x + znth task_nitems (Z.of_nat i)
          else x)
       gjs_nitems.

(** gpujoin_task_complete: the state, the task as the callback leaves it,
    and the callback's return value ([true]: the task goes on to the
    consumer). *)
Definition gpujoin_task_complete (gjs : GpuJoinState)
    (pgjoin : pgstrom_gpujoin)
    : option (result (GpuJoinState * pgstrom_gpujoin * bool)) :=
  match pmrels pgjoin with
  | None => None
  | Some pm_addr =>
  match multirels_heap gjs !! pm_addr with
  | None => None
  | Some pm =>
      let '(pm1, pgjoin1, _) := gpujoin_cleanup_cuda_resources pm pgjoin in
      let gjs1 :=
        set_heap gjs (<[pm_addr := pm1]> (multirels_heap gjs)) (next_addr gjs) in
      match task_errcode pgjoin1 with
      | StromError_Success =>
          match pds_src pgjoin1 with
          | None => None
          | Some src =>
              let nitems := k_nitems (kds src) in
              let upto := wrap32 (oitems_base pgjoin1 + oitems_nums pgjoin1) in
              let processed := wrap32 (Min upto nitems - oitems_base pgjoin1) in
              let gjs2 :=
                set_stats gjs1 (source_nitems gjs1 + processed)
                  (accumulate_outer_nitems (outer_nitems gjs1)
                     (kg_outer_nitems (kern pgjoin1))
                     (kg_num_rels (kern pgjoin1))) in
              if upto <? nitems then
                let pgjoin2 :=
                  set_buffers pgjoin1 (oitems_nums pgjoin1) None
                              (pds_dst pgjoin1) (kern pgjoin1) in
                fbind (gpujoin_create_task gjs2 pm_addr (Some src) upto)
                      (fun '(gjs3, pgjoin_new) =>
                Some (OK (set_pending gjs3
                            (pending_tasks gjs3 ++ [pgjoin_new])
                            (num_pending_tasks gjs3 + 1),
                          pgjoin2, true)))
              else Some (OK (gjs2, pgjoin1, true))
          end
      | StromError_DataStoreNoSpace =>
          Some (do pgjoin2 <- gpujoin_attach_result_buffer gjs1 pm1 pgjoin1;
                OK (set_pending gjs1 (pgjoin2 :: pending_tasks gjs1)
                                (num_pending_tasks gjs1 + 1),
                    pgjoin2, false))
      | StromError_Other _ => Some (OK (gjs1, pgjoin1, true))
      end
  end
  end.

(** gpujoin_task_release: the task lets go of the buffer without asking
    for the outer-join task. *)
Definition gpujoin_task_release (gjs : GpuJoinState)
    (pgjoin : pgstrom_gpujoin)
    : option (result (GpuJoinState * list cuda_call)) :=
  match pmrels pgjoin with
  | None => Some (OK (gjs, []))
  | Some pm_addr =>
      match multirels_heap gjs !! pm_addr with
      | None => None
      | Some pm =>
          let '(pm1, _, log1) := gpujoin_cleanup_cuda_resources pm pgjoin in
          fbind (multirels_detach_buffer
                   (set_heap gjs (<[pm_addr := pm1]> (multirels_heap gjs))
                             (next_addr gjs))
                   pm_addr false)
                (fun '(gjs', log2) => Some (OK (gjs', log1 ++ log2)))
      end
  end.

(** The part of gpujoin_rescan under [if (!keep_pmrels)] that lets go of
    the current window. *)
Definition gpujoin_rescan_detach (gjs : GpuJoinState)
    : option (result (GpuJoinState * list cuda_call)) :=
  match curr_pmrels gjs with
  | Some cur =>
      fbind (multirels_detach_buffer gjs cur false)
            (fun '(gjs', log) => Some (OK (set_curr_pmrels gjs' None, log)))
  | None => Some (OK (gjs, []))
  end.

End Scheduler.

(** ** A concrete platform and small scenarios

    The layout constants are those of a 64-bit build; the data-store helpers
    are the simplest ones that respect a store's byte capacity.  They serve
    the evaluations and the instances of the theorems below. *)

Module Sample.

Definition TYPEALIGN (a x : Z) : Z := Z.land (x + (a - 1)) (Z.lnot (a - 1)).

Definition head_len : Z := 64.

Definition empty_store (fmt : kds_format) (len nslots nrooms : Z)
    : pgstrom_data_store :=
  mk_pds (mk_kds len head_len 0 nrooms nslots fmt 0 UINT_MAX) len [].

Definition add_row (pds : pgstrom_data_store) (tup : HeapTuple) (cost : Z)
    : option pgstrom_data_store :=
  let k := kds pds in
  if k_usage k + cost <=? k_length k then
    Some (mk_pds (mk_kds (k_length k) (k_usage k + cost) (k_nitems k + 1)
                         (k_nrooms k) (k_nslots k) (k_format k)
                         (k_hash_min k) (k_hash_max k))
                 (kds_length pds) (pds_items pds ++ [tup]))
  else None.

Definition expand (pds : pgstrom_data_store) (len nslots : Z)
    : pgstrom_data_store :=
  let k := kds pds in
  mk_pds (mk_kds len (k_usage k) (k_nitems k) (k_nrooms k)
                 (if nslots =? 0 then k_nslots k else nslots) (k_format k)
                 (k_hash_min k) (k_hash_max k))
         len (pds_items pds).

Definition shrink (pds : pgstrom_data_store) : pgstrom_data_store :=
  let k := kds pds in
  mk_pds (mk_kds (k_usage k) (k_usage k) (k_nitems k) (k_nrooms k)
                 (k_nslots k) (k_format k) (k_hash_min k) (k_hash_max k))
         (k_usage k) (pds_items pds).

Definition env : Env := {|
  pgstrom_chunk_size := 4096;
  pgstrom_chunk_size_limit := 8192;
  pgstrom_chunk_size_margin := 11 # 10;
  gpuMemMaxAllocSize := 1024;
  BLCKSZ := 128;
  STROMALIGN := TYPEALIGN 16;
  LONGALIGN := TYPEALIGN 8;
  MAXALIGN := TYPEALIGN 8;
  GPUMEMALIGN := TYPEALIGN 1024;
  offsetof_kds_colmeta := fun n => 48 + 16 * n;
  offsetof_kresultbuf_results := fun n => 16 + 4 * n;
  offsetof_kgpujoin_kparams := 64;
  offsetof_kmultirels_chunks := fun n => 16 + 24 * n;
  offsetof_pmrels_chunks := fun n => 96 + 24 * n;
  sizeof_cl_bool := 1;
  sizeof_Datum := 8;
  offsetof_khashitem_htup := 16;
  offsetof_ktupitem_htup := 8;
  KERN_DATA_STORE_HEAD_LENGTH := fun _ => head_len;
  pgstrom_create_data_store_hash :=
    fun len nslots => empty_store KDS_FORMAT_HASH len nslots 0;
  pgstrom_create_data_store_row :=
    fun len => empty_store KDS_FORMAT_ROW len 0 0;
  pgstrom_create_data_store_slot :=
    fun nrooms => empty_store KDS_FORMAT_SLOT (head_len + 16 * nrooms) 0 nrooms;
  pgstrom_data_store_insert_hashitem :=
    fun pds tup _ => add_row pds tup (4 + TYPEALIGN 8 (16 + t_len tup));
  pgstrom_data_store_insert_tuple :=
    fun pds tup => add_row pds tup (4 + TYPEALIGN 8 (8 + t_len tup));
  pgstrom_expand_data_store := expand;
  pgstrom_shrink_data_store := shrink
|}.

(** A depth with the given join type, rows to load and histogram geometry
    (16 buckets over the 32-bit hash space). *)
Definition depth_of (d : Z) (jt : JoinType) (is_hash : bool)
    (rows : list HeapTuple) : innerState :=
  mk_istate rows [] 0 0 0 0 None d jt 0 1 256 16 28 16
            (replicate 16 0) (replicate 16 0) is_hash is_hash 2.

(** A scan state over the given depths whose outer node delivers the given
    chunks in bulk. *)
Definition scan_of (ins : list innerState)
    (chunks : list pgstrom_data_store) (fmt : kds_format) : GpuJoinState :=
  mk_gjs false true None [] 0 32 1 100 2
         (mk_outer [] [] chunks chunks 100) 1 None fmt 32 1
         1 (Z.of_nat (length ins)) 0 (replicate (S (length ins)) 0) ins
         ∅ 0.

Definition row (len hash : Z) : HeapTuple := mk_tuple len hash.

(** An outer chunk of [n] rows. *)
Definition outer_chunk (n : Z) : pgstrom_data_store :=
  mk_pds (mk_kds 4096 (head_len + 16 * n) n 0 0 KDS_FORMAT_ROW 0 UINT_MAX)
         4096 (replicate (Z.to_nat n) (row 8 0)).

(** A nest-loop depth whose rows have been loaded into the given number of
    one-row chunks, the odometer at its first chunk. *)
Definition loaded_depth (d : Z) (jt : JoinType) (nchunks : nat)
    : innerState :=
  mk_istate []
            (map (fun k => mk_pds (mk_kds 256 176 1 0 0 KDS_FORMAT_ROW 0 UINT_MAX)
                                  256 [row 100 (Z.of_nat k)])
                 (seq 0 nchunks))
            1 412 176 1 None d jt (Z.of_nat nchunks) 1 256 16 28 16
            (replicate 16 0) (replicate 16 0) false false 2.


(** A depth whose tuplestore holds the spilled rows and whose histogram
    has three occupied buckets. *)
Definition spilled (limit : Z) : innerState :=
  mk_istate [] [] 0 limit 0 4 (Some [row 100 7; row 100 (2 ^ 28 + 1);
                                   row 100 (2 ^ 29); row 100 (2 ^ 31)])
            1 JOIN_LEFT 0 1 256 16 28 16
            (<[0%nat := 124]> (<[1%nat := 124]> (<[2%nat := 124]>
               (<[8%nat := 124]> (replicate 16 0)))))
            (<[0%nat := 1]> (<[1%nat := 1]> (<[2%nat := 1]>
               (<[8%nat := 1]> (replicate 16 0)))))
            true true 2.

(** A scan of one nest-loop depth of six rows, loaded into three chunks,
    against an outer relation of one chunk of two rows. *)
Definition one_depth_scan : GpuJoinState :=
  scan_of [depth_of 1 JOIN_INNER false
             [row 100 1; row 100 2; row 100 3; row 100 4; row 100 5; row 100 6]]
          [mk_pds (mk_kds 4096 96 2 0 0 KDS_FORMAT_ROW 0 UINT_MAX) 4096
                  [row 8 21; row 8 22]]
          KDS_FORMAT_SLOT.

(** A window over one loaded chunk, held by the scan only, with one cell per
    device for [ndev] devices and an outer-join map of [ojlen] bytes. *)
Definition window (ndev : nat) (ojlen : Z) : pgstrom_multirels :=
  mk_pmrels 128 1152 ojlen
            [mk_pds (mk_kds 256 176 1 0 0 KDS_FORMAT_ROW 0 UINT_MAX) 256
                    [row 100 0]]
            false 1
            (replicate ndev 0) (replicate ndev None) (replicate ndev None)
            (replicate ndev None)
            1 (Z.of_nat ndev) [mk_chunk 128 0 (0 <? ojlen) false].

(** A scan in progress over one depth of the given join type: its window
    lives at address 0 and is the current one. *)
Definition running_scan (jt : JoinType) (fmt : kds_format) : GpuJoinState :=
  set_curr_pmrels
    (set_heap (scan_of [loaded_depth 1 jt 1] [] fmt)
              {[0%nat := window 1 (match jt with
                                   | JOIN_RIGHT | JOIN_FULL => 16
                                   | _ => 0
                                   end)]} 1)
    (Some 0%nat).

(** A task at address 7 attached to the window at address 0 that has come
    back from the device with status [err], having admitted [nums] rows of
    an outer chunk of [src_rows] rows, used [maxitems] result slots and
    written [dst_rows] rows. *)
Definition returned_task (err : StromError) (src_rows nums maxitems dst_rows : Z)
    : pgstrom_gpujoin :=
  mk_gpujoin 7 err 0 0 None None None 0 nums (Some 0%nat)
             (Some (outer_chunk src_rows))
             (Some (mk_pds (mk_kds 1024 (head_len + 16 * dst_rows) dst_rows 40
                                   0 KDS_FORMAT_SLOT 0 UINT_MAX)
                           1024 []))
             (mk_kgjoin 96 1024 232 maxitems 1 1 err [nums; dst_rows]
                        (mk_kresultbuf 1 232 nums)).

(** A task for a fresh outer chunk of [src_rows] rows, not sized yet. *)
Definition fresh_task (src_rows : Z) : pgstrom_gpujoin :=
  mk_gpujoin 7 StromError_Success 0 0 None None None 0 4025479151
             (Some 0%nat) (Some (outer_chunk src_rows)) None
             (mk_kgjoin 0 0 0 0 0 0 StromError_Success []
                        (mk_kresultbuf 0 0 0)).




(** A left-join depth at the end of its input whose tuplestore holds one
    row of histogram bucket 0 and eight rows of bucket 1, with the
    histogram that goes with them, under a budget of [limit] bytes. *)
Definition second_bucket_heavy (limit : Z) : innerState :=
  mk_istate [] [] 0 limit 1116 9
            (Some (row 100 7 ::
                   map (fun k => row 100 (2 ^ 28 + Z.of_nat k)) (seq 0 8)))
            1 JOIN_LEFT 0 1 256 16 28 16
            (<[0%nat := 124]> (<[1%nat := 992]> (replicate 16 0)))
            (<[0%nat := 1]> (<[1%nat := 8]> (replicate 16 0)))
            true true 2.

End Sample.

(** ** The enumeration a whole scan performs *)

Section Enumeration.
Context `{Env}.

(** The (outer chunk, inner window) pair a task stands for: its source
    chunk and the chunks of the buffer it is attached to. *)
Definition task_pair (gjs : GpuJoinState) (t : pgstrom_gpujoin)
    : option pgstrom_data_store * list pgstrom_data_store :=
  (pds_src t,
   match pmrels t with
   | Some a =>
       match multirels_heap gjs !! a with
       | Some pm => inner_chunks pm
       | None => []
       end
   | None => []
   end).

(** Up to [calls] calls of gpujoin_next_chunk: the pairs of the tasks it
    returns, and whether it has returned NULL. *)
Fixpoint scan_pairs (calls fuel : nat) (gjs : GpuJoinState)
    : option (result
                (list (option pgstrom_data_store * list pgstrom_data_store) *
                 bool)) :=
  match calls with
  | O => Some (OK ([], false))
  | S calls' =>
      fbind (gpujoin_next_chunk fuel gjs) (fun '(gjs', task) =>
      match task with
      | None => Some (OK ([], true))
      | Some t =>
          fbind (scan_pairs calls' fuel gjs') (fun '(pairs, ended) =>
          Some (OK (task_pair gjs' t :: pairs, ended)))
      end)
  end.

(** The positions the odometer shows after [n] advances ([None] once it has
    signalled the end). *)
Fixpoint odometer_trace (n : nat) (num_rels : nat) (ins : list innerState)
    : list (option (list Z)) :=
  match n with
  | O => []
  | S n' =>
      match odometer_advance num_rels num_rels ins with
      | None => [None]
      | Some ins' =>
          Some (map pds_index ins') :: odometer_trace n' num_rels ins'
      end
  end.

End Enumeration.

(** ** Vocabulary of the statements *)

(** The hash value [h] lies in the range [hash_min .. hash_max] recorded in
    the chunk. *)
Definition in_hash_range (h : Z) (pds : pgstrom_data_store) : bool :=
  (k_hash_min (kds pds) <=? h) && (h <=? k_hash_max (kds pds)).




(** The rows of a task's outer chunk and of each chunk of its inner window. *)
Definition pair_rows (p : option pgstrom_data_store * list pgstrom_data_store)
    : list HeapTuple * list (list HeapTuple) :=
  (from_option pds_items [] p.1, map pds_items p.2).

Section Summaries.
Context `{Env}.

(** The pairs a scan of at most [calls] tasks joins, as rows, and whether
    the scan has ended. *)
Definition scan_rows (calls fuel : nat) (gjs : GpuJoinState)
    : option (list (list HeapTuple * list (list HeapTuple)) * bool) :=
  match scan_pairs calls fuel gjs with
  | Some (OK (pairs, ended)) => Some (map pair_rows pairs, ended)
  | _ => None
  end.

(** The rows of every chunk of every depth once the inner relations have
    been loaded. *)
Definition loaded_rows (fuel : nat) (gjs : GpuJoinState)
    : option (list (list (list HeapTuple))) :=
  match gpujoin_inner_preload fuel gjs with
  | Some (OK (gjs', _)) =>
      Some (map (fun ist => map pds_items (pds_list ist)) (inners gjs'))
  | _ => None
  end.

End Summaries.

Section TaskVocabulary.
Context `{Env}.

(** The admitted row count the cap on the result buffer leaves. *)
Definition capped_oitems (gjs : GpuJoinState) (e : estimate) : Z :=
  scale_oitems (est_oitems_nums e) (reduced_items gjs)
               (estimated_total_items e).

(** [result_nitems] for [n] admitted rows. *)
Definition estimated_result_nitems (e : estimate) (n : Z) : Z :=
  wrap64 (trunc (to_double n * est_dst_nrows_ratio e *
                 pgstrom_chunk_size_margin)%Q).

(** The slot store for [rn] result rows is beyond
    [pgstrom_chunk_size_limit]: the last arm of "Adjustment if too short or
    too large". *)
Definition slot_store_too_large (gjs : GpuJoinState) (rn : Z) : bool :=
  let unit := LONGALIGN ((sizeof_Datum + 1) * scan_tupdesc_natts gjs) in
  let length := dst_head gjs + unit * rn in
  negb (scan_tupdesc_natts gjs =? 0) &&
  negb (length <? pgstrom_chunk_size / 4) &&
  (length >? pgstrom_chunk_size_limit).

(** The admitted row count that arm leaves ("reduce number of outer items
    to be processed"). *)
Definition slot_capped_oitems (gjs : GpuJoinState) (n rn : Z) : Z :=
  let unit := LONGALIGN ((sizeof_Datum + 1) * scan_tupdesc_natts gjs) in
  scale_oitems n (wrap64 (pgstrom_chunk_size_limit - dst_head gjs) / unit) rn.

(** The buffer, the task and the scan state once gpujoin_task_complete has
    called gpujoin_cleanup_cuda_resources. *)
Definition cleaned_pmrels (pm : pgstrom_multirels) (pgjoin : pgstrom_gpujoin)
    : pgstrom_multirels := (gpujoin_cleanup_cuda_resources pm pgjoin).1.1.

Definition cleaned_task (pm : pgstrom_multirels) (pgjoin : pgstrom_gpujoin)
    : pgstrom_gpujoin := (gpujoin_cleanup_cuda_resources pm pgjoin).1.2.

Definition cleaned_state (gjs : GpuJoinState) (pm_addr : nat)
    (pm : pgstrom_multirels) (pgjoin : pgstrom_gpujoin) : GpuJoinState :=
  set_heap gjs (<[pm_addr := cleaned_pmrels pm pgjoin]> (multirels_heap gjs))
           (next_addr gjs).

(** The scan state after the statistics of a successful task have been
    added, and the first outer row the task did not admit. *)
Definition counted_state (gjs : GpuJoinState) (pm_addr : nat)
    (pm : pgstrom_multirels) (pgjoin : pgstrom_gpujoin)
    (src : pgstrom_data_store) : GpuJoinState :=
  let gjs1 := cleaned_state gjs pm_addr pm pgjoin in
  let upto := wrap32 (oitems_base pgjoin + oitems_nums pgjoin) in
  set_stats gjs1
    (source_nitems gjs1 +
     wrap32 (Min upto (k_nitems (kds src)) - oitems_base pgjoin))
    (accumulate_outer_nitems (outer_nitems gjs1)
       (kg_outer_nitems (kern pgjoin)) (kg_num_rels (kern pgjoin))).

Definition next_outer_row (pgjoin : pgstrom_gpujoin) : Z :=
  wrap32 (oitems_base pgjoin + oitems_nums pgjoin).

End TaskVocabulary.

(** *** Use of one device's mirror *)

(** What the tasks on one device do to the buffer: take the mirror
    (multirels_get_buffer, with the allocator's two answers), send or await
    its contents (multirels_send_buffer, with the event handle a creation
    would return) and give it back (multirels_put_buffer). *)
Inductive dev_op :=
| DevGet (a_kmrels a_ojmaps : option CUdeviceptr)
| DevSend (ev_new : CUevent)
| DevPut.

Definition is_mirror_alloc (c : cuda_call) : bool :=
  match c with
  | GpuMemAlloc _ Mirror _ (Some _) => true
  | _ => false
  end.

Definition is_mirror_free (c : cuda_call) : bool :=
  match c with
  | GpuMemFree _ Mirror _ => true
  | _ => false
  end.

(** The upload of the inner relations ends with the recording of the load
    event. *)
Definition is_upload (c : cuda_call) : bool :=
  match c with
  | CuEventRecord _ _ => true
  | _ => false
  end.

(** The calls that allocate, clear or free an outer-join map. *)
Definition touches_ojmap (c : cuda_call) : bool :=
  match c with
  | GpuMemAlloc _ OuterJoinMap _ _ => true
  | GpuMemFree _ OuterJoinMap _ => true
  | CuMemsetD32 _ _ _ => true
  | _ => false
  end.

Definition count_calls (p : cuda_call -> bool) (log : list cuda_call) : nat :=
  length (List.filter p log).

(** 1 for a pointer or handle that is set, 0 for the null value. *)
Definition held {A : Type} (o : option A) : nat :=
  match o with
  | Some _ => 1
  | None => 0
  end.

(** The buffer has a cell for device [dev] in each per-device array. *)
Definition dev_valid (pm : pgstrom_multirels) (dev : nat) : Prop :=
  (dev < length (refcnt pm))%nat /\
  (dev < length (m_kmrels pm))%nat /\
  (dev < length (ev_loaded pm))%nat /\
  (dev < length (m_ojmaps pm))%nat.

(** Device [dev] holds nothing of the buffer. *)
Definition dev_unused (pm : pgstrom_multirels) (dev : nat) : Prop :=
  dev_refcnt pm dev = 0 /\ dev_m_kmrels pm dev = None /\
  dev_ev_loaded pm dev = None.

Section DeviceRuns.
Context `{Env}.

(** One operation on device [dev]; a task sends or gives back only while it
    holds the mirror ([Assert(pmrels->refcnt[cuda_index] > 0)]). *)
Definition dev_step (dev stream : nat) (op : dev_op)
    (st : pgstrom_multirels * list cuda_call)
    : option (pgstrom_multirels * list cuda_call) :=
  match op with
  | DevGet a_kmrels a_ojmaps =>
      let r := multirels_get_buffer st.1 dev a_kmrels a_ojmaps in
      Some (r.1.1.2, st.2 ++ r.2)
  | DevSend ev_new =>
      if 0 <? dev_refcnt st.1 dev then
        let r := multirels_send_buffer st.1 dev stream ev_new in
        Some (r.1, st.2 ++ r.2)
      else None
  | DevPut =>
      if 0 <? dev_refcnt st.1 dev then
        let r := multirels_put_buffer st.1 dev in
        Some (r.1, st.2 ++ r.2)
      else None
  end.

Fixpoint dev_run (dev stream : nat) (ops : list dev_op)
    (st : pgstrom_multirels * list cuda_call)
    : option (pgstrom_multirels * list cuda_call) :=
  match ops with
  | [] => Some st
  | op :: ops' =>
      match dev_step dev stream op st with
      | Some st' => dev_run dev stream ops' st'
      | None => None
      end
  end.

(** What holds of the buffer and of the calls made so far on one device. *)
Definition dev_inv (dev : nat) (st : pgstrom_multirels * list cuda_call)
    : Prop :=
  dev_valid st.1 dev /\
  0 <= dev_refcnt st.1 dev /\
  (dev_refcnt st.1 dev = 0 <-> dev_m_kmrels st.1 dev = None) /\
  (dev_m_kmrels st.1 dev = None -> dev_ev_loaded st.1 dev = None) /\
  count_calls is_mirror_alloc st.2 =
    (count_calls is_mirror_free st.2 + held (dev_m_kmrels st.1 dev))%nat /\
  (count_calls is_upload st.2 <=
     count_calls is_mirror_free st.2 + held (dev_ev_loaded st.1 dev))%nat.

End DeviceRuns.

Section DetachVocabulary.
Context `{Env}.

(** The detach asks for the outer-join task. *)
Definition kicks (pm : pgstrom_multirels) (may_kick_outer_join : bool)
    : bool :=
  may_kick_outer_join && (n_attached pm =? 1) && negb (outer_join_kicked pm).

(** The buffer once the outer-join task has been created for it and the
    caller's attachment has been removed. *)
Definition kicked_pmrels (pm : pgstrom_multirels) : pgstrom_multirels :=
  set_attach pm true (n_attached pm + 1 - 1).

End DetachVocabulary.

(** *** Holders of one buffer *)

(** What the holders of the buffer at one address do to it: a task attaches
    (multirels_attach_buffer) or a holder detaches
    (multirels_detach_buffer), with or without permission to start the
    outer-join task. *)
Inductive attach_op :=
| OpAttach
| OpDetach (may_kick_outer_join : bool).

(** A task without outer chunk that starts at the first row of the window
    at [pm_addr]: the outer-join task. *)
Definition sweep_task (pm_addr : nat) (t : pgstrom_gpujoin) : Prop :=
  pmrels t = Some pm_addr /\ pds_src t = None /\ oitems_base t = 0.

Section BufferRuns.
Context `{Env}.

Definition buffer_step (pm_addr : nat) (op : attach_op) (gjs : GpuJoinState)
    : option (result GpuJoinState) :=
  match op with
  | OpAttach =>
      match multirels_heap gjs !! pm_addr with
      | Some pm =>
          Some (OK (set_heap gjs
                      (<[pm_addr := multirels_attach_buffer pm]>
                         (multirels_heap gjs))
                      (next_addr gjs)))
      | None => None
      end
  | OpDetach may_kick =>
      fbind (multirels_detach_buffer gjs pm_addr may_kick)
            (fun '(gjs', _) => Some (OK gjs'))
  end.

Fixpoint buffer_run (pm_addr : nat) (ops : list attach_op)
    (gjs : GpuJoinState) : option (result GpuJoinState) :=
  match ops with
  | [] => Some (OK gjs)
  | op :: ops' =>
      fbind (buffer_step pm_addr op gjs) (buffer_run pm_addr ops')
  end.

(** The tasks queued since the scan state [gjs0] are outer-join tasks of
    the buffer at [pm_addr]: one if the buffer records that its outer join
    has been started, none if it records that it has not, and at most one
    once the buffer is gone. *)
Definition sweep_inv (pm_addr : nat) (gjs0 gjs : GpuJoinState) : Prop :=
  exists new : list pgstrom_gpujoin,
    pending_tasks gjs = pending_tasks gjs0 ++ new /\
    Forall (sweep_task pm_addr) new /\
    match multirels_heap gjs !! pm_addr with
    | Some pm => length new = if outer_join_kicked pm then 1%nat else 0%nat
    | None => (length new <= 1)%nat
    end.

End BufferRuns.

(** *** Order of the kernel launches of one task *)

Definition any_kernel (k : kernel_name) : bool := true.



(** The kernels of the outer-join sweep. *)
Definition is_sweep (k : kernel_name) : bool :=
  match k with
  | gpujoin_outer_nestloop | gpujoin_outer_hashjoin => true
  | _ => false
  end.

Definition is_projection (k : kernel_name) : bool :=
  match k with
  | gpujoin_projection_row | gpujoin_projection_slot => true
  | _ => false
  end.

(** The depths of the launches of the kernels selected by [p], in issue
    order. *)
Definition launch_depths (p : kernel_name -> bool) (log : list cuda_call)
    : list Z :=
  omap (fun c =>
          match c with
          | CuLaunchKernel k d _ => if p k then Some d else None
          | _ => None
          end)
       log.


(** The depths the loop of __gpujoin_task_process goes through. *)
Definition depth_range (gjs : GpuJoinState) : list Z :=
  map (fun k => outer_join_start_depth gjs + Z.of_nat k)
      (seq 0 (Z.to_nat (num_rels gjs + 1 - outer_join_start_depth gjs))).

(** ** Vocabulary of the further properties *)

(** *** The loader *)

(** gpujoin_begin, "usage histgram", for a hash-join depth; [shift] is
    [get_next_log2(nbatches_plan) + 4]. *)
Definition begin_hgram (ist : innerState) (shift : Z) : innerState :=
  let width := wrap32 (Z.shiftl 1 shift) in
  mk_istate (upstream ist) (pds_list ist) (pds_index ist) (pds_limit ist)
            (consumed ist) (ntuples ist) (tupstore ist)
            (depth ist) (join_type ist) (nbatches_exec ist) (nrows_ratio ist)
            (ichunk_size ist) (hash_nslots ist)
            (wrap32 (32 - shift)) width
            (replicate (Z.to_nat width) 0) (replicate (Z.to_nat width) 0)
            (hash_inner_keys ist) (hash_outer_keys ist) (scan_natts ist).

Definition Zsum (l : list Z) : Z := foldr Z.add 0 l.

(** The histogram has one cell per bucket and its buckets tile the 32-bit
    hash space. *)
Definition hgram_ok (ist : innerState) : Prop :=
  0 < hgram_shift ist < 32 /\
  hgram_width ist * 2 ^ hgram_shift ist = 2 ^ 32 /\
  length (hgram_size ist) = Z.to_nat (hgram_width ist) /\
  length (hgram_nitems ist) = Z.to_nat (hgram_width ist).

(** The depth has delivered all its rows and has at least one chunk. *)
Definition depth_loaded (ist : innerState) : Prop :=
  pds_list ist <> [] /\ upstream ist = [].

(** The chunks' recorded ranges run from [lo] on without gap or overlap,
    each up to the bound listed for it, and the next range would start at
    [next]. *)
Fixpoint ranges_chain (lo : Z) (chunks : list pgstrom_data_store)
    (maxes : list Z) (next : Z) : Prop :=
  match chunks, maxes with
  | [], [] => lo = next
  | pds :: chunks', m :: maxes' =>
      k_hash_min (kds pds) = lo /\ k_hash_max (kds pds) = m /\
      ranges_chain (m + 1) chunks' maxes' next
  | _, _ => False
  end.


(** *** The layout of the device mirror *)

(** Offset and length of every host-to-device copy of a log, in issue
    order. *)
Definition copy_ranges (log : list cuda_call) : list (Z * Z) :=
  omap (fun c =>
          match c with
          | CuMemcpyHtoDAsync _ offset len _ => Some (offset, len)
          | _ => None
          end)
       log.

(** The byte ranges lie one after the other: the first starts at [from] or
    later, each starts where the one before ends or later, and the last
    ends at [limit] or before. *)
Fixpoint ranges_packed (from : Z) (ranges : list (Z * Z)) (limit : Z)
    : Prop :=
  match ranges with
  | [] => from <= limit
  | (offset, len) :: ranges' =>
      from <= offset /\ ranges_packed (offset + len) ranges' limit
  end.

(** Where the window places its chunks in the mirror. *)
Definition chunk_ranges (pm : pgstrom_multirels) : list (Z * Z) :=
  map (fun '(pds, c) => (chunk_offset c, k_length (kds pds)))
      (zip (inner_chunks pm) (kern_chunks pm)).

Definition window_layout (pm : pgstrom_multirels) : Prop :=
  length (inner_chunks pm) = length (kern_chunks pm) /\
  ranges_packed (head_length pm) (chunk_ranges pm) (usage_length pm).


(** *** Device memory *)

(** An allocation that returned a pointer. *)
Definition is_alloc (c : cuda_call) : bool :=
  match c with
  | GpuMemAlloc _ _ _ (Some _) => true
  | _ => false
  end.

Definition is_free (c : cuda_call) : bool :=
  match c with
  | GpuMemFree _ _ _ => true
  | _ => false
  end.


(** ** The plan node's private data (form_gpujoin_info,
       deform_gpujoin_info) *)

Module PlanInfo.

(** What a cell of [custom_private] points to: a Value node made by
    makeInteger or makeString, or a list of integers. *)
Inductive PrivNode :=
| T_Integer (ival : Z)
| T_String (sval : string)
| T_IntList (cells : list Z).

(** [(int) intVal(...)]: a C long narrowed to a 32-bit int. *)
Definition long_to_int (v : Z) : Z := (v + 2 ^ 31) mod 2 ^ 32 - 2 ^ 31.

Section Info.
(** A cell of [custom_exprs] (an expression or a list of expressions, or
    NULL) and a C double; double_as_long and long_as_double reinterpret
    the bits of one as the other. *)
Context {Expr double : Type}.
Variable double_as_long : double -> Z.
Variable long_as_double : Z -> double.

Record GpuJoinInfo := mk_info {
  num_rels : Z;
  kern_source : string;
  extra_flags : Z;
  used_params : Expr;
  kresults_ratio : double;
  outer_bulkload : bool;
  bulkload_density : double;
  outer_quals : Expr;
  outer_ratio : double;
  nrows_ratio : list Z;
  ichunk_size : list Z;
  join_types : list Z;
  join_quals : Expr;
  nbatches : list Z;
  hash_inner_keys : Expr;
  hash_outer_keys : Expr;
  hash_nslots : list Z;
  gnl_shmem_xsize : list Z;
  gnl_shmem_ysize : list Z;
  ps_src_depth : list Z;
  ps_src_resno : list Z
}.

Inductive plan_methods := gpujoin_plan_methods | other_plan_methods.

Record CustomScan := mk_cscan {
  methods : plan_methods;
  custom_private : list PrivNode;
  custom_exprs : list Expr
}.

Inductive Plan :=
| T_CustomScan (cscan : CustomScan)
| T_OtherPlan.

Definition form_gpujoin_info (cscan : CustomScan) (gj_info : GpuJoinInfo)
    : CustomScan :=
  let privs :=
    [T_Integer (num_rels gj_info);
     T_String (kern_source gj_info);
     T_Integer (extra_flags gj_info);
     T_Integer (double_as_long (kresults_ratio gj_info));
     T_Integer (if outer_bulkload gj_info then 1 else 0);
     T_Integer (double_as_long (bulkload_density gj_info));
     T_Integer (double_as_long (outer_ratio gj_info));
     T_IntList (nrows_ratio gj_info);
     T_IntList (ichunk_size gj_info);
     T_IntList (join_types gj_info);
     T_IntList (nbatches gj_info);
     T_IntList (hash_nslots gj_info);
     T_IntList (gnl_shmem_xsize gj_info);
     T_IntList (gnl_shmem_ysize gj_info);
     T_IntList (ps_src_depth gj_info);
     T_IntList (ps_src_resno gj_info)] in
  let exprs :=
    [used_params gj_info; outer_quals gj_info; join_quals gj_info;
     hash_inner_keys gj_info; hash_outer_keys gj_info] in
  mk_cscan (methods cscan) privs exprs.

Definition intVal (n : option PrivNode) : option Z :=
  match n with
  | Some (T_Integer v) => Some v
  | _ => None
  end.

Definition strVal (n : option PrivNode) : option string :=
  match n with
  | Some (T_String s) => Some s
  | _ => None
  end.

Definition listVal (n : option PrivNode) : option (list Z) :=
  match n with
  | Some (T_IntList l) => Some l
  | _ => None
  end.

(** deform_gpujoin_info; [None] where a cell is missing or is not the
    node the code reads it as. *)
Definition deform_gpujoin_info (cscan : CustomScan) : option GpuJoinInfo :=
  let privs := custom_private cscan in
  let exprs := custom_exprs cscan in
  v_num_rels ← intVal (privs !! 0%nat);
  v_kern_source ← strVal (privs !! 1%nat);
  v_extra_flags ← intVal (privs !! 2%nat);
  v_used_params ← exprs !! 0%nat;
  v_kresults_ratio ← intVal (privs !! 3%nat);
  v_outer_bulkload ← intVal (privs !! 4%nat);
  v_bulkload_density ← intVal (privs !! 5%nat);
  v_outer_quals ← exprs !! 1%nat;
  v_outer_ratio ← intVal (privs !! 6%nat);
  v_nrows_ratio ← listVal (privs !! 7%nat);
  v_ichunk_size ← listVal (privs !! 8%nat);
  v_join_types ← listVal (privs !! 9%nat);
  v_join_quals ← exprs !! 2%nat;
  v_nbatches ← listVal (privs !! 10%nat);
  v_hash_inner_keys ← exprs !! 3%nat;
  v_hash_outer_keys ← exprs !! 4%nat;
  v_hash_nslots ← listVal (privs !! 11%nat);
  v_gnl_shmem_xsize ← listVal (privs !! 12%nat);
  v_gnl_shmem_ysize ← listVal (privs !! 13%nat);
  v_ps_src_depth ← listVal (privs !! 14%nat);
  v_ps_src_resno ← listVal (privs !! 15%nat);
  Some (mk_info (long_to_int v_num_rels) v_kern_source
                (long_to_int v_extra_flags) v_used_params
                (long_as_double v_kresults_ratio)
                (negb (v_outer_bulkload =? 0))
                (long_as_double v_bulkload_density) v_outer_quals
                (long_as_double v_outer_ratio)
                v_nrows_ratio v_ichunk_size v_join_types v_join_quals
                v_nbatches v_hash_inner_keys v_hash_outer_keys v_hash_nslots
                v_gnl_shmem_xsize v_gnl_shmem_ysize
                v_ps_src_depth v_ps_src_resno).

Definition pgstrom_plan_is_gpujoin (plannode : Plan) : bool :=
  match plannode with
  | T_CustomScan cscan =>
      match methods cscan with
      | gpujoin_plan_methods => true
      | other_plan_methods => false
      end
  | T_OtherPlan => false
  end.

(** pgstrom_plan_is_gpujoin_bulkinput; [None] where deform_gpujoin_info
    has no result. *)
Definition pgstrom_plan_is_gpujoin_bulkinput (plannode : Plan)
    : option bool :=
  if pgstrom_plan_is_gpujoin plannode then
    match plannode with
    | T_CustomScan cscan =>
        gj_info ← deform_gpujoin_info cscan; Some (outer_bulkload gj_info)
    | T_OtherPlan => Some false
    end
  else Some false.

End Info.

End PlanInfo.


(** ** Qualifiers (build_flatten_qualifier) *)

Module Quals.

Inductive BoolExprType := AND_EXPR | OR_EXPR | NOT_EXPR.

#[local] Set Warnings "-register-all".

(** A boolean expression: a BoolExpr node, or any other node, named by a
    number. *)
Inductive Expr :=
| OtherExpr (id : nat)
| BoolExpr (boolop : BoolExprType) (args : list Expr).

(** [foreach (lc, clauses)]; a cell may hold a NULL pointer. *)
Definition flatten_args (clauses : list (option Expr)) : list Expr :=
  fold_left
    (fun args clause =>
       match clause with
       | None => args
       | Some (BoolExpr AND_EXPR sub) => args ++ sub
       | Some expr => args ++ [expr]
       end)
    clauses [].

Definition build_flatten_qualifier (clauses : list (option Expr))
    : option Expr :=
  match flatten_args clauses with
  | [] => None
  | [expr] => Some expr
  | args => Some (BoolExpr AND_EXPR args)
  end.

(** The value of a boolean expression in SQL's three-valued logic, [None]
    being the null value, for given values of the other nodes. *)
Definition and3 (a b : option bool) : option bool :=
  match a, b with
  | Some false, _ | _, Some false => Some false
  | Some true, Some true => Some true
  | _, _ => None
  end.

Definition or3 (a b : option bool) : option bool :=
  match a, b with
  | Some true, _ | _, Some true => Some true
  | Some false, Some false => Some false
  | _, _ => None
  end.

Fixpoint eval (leaf : nat -> option bool) (e : Expr) : option bool :=
  match e with
  | OtherExpr id => leaf id
  | BoolExpr AND_EXPR args =>
      fold_right (fun a acc => and3 (eval leaf a) acc) (Some true) args
  | BoolExpr OR_EXPR args =>
      fold_right (fun a acc => or3 (eval leaf a) acc) (Some false) args
  | BoolExpr NOT_EXPR args =>
      match args with
      | [a] => option_map negb (eval leaf a)
      | _ => None
      end
  end.

(** A qualifier that may be absent; no qualifier lets every row pass. *)
Definition eval_qual (leaf : nat -> option bool) (q : option Expr)
    : option bool :=
  match q with
  | None => Some true
  | Some e => eval leaf e
  end.

End Quals.

(** ** The cheapest usable input path (gpujoin_find_cheapest_path) *)

Module Planner.

Definition Relids := gset nat.

Definition bms_overlap (a b : Relids) : bool := bool_decide (a ∩ b ≠ ∅).

(** A path: a name, the relations it is parameterized by
    ([PATH_REQ_OUTER]) and its total cost. *)
Record Path := mk_path {
  path_id : nat;
  req_outer : Relids;
  total_cost : Q
}.

Record RelOptInfo := mk_rel {
  relids : Relids;
  cheapest_total_path : Path;
  pathlist : list Path
}.

(** [foreach (lc, inputrel->pathlist)]. *)
Fixpoint cheapest_loop (other_relids : Relids) (paths : list Path)
    (input_path : option Path) : option Path :=
  match paths with
  | [] => input_path
  | curr_path :: rest =>
      if bms_overlap (req_outer curr_path) other_relids
      then cheapest_loop other_relids rest input_path
      else
        match input_path with
        | None => cheapest_loop other_relids rest (Some curr_path)
        | Some p =>
            if Qgtb (total_cost p) (total_cost curr_path)
            then cheapest_loop other_relids rest (Some curr_path)
            else cheapest_loop other_relids rest (Some p)
        end
  end.

Definition gpujoin_find_cheapest_path (joinrel inputrel : RelOptInfo)
    : option Path :=
  let input_path := cheapest_total_path inputrel in
  let other_relids := relids joinrel ∖ relids inputrel in
  if bms_overlap (req_outer input_path) other_relids
  then cheapest_loop other_relids (pathlist inputrel) None
  else Some input_path.

(** A hash clause [arg1 op arg2] as create_gpujoin_plan looks at it: the
    two arguments and the relations each refers to (pull_varnos). *)
Record hash_clause (Arg : Type) := mk_clause {
  arg1 : Arg;
  relids1 : Relids;
  arg2 : Arg;
  relids2 : Relids
}.
Arguments mk_clause {Arg}.
Arguments arg1 {Arg}.
Arguments relids1 {Arg}.
Arguments arg2 {Arg}.
Arguments relids2 {Arg}.

Definition bms_is_subset (a b : Relids) : bool := bool_decide (a ⊆ b).

(** [foreach (lc, gpath->inners[i].hash_quals)] of create_gpujoin_plan:
    the inner and the outer hash keys of a depth. *)
Fixpoint split_hash_quals {Arg : Type} (scan_relids : Relids)
    (hash_quals : list (hash_clause Arg)) (hash_inner_keys hash_outer_keys : list Arg)
    : result (list Arg * list Arg) :=
  match hash_quals with
  | [] => OK (hash_inner_keys, hash_outer_keys)
  | c :: rest =>
      if bms_is_subset (relids1 c) scan_relids &&
         negb (bms_is_subset (relids2 c) scan_relids)
      then split_hash_quals scan_relids rest
             (hash_inner_keys ++ [arg1 c]) (hash_outer_keys ++ [arg2 c])
      else if bms_is_subset (relids2 c) scan_relids &&
              negb (bms_is_subset (relids1 c) scan_relids)
      then split_hash_quals scan_relids rest
             (hash_inner_keys ++ [arg2 c]) (hash_outer_keys ++ [arg1 c])
      else ERROR "Bug? hash-clause reference bogus varnos"
  end.

End Planner.


(** ** The pseudo-scan target list (build_pseudo_targetlist,
       fixup_varnode_to_origin) *)

Module Tlist.

Definition INNER_VAR : Z := 65000.
Definition INDEX_VAR : Z := 65002.

(** The fields of a Var node that [equal()] compares. *)
Record Var := mk_var {
  varno : Z;
  varattno : Z;
  vartype : Z;
  vartypmod : Z;
  varcollid : Z;
  varlevelsup : Z;
  varnoold : Z;
  varoattno : Z
}.

Definition equal (a b : Var) : bool :=
  (varno a =? varno b) && (varattno a =? varattno b) &&
  (vartype a =? vartype b) && (vartypmod a =? vartypmod b) &&
  (varcollid a =? varcollid b) && (varlevelsup a =? varlevelsup b) &&
  (varnoold a =? varnoold b) && (varoattno a =? varoattno b).

#[local] Set Warnings "-register-all".

(** An expression tree: a Var, or any other node with the sub-nodes
    expression_tree_walker and expression_tree_mutator visit, in their
    order; a NULL pointer is a node without sub-nodes. *)
Inductive Node :=
| T_Var (v : Var)
| T_Node (children : list Node).

Record TargetEntry := mk_tle {
  expr : Node;
  resno : Z;
  resjunk : bool
}.

Record build_ps_tlist_context := mk_context {
  ps_tlist : list TargetEntry;
  ps_depth : list Z;
  ps_resno : list Z;
  ctx_resjunk : bool
}.

(** The relations GpuJoin joins, the outer one first: the relids of each
    ([gpath->outer_path->parent], [gpath->inners[i-1].scan_path->parent])
    and the target list of its plan ([custom_plans]). *)
Definition sources := list (gset Z * list TargetEntry).

(** [foreach (cell, context->ps_tlist)]: the Var is in the list already. *)
Definition in_ps_tlist (varnode : Var) (tlist : list TargetEntry) : bool :=
  existsb (fun tle =>
             match expr tle with
             | T_Var ps_node =>
                 (varno ps_node =? varno varnode) &&
                 (varattno ps_node =? varattno varnode) &&
                 (varlevelsup ps_node =? varlevelsup varnode)
             | T_Node _ => false
             end)
          tlist.

(** [foreach (cell, plan->targetlist)]: the resno of the first entry equal
    to the Var. *)
Fixpoint find_in_plan (varnode : Var) (targetlist : list TargetEntry)
    : result (option Z) :=
  match targetlist with
  | [] => OK None
  | tle :: rest =>
      match expr tle with
      | T_Var v =>
          if equal varnode v then OK (Some (resno tle))
          else find_in_plan varnode rest
      | T_Node _ => ERROR "Bug? unexpected node in tlist"
      end
  end.

(** [for (i=0; i <= gpath->num_rels; i++)], entered at [i]: depth and
    resno of the Var's origin. *)
Fixpoint find_source (varnode : Var) (i : Z) (srcs : sources)
    : result (option (Z * Z)) :=
  match srcs with
  | [] => OK None
  | (relids, targetlist) :: rest =>
      if bool_decide (varno varnode ∈ relids) then
        do r <- find_in_plan varnode targetlist;
        OK (option_map (fun n => (i, n)) r)
      else find_source varnode (i + 1) rest
  end.

Definition walk_var (srcs : sources) (varnode : Var)
    (context : build_ps_tlist_context) : result build_ps_tlist_context :=
  if in_ps_tlist varnode (ps_tlist context) then OK context
  else
    do r <- find_source varnode 0 srcs;
    match r with
    | Some (i, n) =>
        OK (mk_context
              (ps_tlist context ++
               [mk_tle (T_Var varnode)
                       (Z.of_nat (length (ps_tlist context)) + 1)
                       (ctx_resjunk context)])
              (ps_depth context ++ [i])
              (ps_resno context ++ [n])
              (ctx_resjunk context))
    | None => ERROR "Bug? uncertain origin of Var-node"
    end.

Fixpoint build_pseudo_targetlist_walker (srcs : sources) (node : Node)
    (context : build_ps_tlist_context) : result build_ps_tlist_context :=
  match node with
  | T_Var varnode => walk_var srcs varnode context
  | T_Node children =>
      (fix walk_children (l : list Node) (c : build_ps_tlist_context)
         : result build_ps_tlist_context :=
         match l with
         | [] => OK c
         | n :: l' =>
             do c' <- build_pseudo_targetlist_walker srcs n c;
             walk_children l' c'
         end) children context
  end.

Definition set_resjunk (context : build_ps_tlist_context) (b : bool)
    : build_ps_tlist_context :=
  mk_context (ps_tlist context) (ps_depth context) (ps_resno context) b.

(** build_pseudo_targetlist: the target list and the lists it stores in
    [gj_info->ps_src_depth] and [gj_info->ps_src_resno]. *)
Definition build_pseudo_targetlist (srcs : sources)
    (targetlist host_quals hash_outer_keys join_quals outer_quals : Node)
    : result (list TargetEntry * list Z * list Z) :=
  let c0 := mk_context [] [] [] false in
  do c1 <- build_pseudo_targetlist_walker srcs targetlist c0;
  do c2 <- build_pseudo_targetlist_walker srcs host_quals c1;
  let c2' := set_resjunk c2 true in
  do c3 <- build_pseudo_targetlist_walker srcs hash_outer_keys c2';
  do c4 <- build_pseudo_targetlist_walker srcs join_quals c3;
  do c5 <- build_pseudo_targetlist_walker srcs outer_quals c4;
  OK (ps_tlist c5, ps_depth c5, ps_resno c5).

(** fixup_varnode_to_origin_mutator; [None] where list_nth_int is given
    an index outside the list. *)
Fixpoint fixup_varnode_to_origin_mutator (depth : Z)
    (ps_src_depth ps_src_resno : list Z) (node : Node)
    : option (result Node) :=
  match node with
  | T_Var varnode =>
      if varattno varnode - 1 <? 0 then None else
      match ps_src_depth !! Z.to_nat (varattno varnode - 1) with
      | None => None
      | Some src_depth =>
          if src_depth =? depth then
            match ps_src_resno !! Z.to_nat (varattno varnode - 1) with
            | None => None
            | Some n =>
                Some (OK (T_Var (mk_var INNER_VAR n (vartype varnode)
                                        (vartypmod varnode)
                                        (varcollid varnode)
                                        (varlevelsup varnode)
                                        (varnoold varnode)
                                        (varoattno varnode))))
            end
          else if src_depth >? depth then
            Some (ERROR "Expression reference deeper than current depth")
          else Some (OK (T_Var varnode))
      end
  | T_Node children =>
      fbind
        ((fix mutate_children (l : list Node) : option (result (list Node)) :=
            match l with
            | [] => Some (OK [])
            | n :: l' =>
                fbind (fixup_varnode_to_origin_mutator depth ps_src_depth
                         ps_src_resno n)
                      (fun n' =>
                fbind (mutate_children l')
                      (fun l'' => Some (OK (n' :: l''))))
            end) children)
        (fun children' => Some (OK (T_Node children')))
  end.

End Tlist.

(** ** The completion callback (gpujoin_task_respond) *)

Definition CUDA_SUCCESS : Z := 0.
Definition CUDA_ERROR_INVALID_CONTEXT : Z := 201.

(** The task lists of the GpuTaskState the callback works on. *)
Record task_lists := mk_lists {
  running_tasks : list pgstrom_gpujoin;
  num_running_tasks : Z;
  completed_tasks : list pgstrom_gpujoin;
  num_completed_tasks : Z
}.

(** [task.kerror.errcode] with the value the callback stores. *)
Definition set_errcode (t : pgstrom_gpujoin) (e : StromError)
    : pgstrom_gpujoin :=
  mk_gpujoin (task_addr t) e (cuda_index t) (cuda_stream t)
             (m_kgjoin t) (task_m_kmrels t) (task_m_ojmaps t)
             (oitems_base t) (oitems_nums t) (pmrels t) (pds_src t)
             (pds_dst t) (kern t).

(** gpujoin_task_respond for the task [pgjoin], which is on the list of
    running tasks; [dlist_delete] takes it off that list. *)
Definition gpujoin_task_respond (status : Z) (IsTransactionState : bool)
    (pgjoin : pgstrom_gpujoin) (gts : task_lists) : task_lists :=
  if (status =? CUDA_ERROR_INVALID_CONTEXT) || negb IsTransactionState
  then gts
  else
    let pgjoin' :=
      set_errcode pgjoin
        (if status =? CUDA_SUCCESS then kg_kerror (kern pgjoin)
         else StromError_Other status) in
    let running :=
      List.filter (fun t => negb (task_addr t =? task_addr pgjoin)%nat)
                  (running_tasks gts) in
    match task_errcode pgjoin' with
    | StromError_Success =>
        mk_lists running (num_running_tasks gts - 1)
                 (completed_tasks gts ++ [pgjoin'])
                 (num_completed_tasks gts + 1)
    | _ =>
        mk_lists running (num_running_tasks gts - 1)
                 (pgjoin' :: completed_tasks gts)
                 (num_completed_tasks gts + 1)
    end.

(** ** The depth the outer-join pass starts at (gpujoin_begin) *)

Definition is_right_or_full (jt : JoinType) : bool :=
  match jt with
  | JOIN_RIGHT | JOIN_FULL => true
  | _ => false
  end.

(** [for (i=0; i < gj_info->num_rels; i++)] of gpujoin_begin, entered at
    [i] with the given value of the local [outer_join_start_depth]. *)
Fixpoint begin_start_depth (join_types : list JoinType) (i : Z)
    (outer_join_start_depth : Z) : Z :=
  match join_types with
  | [] => outer_join_start_depth
  | jt :: rest =>
      begin_start_depth rest (i + 1)
        (if (outer_join_start_depth <? 0) && is_right_or_full jt
         then i + 1 else outer_join_start_depth)
  end.

(** [gjs->outer_join_start_depth = Max(outer_join_start_depth, 1)]. *)
Definition begin_outer_join_start_depth (join_types : list JoinType) : Z :=
  Max (begin_start_depth join_types 0 (-1)) 1.


(** *** Vocabulary for the pseudo-scan target list *)

(** What the search in the pseudo-scan target list compares. *)
Definition var_key (v : Tlist.Var) : Z * Z * Z :=
  (Tlist.varno v, Tlist.varattno v, Tlist.varlevelsup v).

Definition tle_key (tle : Tlist.TargetEntry) : option (Z * Z * Z) :=
  match Tlist.expr tle with
  | Tlist.T_Var v => Some (var_key v)
  | Tlist.T_Node _ => None
  end.

(** The Vars of an expression tree, in the walker's order. *)
Fixpoint vars_of (node : Tlist.Node) : list Tlist.Var :=
  match node with
  | Tlist.T_Var v => [v]
  | Tlist.T_Node children =>
      (fix vars_of_list (l : list Tlist.Node) : list Tlist.Var :=
         match l with
         | [] => []
         | n :: l' => vars_of n ++ vars_of_list l'
         end) children
  end.

(** The entry holds a Var that is column [n] of the plan of relation [i],
    a relation the Var belongs to. *)
Definition ps_origin (srcs : Tlist.sources) (tle : Tlist.TargetEntry)
    (i n : Z) : Prop :=
  exists v relids targetlist src_tle,
    Tlist.expr tle = Tlist.T_Var v /\
    0 <= i /\
    srcs !! Z.to_nat i = Some (relids, targetlist) /\
    Tlist.varno v ∈ relids /\
    In src_tle targetlist /\
    Tlist.expr src_tle = Tlist.T_Var v /\
    Tlist.resno src_tle = n.

(** The three lists go together: same length, entries numbered from 1 in
    list order, each with its origin, and no Var twice. *)
Definition ps_lists_ok (srcs : Tlist.sources)
    (tlist : list Tlist.TargetEntry) (depths resnos : list Z) : Prop :=
  length depths = length tlist /\
  length resnos = length tlist /\
  (forall k tle,
     tlist !! k = Some tle ->
     Tlist.resno tle = Z.of_nat k + 1 /\
     exists i n,
       depths !! k = Some i /\ resnos !! k = Some n /\
       ps_origin srcs tle i n) /\
  List.NoDup (map tle_key tlist).


(** Callbacks arriving one after the other: the CUDA status, whether a
    transaction is in progress, and the task. *)
Definition respond_all (events : list (Z * bool * pgstrom_gpujoin))
    (gts : task_lists) : task_lists :=
  fold_left (fun g '(status, in_xact, pgjoin) =>
               gpujoin_task_respond status in_xact pgjoin g)
            events gts.


(** ** Sample plans *)

Module SamplePlan.

(** A double as its 64 bits; a long is the same bits read as a signed
    number. *)
Definition double_as_long (bits : Z) : Z :=
  if bits <? 2 ^ 63 then bits else bits - 2 ^ 64.

Definition long_as_double (l : Z) : Z := l mod 2 ^ 64.

(** The private data of a plan of two depths, a hash join and a
    nest-loop; expressions are named by numbers, the doubles are 1.0,
    -1.0 and 0.5. *)
Definition info : PlanInfo.GpuJoinInfo (Expr := nat) (double := Z) :=
  PlanInfo.mk_info 2 "kernel" 5 1%nat 4607182418800017408 true
                   13830554455654793216 2%nat 4602678819172646912
                   [10; 20] [4096; 8192] [0; 2] 3%nat [1; 1] 4%nat 5%nat
                   [16; 0] [0; 32] [0; 8] [0; 1; 0] [1; 1; 2].

Definition var (varno varattno : Z) : Tlist.Var :=
  Tlist.mk_var varno varattno 23 (-1) 0 0 varno varattno.

(** An outer relation 1 with two columns and an inner relation 2 with
    one. *)
Definition srcs : Tlist.sources :=
  [({[1]}, [Tlist.mk_tle (Tlist.T_Var (var 1 1)) 1 false;
            Tlist.mk_tle (Tlist.T_Var (var 1 2)) 2 false]);
   ({[2]}, [Tlist.mk_tle (Tlist.T_Var (var 2 1)) 1 false])].

Definition targetlist : Tlist.Node :=
  Tlist.T_Node [Tlist.T_Var (var 1 1); Tlist.T_Var (var 2 1)].

Definition no_quals : Tlist.Node := Tlist.T_Node [].

Definition hash_outer_keys : Tlist.Node :=
  Tlist.T_Node [Tlist.T_Node [Tlist.T_Var (var 1 2)]].

Definition join_quals : Tlist.Node :=
  Tlist.T_Node [Tlist.T_Node [Tlist.T_Var (var 1 2); Tlist.T_Var (var 2 1)]].

(** The pseudo-scan target list of the above. *)
Definition ps_tlist : list Tlist.TargetEntry :=
  [Tlist.mk_tle (Tlist.T_Var (var 1 1)) 1 false;
   Tlist.mk_tle (Tlist.T_Var (var 2 1)) 2 false;
   Tlist.mk_tle (Tlist.T_Var (var 1 2)) 3 true].

End SamplePlan.


(** * Properties *)

(** ** Histogram repartitioning *)

Section LoaderFacts.
Context `{Env}.

Lemma ts_loop_from_app (ist : innerState) (pre rest : list (Z * Z)) :
  forall (i : Z) (st : ts_loop),
    ts_loop_from ist i (pre ++ rest) st =
    do st' <- ts_loop_from ist i pre st;
    ts_loop_from ist (i + Z.of_nat (length pre)) rest st'.
Proof.
  induction pre as [|[sz ni] pre IH]; intros i st.
  - simpl. f_equal. lia.
  - change (length ((sz, ni) :: pre)) with (S (length pre)).
    rewrite Nat2Z.inj_succ.
    replace (i + Z.succ (Z.of_nat (length pre)))
      with (i + 1 + Z.of_nat (length pre)) by lia.
    simpl.
    destruct (ts_step ist i sz ni st) as [st1|msg]; simpl; [|reflexivity].
    apply IH.
Qed.

Lemma ts_step_skew (ist : innerState) (i size nitems : Z) (st : ts_loop) :
  ts_curr_size st = 0 ->
  size > pds_limit ist ->
  ts_step ist i size nitems st = ERROR "Too extreme hash-key distribution".
Proof.
  intros Hzero Hbig. unfold ts_step, ts_cut. rewrite Hzero. rewrite Z.add_0_l, Z.eqb_refl.
  destruct (Z.gtb_spec size (pds_limit ist)) as [_|Hle]; [reflexivity|lia].
Qed.

(** If, when the greedy pass reaches a histogram bucket, nothing has been
    accumulated since the last cut (the accumulated size is zero) and that
    bucket alone exceeds the per-relation budget, the partitioning stops
    with the error "Too extreme hash-key distribution"; the loader's
    end-of-input call that started it returns that error, and no chunk list
    is produced. *)
Lemma skewed_bucket_is_fatal
    (ist : innerState) (pre post : list (Z * Z)) (size nitems : Z)
    (st : ts_loop) (rows : list HeapTuple) (fuel : nat) (total_usage : Z) :
  hgram_buckets ist = pre ++ (size, nitems) :: post ->
  ts_loop_from ist 0 pre ts_init = OK st ->
  ts_curr_size st = 0 ->
  size > pds_limit ist ->
  tupstore ist = Some rows ->
  upstream ist = [] ->
  ts_partition ist = ERROR "Too extreme hash-key distribution" /\
  gpujoin_inner_hash_preload_TS ist rows =
    ERROR "Too extreme hash-key distribution" /\
  gpujoin_inner_hash_preload fuel ist total_usage =
    Some (ERROR "Too extreme hash-key distribution") /\
  (hash_inner_keys ist = true ->
   preload_one fuel ist total_usage =
     Some (ERROR "Too extreme hash-key distribution")).
Proof.
  intros Hbuckets Hpre Hzero Hbig Hts Hup.
  assert (Hpart : ts_partition ist = ERROR "Too extreme hash-key distribution").
  { unfold ts_partition. rewrite Hbuckets, ts_loop_from_app, Hpre. simpl.
    rewrite (ts_step_skew ist _ size nitems st Hzero Hbig). reflexivity. }
  assert (HTS : gpujoin_inner_hash_preload_TS ist rows =
                ERROR "Too extreme hash-key distribution").
  { unfold gpujoin_inner_hash_preload_TS. rewrite Hpart. reflexivity. }
  assert (Hcall : gpujoin_inner_hash_preload fuel ist total_usage =
                  Some (ERROR "Too extreme hash-key distribution")).
  { unfold gpujoin_inner_hash_preload. rewrite Hup, Hts, HTS. reflexivity. }
  repeat split; try assumption.
  intros Hhash. unfold preload_one. rewrite Hhash. exact Hcall.
Qed.

(** *** The ranges cut from the histogram *)

Lemma wrap32_small (z : Z) : 0 <= z < 2 ^ 32 -> wrap32 z = z.
Proof. intros Hz. unfold wrap32. apply Z.mod_small. exact Hz. Qed.

Lemma ts_step_maxes (ist : innerState) (i sz ni : Z) (st st1 : ts_loop) :
  ts_step ist i sz ni st = OK st1 ->
  exists l, ts_hash_max_list st1 = ts_hash_max_list st ++ l.
Proof.
  unfold ts_step, ts_cut. intros Hstep.
  destruct (ts_curr_size st + sz >? pds_limit ist).
  - destruct (ts_curr_size st =? 0); simpl in Hstep; [discriminate|].
    injection Hstep as <-. simpl. eexists. reflexivity.
  - simpl in Hstep. injection Hstep as <-. simpl. exists [].
    symmetry. apply app_nil_r.
Qed.

Lemma ts_loop_from_maxes (ist : innerState) (bs : list (Z * Z)) :
  forall (i : Z) (st st' : ts_loop),
    ts_loop_from ist i bs st = OK st' ->
    exists l, ts_hash_max_list st' = ts_hash_max_list st ++ l.
Proof.
  induction bs as [|[sz ni] bs IH]; intros i st st' Hloop; simpl in Hloop.
  - injection Hloop as <-. exists []. symmetry. apply app_nil_r.
  - destruct (ts_step ist i sz ni st) as [st1|msg] eqn:Hstep;
      simpl in Hloop; [|discriminate].
    destruct (ts_step_maxes _ _ _ _ _ _ Hstep) as [l1 Hl1].
    destruct (IH _ _ _ Hloop) as [l2 Hl2].
    exists (l1 ++ l2). rewrite Hl2, Hl1. symmetry. apply app_assoc.
Qed.






(** *** Reaching the byte budget in gpujoin_inner_hash_preload *)







End LoaderFacts.


(** ** Instances on the sample platform: the loader *)

(** Closed comparisons of integers are settled by evaluation. *)
Ltac by_eval :=
  vm_compute;
  repeat match goal with |- _ /\ _ => split end;
  first [reflexivity | discriminate].

(** A hypothesis that evaluates to an equation between distinct
    constructors is absurd. *)
Ltac absurd_eval H :=
  exfalso; clear -H; revert H; vm_compute; discriminate.

Section LoaderInstances.
#[local] Existing Instance Sample.env.

Lemma skewed_bucket_is_fatal_instance :
  ts_partition (Sample.spilled 100) =
    ERROR "Too extreme hash-key distribution" /\
  gpujoin_inner_hash_preload 1 (Sample.spilled 100) 0 =
    Some (ERROR "Too extreme hash-key distribution").
Proof.
  destruct (skewed_bucket_is_fatal (Sample.spilled 100)
              [] (skipn 1 (hgram_buckets (Sample.spilled 100))) 124 1
              ts_init
              [Sample.row 100 7; Sample.row 100 (2 ^ 28 + 1);
               Sample.row 100 (2 ^ 29); Sample.row 100 (2 ^ 31)]
              1 0)
    as (Hpart & _ & Hcall & _).
  - reflexivity.
  - reflexivity.
  - reflexivity.
  - reflexivity.
  - reflexivity.
  - reflexivity.
  - split; [exact Hpart|exact Hcall].
Defined.

(** C9.  One iteration of the greedy pass stops with "Too extreme
    hash-key distribution" exactly when nothing is accumulated and the
    bucket alone exceeds the budget.  A bucket that exceeds the budget
    behind a filled one is therefore not reported: for a depth with 124
    bytes in bucket 0, 992 bytes in bucket 1 and a budget of 200 bytes the
    pass cuts three chunks, the second of 1104 bytes, the first with a
    hash range that takes in bucket 1 although it is sized for bucket 0
    alone, and the loader's end-of-input call stops with "Bug? GpuHashJoin
    Histgram was not correct" when the rows of bucket 1 arrive. *)
Theorem C9_oversized_bucket_behind_a_filled_one_is_not_reported :
  (forall (env : Env) (ist : innerState) (i size nitems : Z) (st : ts_loop)
          (msg : string),
     @ts_step env ist i size nitems st = ERROR msg <->
     ts_curr_size st = 0 /\ size > pds_limit ist /\
     msg = "Too extreme hash-key distribution"%string) /\
  hgram_buckets (Sample.second_bucket_heavy 200) =
    (124, 1) :: (992, 8) :: replicate 14 (0, 0) /\
  (exists st,
     ts_partition (Sample.second_bucket_heavy 200) = OK st /\
     map (fun pds => (k_hash_min (kds pds), k_hash_max (kds pds),
                      k_length (kds pds)))
         (ts_pds_list st) =
       [(0, 2 * 2 ^ 28 - 1, 220);
        (2 * 2 ^ 28, 3 * 2 ^ 28 - 1, 1104);
        (3 * 2 ^ 28, UINT_MAX, 720)]) /\
  gpujoin_inner_hash_preload 1 (Sample.second_bucket_heavy 200) 0 =
    Some (ERROR "Bug? GpuHashJoin Histgram was not correct").
Proof.
  split; [|split; [|split]].
  - intros env ist i size nitems st msg. unfold ts_step, ts_cut.
    destruct (Z.gtb_spec (ts_curr_size st + size) (pds_limit ist))
      as [Hover|Hfit]; simpl.
    + destruct (Z.eqb_spec (ts_curr_size st) 0) as [Hzero|Hsome]; simpl.
      * split.
        -- intros Herr. injection Herr as <-.
           repeat split; [exact Hzero|lia].
        -- intros (_ & _ & ->). reflexivity.
      * split; [discriminate|]. intros (Hzero & _). contradiction.
    + split; [discriminate|]. intros (Hzero & Hbig & _). lia.
  - reflexivity.
  - eexists. split; vm_compute; reflexivity.
  - vm_compute. reflexivity.
Qed.



End LoaderInstances.


(** ** The enumeration of windows *)

Section SchedulerInstances.
#[local] Existing Instance Sample.env.

(** C1.  The code at a scan of one depth whose six rows were loaded into
    three chunks, the outer relation being one chunk of two rows: the outer
    chunk is paired three times, each time with the first chunk; the second
    and third chunk are paired with nothing.  With two depths of two chunks
    each the odometer goes from (1,1) to (1,2) and then stays there. *)
Theorem C1_every_window_is_the_first_chunk :
  loaded_rows 10 Sample.one_depth_scan =
    Some [[[Sample.row 100 1; Sample.row 100 2; Sample.row 100 3];
           [Sample.row 100 4; Sample.row 100 5];
           [Sample.row 100 6]]] /\
  scan_rows 10 10 Sample.one_depth_scan =
    Some ([([Sample.row 8 21; Sample.row 8 22],
            [[Sample.row 100 1; Sample.row 100 2; Sample.row 100 3]]);
           ([Sample.row 8 21; Sample.row 8 22],
            [[Sample.row 100 1; Sample.row 100 2; Sample.row 100 3]]);
           ([Sample.row 8 21; Sample.row 8 22],
            [[Sample.row 100 1; Sample.row 100 2; Sample.row 100 3]])],
          true) /\
  odometer_trace 4 2 [Sample.loaded_depth 1 JOIN_INNER 2;
                      Sample.loaded_depth 2 JOIN_INNER 2] =
    [Some [1; 2]; Some [1; 2]; Some [1; 2]; Some [1; 2]].
Proof.
  split; [vm_compute; reflexivity|].
  split; vm_compute; reflexivity.
Qed.

End SchedulerInstances.

(** ** Result-buffer sizing *)

Section SizingFacts.
Context `{Env}.

Lemma QMax_ge_l (x y : Q) : (x <= QMax x y)%Q.
Proof.
  unfold QMax, Qgtb. destruct (Qle_bool x y) eqn:Hle; simpl.
  - apply Qle_bool_iff. exact Hle.
  - apply Qle_refl.
Qed.

Lemma QMax_ge_r (x y : Q) : (y <= QMax x y)%Q.
Proof.
  unfold QMax, Qgtb. destruct (Qle_bool x y) eqn:Hle; simpl.
  - apply Qle_refl.
  - apply Qlt_le_weak. apply Qnot_le_lt. intros Habs.
    apply Qle_bool_iff in Habs. congruence.
Qed.

(** C7.  When the task already has a destination buffer, the two ratios the
    sizing goes on with are the larger of the fresh prediction and of what
    the previous attempt reached ([kresults_max_items] and the destination's
    row count, each over the rows admitted to that attempt); the number of
    outer rows considered is that of the fresh prediction. *)
Theorem C7_retry_ratios_never_shrink
    (gjs : GpuJoinState) (pm : pgstrom_multirels) (pgjoin : pgstrom_gpujoin)
    (dst : pgstrom_data_store) :
  pds_dst pgjoin = Some dst ->
  let fresh := fresh_estimate gjs pm pgjoin in
  let e := retry_estimate gjs pm pgjoin in
  (to_double (kresults_max_items (kern pgjoin)) /
   to_double (oitems_nums pgjoin) <= est_kresults_ratio e)%Q /\
  (to_double (k_nitems (kds dst)) /
   to_double (oitems_nums pgjoin) <= est_dst_nrows_ratio e)%Q /\
  (est_kresults_ratio fresh <= est_kresults_ratio e)%Q /\
  (est_dst_nrows_ratio fresh <= est_dst_nrows_ratio e)%Q /\
  est_oitems_nums e = est_oitems_nums fresh.
Proof.
  intros Hdst fresh e. subst fresh e. unfold retry_estimate. rewrite Hdst.
  simpl. repeat split.
  - apply QMax_ge_r.
  - apply QMax_ge_r.
  - apply QMax_ge_l.
  - apply QMax_ge_l.
Qed.

Lemma scale_oitems_floor (n r t : Z) :
  0 <= n < 2 ^ 32 ->
  0 <= r <= t ->
  0 < t ->
  scale_oitems n r t = n * r / t.
Proof.
  intros Hn Hr Ht.
  destruct t as [|p|p]; try lia.
  unfold scale_oitems, to_double, trunc, inject_Z. simpl.
  change (1 * 1 * p)%positive with p. rewrite Z.mul_1_r.
  assert (Hquot : n * r ÷ Z.pos p = n * r / Z.pos p).
  { apply Z.quot_div_nonneg; nia. }
  rewrite Hquot. apply wrap32_small.
  split.
  - apply Z.div_pos; nia.
  - apply Z.le_lt_trans with n; [|lia].
    apply Z.div_le_upper_bound; nia.
Qed.

Lemma cap_result_buffer_capped (gjs : GpuJoinState) (e : estimate) :
  kgjoin_length gjs (estimated_total_items e) > pgstrom_chunk_size ->
  cap_result_buffer gjs e =
  if capped_oitems gjs e <? 1 then ERROR "Kresults growth ratio too large"
  else OK (capped_oitems gjs e, reduced_items gjs).
Proof.
  intros Hbig. unfold cap_result_buffer, capped_oitems.
  destruct (Z.gtb_spec (kgjoin_length gjs (estimated_total_items e))
                       pgstrom_chunk_size) as [_|Hn]; [reflexivity|lia].
Qed.

Lemma size_dst_row_OK (gjs : GpuJoinState) (pgjoin : pgstrom_gpujoin)
    (n rn n' : Z) (dst' : pgstrom_data_store) :
  size_dst_row gjs pgjoin n rn = OK (n', dst') ->
  n' = n /\
  (forall dst, pds_dst pgjoin = Some dst ->
     exists len nrooms, dst' = reset_dst dst len nrooms).
Proof.
  unfold size_dst_row. intros Hok.
  destruct (pds_dst pgjoin) as [dst|].
  - destruct (k_nitems (kds dst) =? 0); simpl in Hok; [discriminate|].
    repeat match type of Hok with
           | context [if ?b then _ else _] => destruct b; simpl in Hok
           end; try discriminate;
      injection Hok as <- <-; (split; [reflexivity|]);
      intros dst0 Hdst0; injection Hdst0 as <-; eauto.
  - simpl in Hok.
    repeat match type of Hok with
           | context [if ?b then _ else _] => destruct b; simpl in Hok
           end; try discriminate;
      injection Hok as <- <-; (split; [reflexivity|]);
      intros dst0 Hdst0; discriminate.
Qed.

Lemma size_dst_slot_OK (gjs : GpuJoinState) (pgjoin : pgstrom_gpujoin)
    (n rn n' : Z) (dst' : pgstrom_data_store) :
  size_dst_slot gjs pgjoin n rn = OK (n', dst') ->
  (1 <= n -> 1 <= n') /\
  (forall dst, pds_dst pgjoin = Some dst ->
     exists len nrooms, dst' = reset_dst dst len nrooms).
Proof.
  unfold size_dst_slot. intros Hok.
  destruct (scan_tupdesc_natts gjs =? 0); simpl in Hok.
  - injection Hok as <- <-. split; [tauto|].
    intros dst Hdst. rewrite Hdst. eauto.
  - match type of Hok with
    | context [if ?b then _ else _] => destruct b; simpl in Hok
    end.
    { injection Hok as <- <-. split; [tauto|].
      intros dst Hdst. rewrite Hdst. eauto. }
    match type of Hok with
    | context [if ?b then _ else _] => destruct b; simpl in Hok
    end.
    + match type of Hok with
      | context [if ?b then _ else _] => destruct b eqn:Hlt; simpl in Hok
      end; [discriminate|].
      injection Hok as <- <-. apply Z.ltb_ge in Hlt. split; [intros _; exact Hlt|].
      intros dst Hdst. rewrite Hdst. eauto.
    + injection Hok as <- <-. split; [tauto|].
      intros dst Hdst. rewrite Hdst. eauto.
Qed.

(** What a successful sizing leaves in the task. *)
Lemma attach_result_buffer_OK (gjs : GpuJoinState) (pm : pgstrom_multirels)
    (pgjoin t' : pgstrom_gpujoin) :
  gpujoin_attach_result_buffer gjs pm pgjoin = OK t' ->
  exists (n total_items : Z) (dst' : pgstrom_data_store),
    cap_result_buffer gjs (retry_estimate gjs pm pgjoin) = OK (n, total_items) /\
    task_addr t' = task_addr pgjoin /\
    task_errcode t' = task_errcode pgjoin /\
    oitems_base t' = oitems_base pgjoin /\
    pmrels t' = pmrels pgjoin /\
    pds_src t' = pds_src pgjoin /\
    pds_dst t' = Some dst' /\
    kresults_total_items (kern t') = total_items /\
    kresults_max_items (kern t') = 0 /\
    kg_kerror (kern t') = StromError_Success /\
    kresults_in (kern t') = mk_kresultbuf 1 total_items 0 /\
    (result_format gjs = KDS_FORMAT_ROW -> oitems_nums t' = n) /\
    (1 <= n -> 1 <= oitems_nums t') /\
    (forall dst, pds_dst pgjoin = Some dst ->
       exists len nrooms, dst' = reset_dst dst len nrooms).
Proof.
  unfold gpujoin_attach_result_buffer. intros Hok.
  destruct (cap_result_buffer gjs (retry_estimate gjs pm pgjoin))
    as [[n total_items]|msg] eqn:Hcap; simpl in Hok; [|discriminate].
  destruct (result_format gjs) eqn:Hfmt; simpl in Hok; try discriminate.
  - destruct (size_dst_row gjs pgjoin n _) as [[n' dst']|msg] eqn:Hsz;
      simpl in Hok; [|discriminate].
    injection Hok as <-. apply size_dst_row_OK in Hsz as [-> Hreset].
    exists n, total_items, dst'. simpl. repeat split; auto.
  - destruct (size_dst_slot gjs pgjoin n _) as [[n' dst']|msg] eqn:Hsz;
      simpl in Hok; [|discriminate].
    injection Hok as <-. apply size_dst_slot_OK in Hsz as [Hge Hreset].
    exists n, total_items, dst'. simpl. repeat split; auto. discriminate.
Qed.

(** The destination store a retry starts from is empty and not smaller
    than the one the failed attempt wrote to. *)
Lemma reset_dst_empty (dst : pgstrom_data_store) (len nrooms : Z) :
  k_nitems (kds (reset_dst dst len nrooms)) = 0 /\
  k_usage (kds (reset_dst dst len nrooms)) = 0 /\
  pds_items (reset_dst dst len nrooms) = [] /\
  k_length (kds dst) <= k_length (kds (reset_dst dst len nrooms)).
Proof.
  unfold reset_dst.
  destruct (Z.leb_spec len (k_length (kds dst))); simpl;
    repeat split; lia.
Qed.

(** A task without a destination buffer fails to be sized only because not
    even one outer row can be admitted. *)
Lemma attach_result_buffer_ERROR (gjs : GpuJoinState) (pm : pgstrom_multirels)
    (pgjoin : pgstrom_gpujoin) (msg : string) :
  pds_dst pgjoin = None ->
  result_format gjs <> KDS_FORMAT_HASH ->
  gpujoin_attach_result_buffer gjs pm pgjoin = ERROR msg ->
  msg = "Kresults growth ratio too large"%string \/
  msg = "Too much growth of results tuples"%string.
Proof.
  unfold gpujoin_attach_result_buffer. intros Hdst Hfmt Herr.
  destruct (cap_result_buffer gjs (retry_estimate gjs pm pgjoin))
    as [[n total_items]|msg0] eqn:Hcap; simpl in Herr.
  - right.
    destruct (result_format gjs); simpl in Herr; [| |congruence].
    + unfold size_dst_row in Herr. rewrite Hdst in Herr. simpl in Herr.
      repeat match type of Herr with
             | context [if ?b then _ else _] => destruct b; simpl in Herr
             end; congruence.
    + unfold size_dst_slot in Herr.
      repeat match type of Herr with
             | context [if ?b then _ else _] => destruct b; simpl in Herr
             end; congruence.
  - left. injection Herr as <-.
    unfold cap_result_buffer in Hcap.
    repeat match type of Hcap with
           | context [if ?b then _ else _] => destruct b; simpl in Hcap
           end; congruence.
Qed.

End SizingFacts.


(** ** Completion of a task *)

Section CompletionFacts.
Context `{Env}.

Lemma scale_oitems_floor_le (n r t : Z) :
  0 <= n < 2 ^ 32 ->
  0 <= r <= t ->
  scale_oitems n r t = n * r / t.
Proof.
  intros Hn Hr.
  destruct (Z.eq_dec t 0) as [->|Hne].
  - assert (r = 0) as -> by lia.
    unfold scale_oitems, to_double, trunc, inject_Z. simpl.
    rewrite !Z.mul_0_r. reflexivity.
  - apply scale_oitems_floor; lia.
Qed.

Lemma cleaned_task_eq (pm : pgstrom_multirels) (pgjoin : pgstrom_gpujoin) :
  cleaned_task pm pgjoin =
    set_cuda pgjoin None None (task_m_ojmaps pgjoin).
Proof.
  unfold cleaned_task, gpujoin_cleanup_cuda_resources.
  destruct (task_m_kmrels pgjoin); [|reflexivity].
  unfold multirels_put_buffer.
  destruct (dev_refcnt pm (cuda_index pgjoin) - 1 =? 0); reflexivity.
Qed.

Lemma cleanup_split (pm : pgstrom_multirels) (pgjoin : pgstrom_gpujoin) :
  gpujoin_cleanup_cuda_resources pm pgjoin =
  (cleaned_pmrels pm pgjoin, cleaned_task pm pgjoin,
   (gpujoin_cleanup_cuda_resources pm pgjoin).2).
Proof.
  unfold cleaned_pmrels, cleaned_task.
  destruct (gpujoin_cleanup_cuda_resources pm pgjoin) as [[pm1 t1] log].
  reflexivity.
Qed.

(** gpujoin_create_task on a live buffer: it returns, the new task has the
    given source chunk and first row and holds one more attachment of the
    buffer, and nothing is queued. *)
Lemma create_task_live (gjs : GpuJoinState) (pm_addr : nat)
    (pm : pgstrom_multirels) (src : option pgstrom_data_store) (base : Z) :
  multirels_heap gjs !! pm_addr = Some pm ->
  exists r,
    gpujoin_create_task gjs pm_addr src base = Some r /\
    match r with
    | ERROR _ => True
    | OK (gjs', t) =>
        gjs' = set_heap gjs
                 (<[pm_addr := multirels_attach_buffer pm]> (multirels_heap gjs))
                 (S (next_addr gjs)) /\
        pds_src t = src /\ oitems_base t = base /\ pmrels t = Some pm_addr /\
        task_addr t = next_addr gjs
    end.
Proof.
  intros Hpm. unfold gpujoin_create_task. rewrite Hpm.
  eexists. split; [reflexivity|].
  match goal with
  | |- context [gpujoin_attach_result_buffer ?g ?p ?t] =>
      destruct (gpujoin_attach_result_buffer g p t) as [t'|msg] eqn:Hsz
  end; simpl; [|exact I].
  apply attach_result_buffer_OK in Hsz
    as (n & tot & dst' & _ & Haddr & _ & Hbase & Hpmrels & Hsrc & _).
  simpl in *. auto.
Qed.

Lemma size_dst_slot_spec (gjs : GpuJoinState) (pgjoin : pgstrom_gpujoin)
    (n rn : Z) :
  match size_dst_slot gjs pgjoin n rn with
  | OK (n', _) =>
      n' = (if slot_store_too_large gjs rn
            then slot_capped_oitems gjs n rn else n) /\
      (slot_store_too_large gjs rn = true ->
       1 <= slot_capped_oitems gjs n rn)
  | ERROR msg =>
      msg = "Too much growth of results tuples"%string /\
      slot_store_too_large gjs rn = true /\
      slot_capped_oitems gjs n rn < 1
  end.
Proof.
  unfold size_dst_slot, slot_store_too_large, slot_capped_oitems.
  destruct (scan_tupdesc_natts gjs =? 0); simpl;
    [split; [reflexivity|discriminate]|].
  match goal with
  | |- context [if ?b then _ else _] => destruct b; simpl
  end; [split; [reflexivity|discriminate]|].
  match goal with
  | |- context [if ?b then _ else _] => destruct b; simpl
  end; [|split; [reflexivity|discriminate]].
  match goal with
  | |- context [?a <? 1] => destruct (Z.ltb_spec a 1); simpl
  end.
  - repeat split; assumption.
  - split; [reflexivity|]. intros _. assumption.
Qed.

Lemma size_dst_row_ERROR (gjs : GpuJoinState) (pgjoin : pgstrom_gpujoin)
    (n rn : Z) (msg : string) :
  (forall dst, pds_dst pgjoin = Some dst -> k_nitems (kds dst) <> 0) ->
  size_dst_row gjs pgjoin n rn = ERROR msg ->
  msg = "Too much growth of results tuples"%string /\ n < 1.
Proof.
  unfold size_dst_row. intros Hrows Herr.
  assert (Hwidth : exists w,
            match pds_dst pgjoin with
            | None => OK (result_width gjs)
            | Some dst =>
                if k_nitems (kds dst) =? 0
                then ERROR "integer division by zero"
                else OK (MAXALIGN
                           (wrap64 (k_usage (kds dst) -
                                    KERN_DATA_STORE_HEAD_LENGTH (kds dst) -
                                    4 * k_nitems (kds dst)) /
                            k_nitems (kds dst)))
            end = OK w).
  { destruct (pds_dst pgjoin) as [dst|]; [|eauto].
    destruct (Z.eqb_spec (k_nitems (kds dst)) 0) as [Hz|_]; [|eauto].
    exfalso. apply (Hrows dst); [reflexivity|exact Hz]. }
  destruct Hwidth as [w Hw]. rewrite Hw in Herr. simpl in Herr.
  match type of Herr with
  | context [if ?b then _ else _] => destruct b; simpl in Herr
  end; [discriminate|].
  match type of Herr with
  | context [if ?b then _ else _] => destruct b; simpl in Herr
  end; [|discriminate].
  destruct (Z.ltb_spec n 1); simpl in Herr; [|discriminate].
  injection Herr as <-. split; [reflexivity|assumption].
Qed.

Lemma attach_result_buffer_ERROR_iff (gjs : GpuJoinState)
    (pm : pgstrom_multirels) (pgjoin : pgstrom_gpujoin) (msg : string) :
  result_format gjs <> KDS_FORMAT_HASH ->
  (forall dst,
     pds_dst pgjoin = Some dst -> result_format gjs = KDS_FORMAT_ROW ->
     k_nitems (kds dst) <> 0) ->
  gpujoin_attach_result_buffer gjs pm pgjoin = ERROR msg ->
  (msg = "Kresults growth ratio too large"%string /\
   kgjoin_length gjs (estimated_total_items (retry_estimate gjs pm pgjoin))
     > pgstrom_chunk_size /\
   capped_oitems gjs (retry_estimate gjs pm pgjoin) < 1) \/
  (msg = "Too much growth of results tuples"%string /\
   exists n total,
     cap_result_buffer gjs (retry_estimate gjs pm pgjoin) = OK (n, total) /\
     match result_format gjs with
     | KDS_FORMAT_SLOT =>
         slot_store_too_large gjs
           (estimated_result_nitems (retry_estimate gjs pm pgjoin) n) = true /\
         slot_capped_oitems gjs n
           (estimated_result_nitems (retry_estimate gjs pm pgjoin) n) < 1
     | _ => n < 1
     end).
Proof.
  intros Hfmt Hrows. unfold gpujoin_attach_result_buffer.
  set (e := retry_estimate gjs pm pgjoin).
  destruct (cap_result_buffer gjs e) as [[n total]|msg0] eqn:Hcap; simpl.
  - intros Herr. right.
    destruct (result_format gjs) eqn:Hf; simpl in Herr;
      [| |exfalso; apply Hfmt; reflexivity].
    + destruct (size_dst_row gjs pgjoin n _) as [[n' dst']|msg1] eqn:Hsz;
        simpl in Herr; [discriminate|]. injection Herr as <-.
      apply size_dst_row_ERROR in Hsz as [-> Hlow];
        [|intros dst Hdst; apply (Hrows dst Hdst); reflexivity].
      split; [reflexivity|]. exists n, total. split; [reflexivity|exact Hlow].
    + pose proof (size_dst_slot_spec gjs pgjoin n
                    (estimated_result_nitems e n)) as Hspec.
      unfold estimated_result_nitems in Hspec.
      destruct (size_dst_slot gjs pgjoin n _) as [[n' dst']|msg1] eqn:Hsz;
        simpl in Herr; [discriminate|]. injection Herr as <-.
      destruct Hspec as (-> & Hbig & Hlow).
      split; [reflexivity|]. exists n, total. split; [reflexivity|].
      split; assumption.
  - intros Herr. injection Herr as <-. left.
    unfold cap_result_buffer in Hcap. fold (capped_oitems gjs e) in Hcap.
    destruct (Z.gtb_spec (kgjoin_length gjs (estimated_total_items e))
                         pgstrom_chunk_size) as [Hbig|_]; [|discriminate].
    destruct (Z.ltb_spec (capped_oitems gjs e) 1) as [Hlow|_];
      [|discriminate].
    injection Hcap as <-. repeat split; [lia|exact Hlow].
Qed.

Lemma attach_result_buffer_slot_nums (gjs : GpuJoinState)
    (pm : pgstrom_multirels) (pgjoin t' : pgstrom_gpujoin) (n total : Z) :
  result_format gjs = KDS_FORMAT_SLOT ->
  cap_result_buffer gjs (retry_estimate gjs pm pgjoin) = OK (n, total) ->
  gpujoin_attach_result_buffer gjs pm pgjoin = OK t' ->
  oitems_nums t' =
    if slot_store_too_large gjs
         (estimated_result_nitems (retry_estimate gjs pm pgjoin) n)
    then slot_capped_oitems gjs n
           (estimated_result_nitems (retry_estimate gjs pm pgjoin) n)
    else n.
Proof.
  intros Hf Hcap. unfold gpujoin_attach_result_buffer.
  rewrite Hcap, Hf. simpl.
  pose proof (size_dst_slot_spec gjs pgjoin n
                (estimated_result_nitems (retry_estimate gjs pm pgjoin) n))
    as Hspec.
  unfold estimated_result_nitems in *.
  destruct (size_dst_slot gjs pgjoin n _) as [[n' dst']|msg1];
    simpl; [|discriminate].
  intros Hok. injection Hok as <-. simpl. apply Hspec.
Qed.

(** C8.  A result buffer estimated beyond the chunk size is cut to the
    largest size that fits ([reduced_items]) and the rows admitted are
    scaled by the same factor; the sizing stops with "Kresults growth ratio
    too large" exactly when fewer than one row would remain, and otherwise
    the task admits the scaled count, cut once more, in the same way, only
    if the slot store for its result is beyond the chunk size limit.  A
    buffer estimated within the chunk size is left as it is.  Whenever the
    sizing raises an error the admitted row count has fallen below one.
    A task that completes successfully with rows of its outer chunk left
    over hands the chunk to a new task that starts at the first row not
    admitted and is appended to the pending queue. *)
Theorem C8_capped_buffer_and_continuation
    (gjs : GpuJoinState) (pm : pgstrom_multirels) (pgjoin : pgstrom_gpujoin)
    (pm_addr : nat) (src : pgstrom_data_store) :
  let e := retry_estimate gjs pm pgjoin in
  (kgjoin_length gjs (estimated_total_items e) > pgstrom_chunk_size ->
   (capped_oitems gjs e < 1 <->
    gpujoin_attach_result_buffer gjs pm pgjoin =
      ERROR "Kresults growth ratio too large") /\
   (1 <= capped_oitems gjs e ->
    cap_result_buffer gjs e = OK (capped_oitems gjs e, reduced_items gjs)) /\
   (forall t',
      gpujoin_attach_result_buffer gjs pm pgjoin = OK t' ->
      kresults_total_items (kern t') = reduced_items gjs /\
      kr_nrooms (kresults_in (kern t')) = reduced_items gjs /\
      1 <= capped_oitems gjs e /\
      1 <= oitems_nums t' /\
      (result_format gjs = KDS_FORMAT_ROW ->
       oitems_nums t' = capped_oitems gjs e) /\
      (result_format gjs = KDS_FORMAT_SLOT ->
       oitems_nums t' =
         if slot_store_too_large gjs
              (estimated_result_nitems e (capped_oitems gjs e))
         then slot_capped_oitems gjs (capped_oitems gjs e)
                (estimated_result_nitems e (capped_oitems gjs e))
         else capped_oitems gjs e)) /\
   (0 <= est_oitems_nums e < 2 ^ 32 ->
    0 <= reduced_items gjs <= estimated_total_items e ->
    capped_oitems gjs e =
      est_oitems_nums e * reduced_items gjs / estimated_total_items e)) /\
  (kgjoin_length gjs (estimated_total_items e) <= pgstrom_chunk_size ->
   cap_result_buffer gjs e = OK (est_oitems_nums e, estimated_total_items e)) /\
  (result_format gjs <> KDS_FORMAT_HASH ->
   (forall dst,
      pds_dst pgjoin = Some dst -> result_format gjs = KDS_FORMAT_ROW ->
      k_nitems (kds dst) <> 0) ->
   forall msg,
     gpujoin_attach_result_buffer gjs pm pgjoin = ERROR msg ->
     (msg = "Kresults growth ratio too large"%string /\
      kgjoin_length gjs (estimated_total_items e) > pgstrom_chunk_size /\
      capped_oitems gjs e < 1) \/
     (msg = "Too much growth of results tuples"%string /\
      exists n total,
        cap_result_buffer gjs e = OK (n, total) /\
        match result_format gjs with
        | KDS_FORMAT_SLOT =>
            slot_store_too_large gjs (estimated_result_nitems e n) = true /\
            slot_capped_oitems gjs n (estimated_result_nitems e n) < 1
        | _ => n < 1
        end)) /\
  (task_errcode pgjoin = StromError_Success ->
   pmrels pgjoin = Some pm_addr ->
   multirels_heap gjs !! pm_addr = Some pm ->
   pds_src pgjoin = Some src ->
   next_outer_row pgjoin < k_nitems (kds src) ->
   exists r,
     gpujoin_create_task (counted_state gjs pm_addr pm pgjoin src) pm_addr
                         (Some src) (next_outer_row pgjoin) = Some r /\
     match r with
     | ERROR msg => gpujoin_task_complete gjs pgjoin = Some (ERROR msg)
     | OK (gjs3, pgjoin_new) =>
         exists done,
           gpujoin_task_complete gjs pgjoin =
             Some (OK (set_pending gjs3 (pending_tasks gjs3 ++ [pgjoin_new])
                                   (num_pending_tasks gjs3 + 1),
                       done, true)) /\
           pds_src done = None /\
           task_addr done = task_addr pgjoin /\
           pds_src pgjoin_new = Some src /\
           oitems_base pgjoin_new = next_outer_row pgjoin /\
           pmrels pgjoin_new = Some pm_addr /\
           pending_tasks gjs3 = pending_tasks gjs
     end).
Proof.
  intros e. split; [|split; [|split]].
  - intros Hbig. split; [|split; [|split]].
    + split.
      * intros Hlow. unfold gpujoin_attach_result_buffer. fold e.
        rewrite (cap_result_buffer_capped gjs e Hbig).
        destruct (Z.ltb_spec (capped_oitems gjs e) 1); [reflexivity|lia].
      * intros Herr. unfold gpujoin_attach_result_buffer in Herr.
        fold e in Herr.
        rewrite (cap_result_buffer_capped gjs e Hbig) in Herr.
        destruct (Z.ltb_spec (capped_oitems gjs e) 1) as [Hlow|Hone];
          [exact Hlow|]. exfalso. simpl in Herr.
        destruct (result_format gjs); simpl in Herr; [| |discriminate].
        -- match type of Herr with
           | bind ?r _ = _ => destruct r as [[n' dst']|msg1] eqn:Hsz
           end; simpl in Herr; [discriminate|].
           injection Herr as ->. unfold size_dst_row in Hsz.
           repeat match type of Hsz with
                  | context [match ?o with Some _ => _ | None => _ end] =>
                      destruct o; simpl in Hsz
                  | context [if ?b then _ else _] => destruct b; simpl in Hsz
                  end; discriminate.
        -- match type of Herr with
           | bind ?r _ = _ =>
               match r with
               | size_dst_slot ?g ?t ?n ?rn =>
                   pose proof (size_dst_slot_spec g t n rn) as Hspec;
                   destruct r as [[n' dst']|msg1]
               end
           end; simpl in Herr; [discriminate|].
           injection Herr as ->. destruct Hspec as (Hmsg & _). discriminate.
    + intros Hone. rewrite (cap_result_buffer_capped gjs e Hbig).
      destruct (Z.ltb_spec (capped_oitems gjs e) 1); [lia|reflexivity].
    + intros t' Hok.
      pose proof Hok as Hok'.
      apply attach_result_buffer_OK in Hok
        as (n & tot & dst' & Hcap & _ & _ & _ & _ & _ & _ & Htot & _ & _ &
            Hin & Hrow & Hge & _).
      fold e in Hcap. pose proof Hcap as Hcap'.
      rewrite (cap_result_buffer_capped gjs e Hbig) in Hcap.
      destruct (Z.ltb_spec (capped_oitems gjs e) 1) as [|Hone];
        [discriminate|].
      injection Hcap as <- <-. rewrite Hin. simpl.
      repeat split; auto.
      intros Hslot.
      apply (attach_result_buffer_slot_nums gjs pm pgjoin t'
               (capped_oitems gjs e) (reduced_items gjs) Hslot Hcap' Hok').
    + intros Hn Hr. apply scale_oitems_floor_le; assumption.
  - intros Hfit. unfold cap_result_buffer.
    destruct (Z.gtb_spec (kgjoin_length gjs (estimated_total_items e))
                         pgstrom_chunk_size); [lia|reflexivity].
  - intros Hfmt Hrows msg. apply attach_result_buffer_ERROR_iff; assumption.
  - intros Herr Hpm Hheap Hsrc Hleft.
    assert (Hlive : multirels_heap (counted_state gjs pm_addr pm pgjoin src)
                      !! pm_addr = Some (cleaned_pmrels pm pgjoin)).
    { unfold counted_state, cleaned_state. simpl. apply lookup_insert_eq. }
    destruct (create_task_live _ pm_addr _ (Some src) (next_outer_row pgjoin)
                Hlive) as (r & Hcreate & Hr).
    exists r. split; [exact Hcreate|].
    assert (Hcomplete :
      gpujoin_task_complete gjs pgjoin =
      fbind (Some r) (fun '(gjs3, pgjoin_new) =>
        Some (OK (set_pending gjs3 (pending_tasks gjs3 ++ [pgjoin_new])
                              (num_pending_tasks gjs3 + 1),
                  set_buffers (cleaned_task pm pgjoin)
                              (oitems_nums (cleaned_task pm pgjoin)) None
                              (pds_dst (cleaned_task pm pgjoin))
                              (kern (cleaned_task pm pgjoin)),
                  true)))).
    { unfold gpujoin_task_complete. rewrite Hpm, Hheap, cleanup_split.
      rewrite cleaned_task_eq. simpl. rewrite Herr, Hsrc.
      unfold next_outer_row in Hleft.
      destruct (Z.ltb_spec (wrap32 (oitems_base pgjoin + oitems_nums pgjoin))
                           (k_nitems (kds src))) as [_|Hn]; [|lia].
      match goal with
      | |- fbind ?c _ = _ =>
          change c with
            (gpujoin_create_task (counted_state gjs pm_addr pm pgjoin src)
               pm_addr (Some src) (next_outer_row pgjoin))
      end.
      rewrite Hcreate. destruct r as [[g3 tn]|msg]; reflexivity. }
    rewrite Hcomplete. destruct r as [[gjs3 pgjoin_new]|msg]; simpl.
    + destruct Hr as (-> & Hs & Hb & Hp & _).
      eexists. split; [reflexivity|].
      rewrite cleaned_task_eq. simpl. repeat split; assumption.
    + reflexivity.
Qed.

(** C6.  When a task completes with
    StromError_DataStoreNoSpace its buffers are sized again.  If the sizing
    raises an error (not even one outer row can be admitted, or the width
    of the previous attempt's rows cannot be computed) that error is the
    outcome and nothing is queued.  Otherwise the callback returns false,
    and the same task object, with its source chunk, first row and buffer
    attachment unchanged, is put at the head of the pending queue with
    [kresults_max_items], the input result buffer's [nitems], the error
    code and the destination store's [nitems] and [usage] all zero; the
    destination store is at least as long as before. *)
Theorem C6_overflow_requeues_the_task_at_the_head
    (gjs : GpuJoinState) (pm : pgstrom_multirels) (pgjoin : pgstrom_gpujoin)
    (pm_addr : nat) :
  task_errcode pgjoin = StromError_DataStoreNoSpace ->
  pmrels pgjoin = Some pm_addr ->
  multirels_heap gjs !! pm_addr = Some pm ->
  match gpujoin_attach_result_buffer (cleaned_state gjs pm_addr pm pgjoin)
          (cleaned_pmrels pm pgjoin) (cleaned_task pm pgjoin) with
  | ERROR msg => gpujoin_task_complete gjs pgjoin = Some (ERROR msg)
  | OK retry =>
      gpujoin_task_complete gjs pgjoin =
        Some (OK (set_pending (cleaned_state gjs pm_addr pm pgjoin)
                              (retry :: pending_tasks gjs)
                              (num_pending_tasks gjs + 1),
                  retry, false)) /\
      task_addr retry = task_addr pgjoin /\
      pds_src retry = pds_src pgjoin /\
      oitems_base retry = oitems_base pgjoin /\
      pmrels retry = pmrels pgjoin /\
      kresults_max_items (kern retry) = 0 /\
      kr_nitems (kresults_in (kern retry)) = 0 /\
      kg_kerror (kern retry) = StromError_Success /\
      (forall dst,
         pds_dst pgjoin = Some dst ->
         exists dst',
           pds_dst retry = Some dst' /\
           k_nitems (kds dst') = 0 /\
           k_usage (kds dst') = 0 /\
           pds_items dst' = [] /\
           k_length (kds dst) <= k_length (kds dst'))
  end.
Proof.
  intros Herr Hpm Hheap.
  assert (Hcomplete :
    gpujoin_task_complete gjs pgjoin =
    Some (do retry <- gpujoin_attach_result_buffer
                        (cleaned_state gjs pm_addr pm pgjoin)
                        (cleaned_pmrels pm pgjoin) (cleaned_task pm pgjoin);
          OK (set_pending (cleaned_state gjs pm_addr pm pgjoin)
                          (retry :: pending_tasks gjs)
                          (num_pending_tasks gjs + 1),
              retry, false))).
  { unfold gpujoin_task_complete. rewrite Hpm, Hheap, cleanup_split.
    cbv beta iota. rewrite cleaned_task_eq at 1. simpl task_errcode.
    rewrite Herr. reflexivity. }
  rewrite Hcomplete.
  destruct (gpujoin_attach_result_buffer _ _ _) as [retry|msg] eqn:Hsz;
    simpl; [|reflexivity].
  apply attach_result_buffer_OK in Hsz
    as (n & tot & dst' & _ & Haddr & _ & Hbase & Hpmrels & Hsrc & Hdst &
        _ & Hmax & Hkerr & Hin & _ & _ & Hreset).
  rewrite cleaned_task_eq in *. simpl in *.
  repeat split; try assumption.
  - rewrite Hin. reflexivity.
  - intros dst Hd. destruct (Hreset dst Hd) as (len & nrooms & ->).
    exists (reset_dst dst len nrooms). split; [exact Hdst|].
    apply reset_dst_empty.
Qed.

End CompletionFacts.


(** ** Instances on the sample platform: sizing and completion *)

Section CompletionInstances.
#[local] Existing Instance Sample.env.

(** C6 as the specification states it fails when the retry cannot admit
    even one outer row: a task that admitted one row and reports a million
    used result slots comes back with StromError_DataStoreNoSpace; the
    completion raises an error instead of queueing the task again. *)
Lemma C6_overflow_can_raise_an_error :
  task_errcode
    (Sample.returned_task StromError_DataStoreNoSpace 1 1 1000000 0) =
    StromError_DataStoreNoSpace /\
  gpujoin_task_complete
    (Sample.running_scan JOIN_INNER KDS_FORMAT_SLOT)
    (Sample.returned_task StromError_DataStoreNoSpace 1 1 1000000 0) =
    Some (ERROR "Kresults growth ratio too large").
Proof. split; [reflexivity|vm_compute; reflexivity]. Qed.

Lemma C6_witness :
  exists gjs' retry,
    gpujoin_task_complete
      (Sample.running_scan JOIN_INNER KDS_FORMAT_SLOT)
      (Sample.returned_task StromError_DataStoreNoSpace 100 100 50 45) =
      Some (OK (gjs', retry, false)) /\
    map task_addr (pending_tasks gjs') = [7%nat] /\
    kresults_max_items (kern retry) = 0.
Proof.
  pose proof (C6_overflow_requeues_the_task_at_the_head
                (Sample.running_scan JOIN_INNER KDS_FORMAT_SLOT)
                (Sample.window 1 0)
                (Sample.returned_task StromError_DataStoreNoSpace 100 100 50 45)
                0%nat eq_refl eq_refl eq_refl) as Hthm.
  destruct (gpujoin_attach_result_buffer _ _ _) as [retry|msg] eqn:Hsz.
  - destruct Hthm as (Hcomplete & Haddr & _ & _ & _ & Hmax & _).
    eexists. exists retry. split; [exact Hcomplete|].
    split; [simpl; rewrite Haddr; reflexivity|exact Hmax].
  - absurd_eval Hsz.
Defined.

Lemma C7_witness :
  (to_double 50 / to_double 100 <=
   est_kresults_ratio
     (retry_estimate (Sample.running_scan JOIN_INNER KDS_FORMAT_SLOT)
        (Sample.window 1 0)
        (Sample.returned_task StromError_DataStoreNoSpace 100 100 50 45)))%Q /\
  (to_double 45 / to_double 100 <=
   est_dst_nrows_ratio
     (retry_estimate (Sample.running_scan JOIN_INNER KDS_FORMAT_SLOT)
        (Sample.window 1 0)
        (Sample.returned_task StromError_DataStoreNoSpace 100 100 50 45)))%Q.
Proof.
  destruct (C7_retry_ratios_never_shrink
              (Sample.running_scan JOIN_INNER KDS_FORMAT_SLOT)
              (Sample.window 1 0)
              (Sample.returned_task StromError_DataStoreNoSpace 100 100 50 45)
              _ eq_refl) as (Hk & Hd & _).
  split; [exact Hk|exact Hd].
Defined.

Lemma C8_witness :
  (exists t',
     gpujoin_attach_result_buffer
       (Sample.running_scan JOIN_INNER KDS_FORMAT_SLOT) (Sample.window 1 0)
       (Sample.fresh_task 2000) = OK t' /\
     kresults_total_items (kern t') = 496 /\
     1 <= oitems_nums t') /\
  (exists gjs' done,
     gpujoin_task_complete
       (Sample.running_scan JOIN_INNER KDS_FORMAT_SLOT)
       (Sample.returned_task StromError_Success 2000 307 50 45) =
       Some (OK (gjs', done, true)) /\
     pds_src done = None /\
     map (fun t => (pds_src t, oitems_base t)) (pending_tasks gjs') =
       [(Some (Sample.outer_chunk 2000), 307)]).
Proof.
  split.
  - destruct (C8_capped_buffer_and_continuation
                (Sample.running_scan JOIN_INNER KDS_FORMAT_SLOT)
                (Sample.window 1 0) (Sample.fresh_task 2000) 0%nat
                (Sample.outer_chunk 2000)) as (Hcap & _ & _).
    destruct (Hcap ltac:(vm_compute; reflexivity)) as (_ & _ & Hok & _).
    destruct (gpujoin_attach_result_buffer _ _ _) as [t'|msg] eqn:Hsz.
    + destruct (Hok t' eq_refl) as (Htot & _ & _ & Hnums & _).
      exists t'. split; [reflexivity|]. split; [exact Htot|exact Hnums].
    + absurd_eval Hsz.
  - destruct (C8_capped_buffer_and_continuation
                (Sample.running_scan JOIN_INNER KDS_FORMAT_SLOT)
                (Sample.window 1 0)
                (Sample.returned_task StromError_Success 2000 307 50 45) 0%nat
                (Sample.outer_chunk 2000)) as (_ & _ & _ & Hcont).
    destruct (Hcont eq_refl eq_refl eq_refl eq_refl
                ltac:(vm_compute; reflexivity)) as (r & Hcreate & Hr).
    destruct r as [[gjs3 pgjoin_new]|msg].
    + destruct Hr as (done & Hcomplete & Hsrc & _ & Hnew & Hbase & _ & Hpend).
      eexists. exists done. split; [exact Hcomplete|].
      split; [exact Hsrc|].
      simpl. rewrite Hpend.
      change (pending_tasks (Sample.running_scan JOIN_INNER KDS_FORMAT_SLOT))
        with (@nil pgstrom_gpujoin).
      change ([] ++ [pgjoin_new]) with [pgjoin_new].
      cbn [map]. rewrite Hnew, Hbase. vm_compute. reflexivity.
    + absurd_eval Hcreate.
Defined.

End CompletionInstances.


(** ** The device mirror and the outer-join map *)

Section DeviceFacts.
Context `{Env}.

Lemma count_calls_app (p : cuda_call -> bool) (l1 l2 : list cuda_call) :
  count_calls p (l1 ++ l2) = (count_calls p l1 + count_calls p l2)%nat.
Proof.
  unfold count_calls. rewrite List.filter_app, List.length_app. reflexivity.
Qed.

Lemma default_lookup_insert {A : Type} (l : list A) (i : nat) (x d : A) :
  (i < length l)%nat -> default d (<[i := x]> l !! i) = x.
Proof. intros Hi. rewrite list_lookup_insert_eq by exact Hi. reflexivity. Qed.

Lemma count_map_chunks (p : cuda_call -> bool)
    (f : pgstrom_data_store * kern_chunk -> cuda_call)
    (l : list (pgstrom_data_store * kern_chunk)) :
  (forall x, p (f x) = false) -> count_calls p (map f l) = 0%nat.
Proof.
  intros Hf. unfold count_calls.
  induction l as [|x l IH]; simpl; [reflexivity|]. rewrite Hf. exact IH.
Qed.

Lemma count_calls_cons (p : cuda_call -> bool) (c : cuda_call)
    (l : list cuda_call) :
  count_calls p (c :: l) = ((if p c then 1 else 0) + count_calls p l)%nat.
Proof. unfold count_calls. simpl. destruct (p c); reflexivity. Qed.

Lemma count_calls_nil (p : cuda_call -> bool) : count_calls p [] = 0%nat.
Proof. reflexivity. Qed.

(** Unfold the per-device readers on an updated buffer and count the calls
    of an explicit log. *)
Ltac dev_simpl :=
  unfold dev_refcnt, dev_m_kmrels, dev_ev_loaded, dev_m_ojmaps, dev_valid,
         set_device in *;
  cbn [refcnt m_kmrels ev_loaded m_ojmaps fst snd] in *;
  rewrite ?default_lookup_insert, ?length_insert by (assumption || lia);
  rewrite ?count_calls_app, ?count_calls_cons, ?count_calls_nil;
  cbn [is_mirror_alloc is_mirror_free is_upload held] in *.

Ltac dev_crush :=
  repeat split; intros;
  try first [assumption | lia | discriminate | tauto].

Lemma get_buffer_inv (dev : nat) (pm : pgstrom_multirels)
    (log : list cuda_call) (a_kmrels a_ojmaps : option CUdeviceptr) :
  dev_inv dev (pm, log) ->
  dev_inv dev
    ((multirels_get_buffer pm dev a_kmrels a_ojmaps).1.1.2,
     log ++ (multirels_get_buffer pm dev a_kmrels a_ojmaps).2).
Proof.
  intros ((Hv1 & Hv2 & Hv3 & Hv4) & Hpos & Hzero & Hev & Halloc & Hup).
  simpl in *. unfold multirels_get_buffer.
  destruct (Z.eqb_spec (dev_refcnt pm dev) 0) as [Hfree|Hbusy].
  - assert (Hno : dev_m_kmrels pm dev = None) by (apply Hzero; exact Hfree).
    assert (Hnoev : dev_ev_loaded pm dev = None) by (apply Hev; exact Hno).
    rewrite Hno, Hnoev in *. simpl in Halloc, Hup.
    destruct a_kmrels as [kmrels|]; simpl.
    + destruct ((ojmap_length pm >? 0) &&
                negb (bool_decide (is_Some (dev_m_ojmaps pm dev)))); simpl.
      * destruct a_ojmaps as [ojmaps|]; simpl.
        -- unfold dev_inv. simpl. dev_simpl. rewrite Hfree, Hnoev.
           dev_simpl. dev_crush.
        -- unfold dev_inv. simpl. dev_simpl. rewrite Hfree, Hno, Hnoev.
           dev_simpl. dev_crush.
      * unfold dev_inv. simpl. dev_simpl. rewrite Hfree, Hnoev.
        dev_simpl. dev_crush.
    + unfold dev_inv. simpl. dev_simpl. rewrite Hfree, Hno, Hnoev.
      dev_simpl. dev_crush.
  - simpl. unfold dev_inv. simpl. rewrite app_nil_r.
    assert (Hsome : dev_m_kmrels pm dev <> None) by tauto.
    dev_simpl. dev_crush.
Qed.

Lemma send_buffer_inv (dev stream : nat) (pm : pgstrom_multirels)
    (log : list cuda_call) (ev_new : CUevent) :
  dev_inv dev (pm, log) ->
  0 < dev_refcnt pm dev ->
  dev_inv dev
    ((multirels_send_buffer pm dev stream ev_new).1,
     log ++ (multirels_send_buffer pm dev stream ev_new).2).
Proof.
  intros ((Hv1 & Hv2 & Hv3 & Hv4) & Hpos & Hzero & Hev & Halloc & Hup) Hheld.
  simpl in *. unfold multirels_send_buffer.
  destruct (dev_ev_loaded pm dev) as [ev|] eqn:Hloaded; simpl.
  - unfold dev_inv. simpl. rewrite Hloaded. dev_simpl. dev_crush.
  - unfold dev_inv. simpl.
    assert (Hcnt : forall p,
      p (CuEventCreate ev_new) = false ->
      (forall d o l s, p (CuMemcpyHtoDAsync d o l s) = false) ->
      count_calls p
        (CuEventCreate ev_new
         :: CuMemcpyHtoDAsync (dev_m_kmrels pm dev) 0
              (offsetof_kmultirels_chunks (kern_nrels pm)) stream
         :: map (fun '(pds, c) =>
                   CuMemcpyHtoDAsync (dev_m_kmrels pm dev) (chunk_offset c)
                                     (k_length (kds pds)) stream)
                (take (Z.to_nat (kern_nrels pm))
                      (zip (inner_chunks pm) (kern_chunks pm))) ++
            [CuEventRecord ev_new stream]) =
      count_calls p [CuEventRecord ev_new stream]).
    { intros p Hp1 Hp2.
      rewrite !count_calls_cons, count_calls_app, Hp1, Hp2.
      rewrite count_map_chunks by (intros [pds c]; apply Hp2).
      rewrite count_calls_cons. reflexivity. }
    rewrite !count_calls_app, !Hcnt by reflexivity.
    dev_simpl.
    assert (Hm : default None (m_kmrels pm !! dev) <> None).
    { intros Hnone. apply Hzero in Hnone. lia. }
    dev_crush.
Qed.

Lemma put_buffer_inv (dev : nat) (pm : pgstrom_multirels)
    (log : list cuda_call) :
  dev_inv dev (pm, log) ->
  0 < dev_refcnt pm dev ->
  dev_inv dev
    ((multirels_put_buffer pm dev).1, log ++ (multirels_put_buffer pm dev).2).
Proof.
  intros ((Hv1 & Hv2 & Hv3 & Hv4) & Hpos & Hzero & Hev & Halloc & Hup) Hheld.
  simpl in *. unfold multirels_put_buffer.
  destruct (Z.eqb_spec (dev_refcnt pm dev - 1) 0) as [Hlast|Hmore].
  - unfold dev_inv. simpl. dev_simpl.
    destruct (default None (m_kmrels pm !! dev)) as [p|] eqn:Hm;
      [|exfalso; assert (default 0 (refcnt pm !! dev) = 0) by tauto; lia].
    destruct (default None (ev_loaded pm !! dev)) as [ev|] eqn:He;
      dev_simpl; dev_crush.
  - unfold dev_inv. simpl. rewrite app_nil_r. dev_simpl.
    assert (Hm : default None (m_kmrels pm !! dev) <> None).
    { intros Hnone. apply Hzero in Hnone. lia. }
    dev_crush.
Qed.

Lemma dev_step_inv (dev stream : nat) (op : dev_op)
    (st st' : pgstrom_multirels * list cuda_call) :
  dev_inv dev st ->
  dev_step dev stream op st = Some st' ->
  dev_inv dev st'.
Proof.
  destruct st as [pm log]. intros Hinv Hstep.
  destruct op as [a_kmrels a_ojmaps|ev_new|]; simpl in Hstep.
  - injection Hstep as <-. apply get_buffer_inv. exact Hinv.
  - destruct (Z.ltb_spec 0 (dev_refcnt pm dev)) as [Hheld|]; [|discriminate].
    injection Hstep as <-. apply send_buffer_inv; assumption.
  - destruct (Z.ltb_spec 0 (dev_refcnt pm dev)) as [Hheld|]; [|discriminate].
    injection Hstep as <-. apply put_buffer_inv; assumption.
Qed.

Lemma dev_run_inv (dev stream : nat) (ops : list dev_op) :
  forall st st' : pgstrom_multirels * list cuda_call,
    dev_inv dev st ->
    dev_run dev stream ops st = Some st' ->
    dev_inv dev st'.
Proof.
  induction ops as [|op ops IH]; intros st st' Hinv Hrun; simpl in Hrun.
  - injection Hrun as <-. exact Hinv.
  - destruct (dev_step dev stream op st) as [st1|] eqn:Hstep; [|discriminate].
    apply (IH st1 st'); [|exact Hrun].
    apply (dev_step_inv dev stream op st st1); assumption.
Qed.


(** C4.  On a device that holds nothing of the buffer at the start, after
    any sequence of takes, sends and gives-back: the mirror has been
    allocated once more than it has been freed if the device holds it now
    and as often as it has been freed otherwise, it has been uploaded at
    most as often as it has been allocated, and it is held exactly while
    the device's reference count is not zero.  A take while the count is
    not zero makes no call, a send while the load event is set only waits
    on that event, and a give-back frees the mirror exactly when it
    releases the last reference. *)
Theorem C4_mirror_allocated_once_per_holding_period
    (dev stream : nat) (pm pm' : pgstrom_multirels) (ops : list dev_op)
    (log : list cuda_call) :
  dev_valid pm dev ->
  dev_unused pm dev ->
  dev_run dev stream ops (pm, []) = Some (pm', log) ->
  count_calls is_mirror_alloc log =
    (count_calls is_mirror_free log + held (dev_m_kmrels pm' dev))%nat /\
  (count_calls is_upload log <= count_calls is_mirror_alloc log)%nat /\
  (dev_refcnt pm' dev = 0 <-> dev_m_kmrels pm' dev = None) /\
  (forall a_kmrels a_ojmaps,
     0 < dev_refcnt pm' dev ->
     (multirels_get_buffer pm' dev a_kmrels a_ojmaps).2 = []) /\
  (forall ev ev_new,
     dev_ev_loaded pm' dev = Some ev ->
     (multirels_send_buffer pm' dev stream ev_new).2 =
       [CuStreamWaitEvent stream ev]) /\
  (0 < dev_refcnt pm' dev ->
   count_calls is_mirror_free (multirels_put_buffer pm' dev).2 =
     if dev_refcnt pm' dev =? 1 then 1%nat else 0%nat).
Proof.
  intros Hvalid (Hrc & Hm & Hev) Hrun.
  assert (Hinit : dev_inv dev (pm, [])).
  { unfold dev_inv. simpl. rewrite Hrc, Hm, Hev. simpl.
    split; [exact Hvalid|]. split; [lia|]. split; [tauto|].
    split; [tauto|]. split; [reflexivity|]. unfold count_calls. simpl. lia. }
  destruct (dev_run_inv dev stream ops (pm, []) (pm', log) Hinit Hrun)
    as (_ & Hpos & Hzero & Hnoev & Halloc & Hup).
  simpl in Hpos, Hzero, Hnoev, Halloc, Hup.
  split; [exact Halloc|]. split; [|split; [exact Hzero|split; [|split]]].
  - rewrite Halloc.
    destruct (dev_m_kmrels pm' dev) as [p|].
    + destruct (dev_ev_loaded pm' dev); simpl in *; lia.
    + rewrite (Hnoev eq_refl) in Hup. exact Hup.
  - intros a_kmrels a_ojmaps Hheld. unfold multirels_get_buffer.
    destruct (Z.eqb_spec (dev_refcnt pm' dev) 0); [lia|reflexivity].
  - intros ev ev_new Hloaded. unfold multirels_send_buffer.
    rewrite Hloaded. reflexivity.
  - intros Hheld. unfold multirels_put_buffer.
    destruct (Z.eqb_spec (dev_refcnt pm' dev) 1) as [Hone|Hmore].
    + rewrite Hone. simpl.
      unfold dev_m_kmrels, dev_ev_loaded in *.
      cbn [m_kmrels ev_loaded set_device].
      destruct (default None (m_kmrels pm' !! dev)) as [p|];
        [|exfalso; assert (dev_refcnt pm' dev = 0) by tauto; lia].
      destruct (default None (ev_loaded pm' !! dev)); reflexivity.
    + destruct (Z.eqb_spec (dev_refcnt pm' dev - 1) 0); [lia|reflexivity].
Qed.

End DeviceFacts.


(** ** Detaching the buffer *)

Section DetachFacts.
Context `{Env}.

(** multirels_detach_buffer on a live buffer, case by case. *)
Lemma detach_live (gjs : GpuJoinState) (pm_addr : nat)
    (pm : pgstrom_multirels) (may_kick : bool) :
  multirels_heap gjs !! pm_addr = Some pm ->
  multirels_detach_buffer gjs pm_addr may_kick =
  if kicks pm may_kick then
    fbind (gpujoin_create_task gjs pm_addr None 0) (fun '(gjs1, pgjoin_new) =>
    if n_attached pm + 1 - 1 =? 0 then
      Some (OK (set_heap (set_pending gjs1 (pending_tasks gjs1 ++ [pgjoin_new])
                                      (num_pending_tasks gjs1 + 1))
                         (delete pm_addr
                            (<[pm_addr := set_attach (multirels_attach_buffer pm)
                                            true (n_attached pm + 1)]>
                               (multirels_heap gjs)))
                         (S (next_addr gjs)),
                free_ojmaps pm (num_context gjs)))
    else
      Some (OK (set_heap (set_pending gjs1 (pending_tasks gjs1 ++ [pgjoin_new])
                                      (num_pending_tasks gjs1 + 1))
                         (<[pm_addr := kicked_pmrels pm]> (multirels_heap gjs))
                         (S (next_addr gjs)),
                [])))
  else if n_attached pm - 1 =? 0 then
    Some (OK (set_heap gjs (delete pm_addr (multirels_heap gjs)) (next_addr gjs),
              free_ojmaps pm (num_context gjs)))
  else
    Some (OK (set_heap gjs
                (<[pm_addr := set_attach pm (outer_join_kicked pm)
                                (n_attached pm - 1)]> (multirels_heap gjs))
                (next_addr gjs),
              [])).
Proof.
  intros Hpm. unfold multirels_detach_buffer, kicks. rewrite Hpm.
  destruct (may_kick && (n_attached pm =? 1) && negb (outer_join_kicked pm)).
  - destruct (create_task_live gjs pm_addr pm None 0 Hpm) as (r & Hcreate & Hr).
    rewrite Hcreate. destruct r as [[gjs1 t]|msg]; [|reflexivity].
    destruct Hr as (-> & _). simpl.
    rewrite alter_insert_eq, lookup_insert_eq. simpl.
    destruct (n_attached pm + 1 - 1 =? 0).
    + reflexivity.
    + rewrite insert_insert_eq. reflexivity.
  - simpl. rewrite Hpm. reflexivity.
Qed.

Lemma detach_sweep_inv (pm_addr : nat) (gjs0 gjs gjs' : GpuJoinState)
    (may_kick : bool) (log : list cuda_call) :
  sweep_inv pm_addr gjs0 gjs ->
  multirels_detach_buffer gjs pm_addr may_kick = Some (OK (gjs', log)) ->
  sweep_inv pm_addr gjs0 gjs'.
Proof.
  intros (new & Hpend & Hall & Hcount) Hdetach.
  destruct (multirels_heap gjs !! pm_addr) as [pm|] eqn:Hpm;
    [|unfold multirels_detach_buffer in Hdetach; rewrite Hpm in Hdetach;
      discriminate].
  rewrite (detach_live gjs pm_addr pm may_kick Hpm) in Hdetach.
  destruct (kicks pm may_kick) eqn:Hkick.
  - unfold kicks in Hkick.
    apply andb_prop in Hkick as [Hkick Hnot].
    apply andb_prop in Hkick as [_ Hone].
    apply Z.eqb_eq in Hone. apply negb_true_iff in Hnot.
    rewrite Hnot in Hcount.
    destruct (create_task_live gjs pm_addr pm None 0 Hpm)
      as (r & Hcreate & Hr).
    rewrite Hcreate in Hdetach.
    destruct r as [[gjs1 t]|msg]; simpl in Hdetach; [|discriminate].
    destruct Hr as (-> & Hsrc & Hbase & Hpmrels & _).
    rewrite Hone in Hdetach. simpl in Hdetach. injection Hdetach as <- <-.
    exists (new ++ [t]). simpl. rewrite Hpend, lookup_insert_eq. simpl.
    split; [symmetry; apply app_assoc|].
    split.
    + apply Forall_app. split; [exact Hall|].
      constructor; [|constructor]. unfold sweep_task. auto.
    + rewrite List.length_app, Hcount. reflexivity.
  - destruct (n_attached pm - 1 =? 0); injection Hdetach as <- <-.
    + exists new. simpl. rewrite lookup_delete_eq.
      split; [exact Hpend|]. split; [exact Hall|].
      rewrite Hcount. destruct (outer_join_kicked pm); lia.
    + exists new. simpl. rewrite lookup_insert_eq. simpl.
      split; [exact Hpend|]. split; [exact Hall|exact Hcount].
Qed.

Lemma buffer_step_sweep_inv (pm_addr : nat) (op : attach_op)
    (gjs0 gjs gjs' : GpuJoinState) :
  sweep_inv pm_addr gjs0 gjs ->
  buffer_step pm_addr op gjs = Some (OK gjs') ->
  sweep_inv pm_addr gjs0 gjs'.
Proof.
  intros Hinv Hstep. destruct op as [|may_kick]; simpl in Hstep.
  - destruct Hinv as (new & Hpend & Hall & Hcount).
    destruct (multirels_heap gjs !! pm_addr) as [pm|] eqn:Hpm; [|discriminate].
    injection Hstep as <-. exists new. simpl. rewrite lookup_insert_eq.
    auto.
  - destruct (multirels_detach_buffer gjs pm_addr may_kick)
      as [[[gjs1 log]|msg]|] eqn:Hdetach; simpl in Hstep; try discriminate.
    injection Hstep as <-.
    apply (detach_sweep_inv pm_addr gjs0 gjs gjs1 may_kick log); assumption.
Qed.

Lemma buffer_run_sweep_inv (pm_addr : nat) (ops : list attach_op)
    (gjs0 : GpuJoinState) :
  forall gjs gjs' : GpuJoinState,
    sweep_inv pm_addr gjs0 gjs ->
    buffer_run pm_addr ops gjs = Some (OK gjs') ->
    sweep_inv pm_addr gjs0 gjs'.
Proof.
  induction ops as [|op ops IH]; intros gjs gjs' Hinv Hrun; simpl in Hrun.
  - injection Hrun as <-. exact Hinv.
  - destruct (buffer_step pm_addr op gjs) as [[gjs1|msg]|] eqn:Hstep;
      simpl in Hrun; try discriminate.
    apply (IH gjs1 gjs'); [|exact Hrun].
    apply (buffer_step_sweep_inv pm_addr op gjs0 gjs gjs1); assumption.
Qed.

(** C2.  For the buffer at one address: a detach that may not start the
    outer join queues nothing; a detach that may queues a task exactly when
    the caller is the last holder and the outer join has not been started,
    and then it appends one task without outer chunk, starting at the first
    row of the window and attached to the buffer, records in the buffer
    that the outer join has been started and leaves that task as its only
    holder; and over any sequence of attaches and detaches on a buffer
    whose outer join has not been started at most one task is queued, an
    outer-join task of that buffer.  The buffer can also be released with
    no outer-join task at all: when a task attaches to a buffer the scan
    alone holds, the scan detaches next (it may start the outer join, but
    is not the last holder) and the task detaches last (it may not start
    it), the buffer is removed and the pending queue is what it was. *)
Theorem C2_outer_join_task_is_queued_at_most_once
    (gjs : GpuJoinState) (pm_addr : nat) (pm : pgstrom_multirels) :
  multirels_heap gjs !! pm_addr = Some pm ->
  (forall gjs' log,
     multirels_detach_buffer gjs pm_addr false = Some (OK (gjs', log)) ->
     pending_tasks gjs' = pending_tasks gjs) /\
  (forall gjs' log,
     multirels_detach_buffer gjs pm_addr true = Some (OK (gjs', log)) ->
     if (n_attached pm =? 1) && negb (outer_join_kicked pm) then
       exists t pm',
         pending_tasks gjs' = pending_tasks gjs ++ [t] /\
         sweep_task pm_addr t /\
         multirels_heap gjs' !! pm_addr = Some pm' /\
         outer_join_kicked pm' = true /\
         n_attached pm' = 1
     else pending_tasks gjs' = pending_tasks gjs) /\
  (forall ops gjs',
     outer_join_kicked pm = false ->
     buffer_run pm_addr ops gjs = Some (OK gjs') ->
     exists new,
       pending_tasks gjs' = pending_tasks gjs ++ new /\
       (length new <= 1)%nat /\
       Forall (sweep_task pm_addr) new /\
       (forall pm', multirels_heap gjs' !! pm_addr = Some pm' ->
          outer_join_kicked pm' = false -> new = [])) /\
  (n_attached pm = 1 ->
   exists gjs',
     buffer_run pm_addr [OpAttach; OpDetach true; OpDetach false] gjs =
       Some (OK gjs') /\
     multirels_heap gjs' !! pm_addr = None /\
     pending_tasks gjs' = pending_tasks gjs).
Proof.
  intros Hpm. split; [|split; [|split]].
  - intros gjs' log Hdetach.
    rewrite (detach_live gjs pm_addr pm false Hpm) in Hdetach.
    unfold kicks in Hdetach. simpl in Hdetach.
    destruct (n_attached pm - 1 =? 0); injection Hdetach as <- <-; reflexivity.
  - intros gjs' log Hdetach.
    rewrite (detach_live gjs pm_addr pm true Hpm) in Hdetach.
    unfold kicks in Hdetach. simpl in Hdetach.
    destruct ((n_attached pm =? 1) && negb (outer_join_kicked pm)) eqn:Hkick.
    + apply andb_prop in Hkick as [Hone _]. apply Z.eqb_eq in Hone.
      destruct (create_task_live gjs pm_addr pm None 0 Hpm)
        as (r & Hcreate & Hr).
      rewrite Hcreate in Hdetach.
      destruct r as [[gjs1 t]|msg]; simpl in Hdetach; [|discriminate].
      destruct Hr as (-> & Hsrc & Hbase & Hpmrels & _).
      rewrite Hone in Hdetach. simpl in Hdetach. injection Hdetach as <- <-.
      exists t, (kicked_pmrels pm). simpl. rewrite lookup_insert_eq.
      unfold sweep_task, kicked_pmrels. simpl. rewrite Hone.
      repeat split; auto.
    + destruct (n_attached pm - 1 =? 0); injection Hdetach as <- <-;
        reflexivity.
  - intros ops gjs' Hfresh Hrun.
    assert (Hinit : sweep_inv pm_addr gjs gjs).
    { exists []. rewrite app_nil_r, Hpm, Hfresh. auto. }
    destruct (buffer_run_sweep_inv pm_addr ops gjs gjs gjs' Hinit Hrun)
      as (new & Hpend & Hall & Hcount).
    exists new. split; [exact Hpend|]. split; [|split; [exact Hall|]].
    + destruct (multirels_heap gjs' !! pm_addr) as [pm'|]; [|exact Hcount].
      rewrite Hcount. destruct (outer_join_kicked pm'); lia.
    + intros pm' Hpm' Hnot. rewrite Hpm', Hnot in Hcount.
      destruct new; [reflexivity|discriminate].
  - intros Hone. unfold buffer_run, buffer_step. rewrite Hpm.
    cbn [fbind].
    rewrite (detach_live _ pm_addr (multirels_attach_buffer pm) true)
      by (simpl; apply lookup_insert_eq).
    unfold kicks, multirels_attach_buffer. simpl. rewrite Hone. simpl.
    rewrite insert_insert_eq.
    rewrite (detach_live _ pm_addr
               (set_attach (set_attach pm (outer_join_kicked pm) (1 + 1))
                           (outer_join_kicked pm) (1 + 1 - 1)) false)
      by (simpl; apply lookup_insert_eq).
    unfold kicks. simpl.
    eexists. split; [reflexivity|]. simpl.
    split; [apply lookup_delete_eq|reflexivity].
Qed.

Lemma free_ojmaps_In (pm : pgstrom_multirels) (num_context d : nat)
    (k : buffer_kind) (p : CUdeviceptr) :
  In (GpuMemFree d k p) (free_ojmaps pm num_context) <->
  k = OuterJoinMap /\ (d < num_context)%nat /\ dev_m_ojmaps pm d = Some p.
Proof.
  unfold free_ojmaps. rewrite <- list_elem_of_In, list_elem_of_omap.
  split.
  - intros (index & Hin & Hfree).
    apply elem_of_seq in Hin.
    destruct (dev_m_ojmaps pm index) as [q|] eqn:Hq; [|discriminate].
    injection Hfree as -> <- ->. auto with lia.
  - intros (-> & Hd & Hoj). exists d. split.
    + apply elem_of_seq. lia.
    + rewrite Hoj. reflexivity.
Qed.

(** C10.  Giving back the last reference of a device frees that device's
    mirror and destroys its load event, and neither it nor any other call of
    multirels_put_buffer touches an outer-join map.  Taking the mirror on a
    device that already has an outer-join map leaves the map as it is: the
    map is cleared only in the call that allocates it.  So after the last
    reference is given back and the mirror is taken again the device has
    the same map, not cleared.  A detach frees outer-join maps only when it
    removes the last attachment, and then it frees the map of every
    device. *)
Theorem C10_outer_join_map_outlives_the_mirror
    (gjs : GpuJoinState) (pm_addr : nat) (pm : pgstrom_multirels) (dev : nat)
    (a_kmrels a_ojmaps : option CUdeviceptr) (may_kick : bool) :
  dev_valid pm dev ->
  (m_ojmaps (multirels_put_buffer pm dev).1 = m_ojmaps pm /\
   count_calls touches_ojmap (multirels_put_buffer pm dev).2 = 0%nat /\
   (dev_refcnt pm dev = 1 ->
    dev_m_kmrels (multirels_put_buffer pm dev).1 dev = None /\
    dev_ev_loaded (multirels_put_buffer pm dev).1 dev = None /\
    (forall p, dev_m_kmrels pm dev = Some p ->
       In (GpuMemFree dev Mirror p) (multirels_put_buffer pm dev).2) /\
    (forall ev, dev_ev_loaded pm dev = Some ev ->
       In (CuEventDestroy ev) (multirels_put_buffer pm dev).2))) /\
  (is_Some (dev_m_ojmaps pm dev) ->
   m_ojmaps (multirels_get_buffer pm dev a_kmrels a_ojmaps).1.1.2 =
     m_ojmaps pm /\
   count_calls touches_ojmap
     (multirels_get_buffer pm dev a_kmrels a_ojmaps).2 = 0%nat) /\
  (forall p v n,
     In (CuMemsetD32 p v n)
        (multirels_get_buffer pm dev a_kmrels a_ojmaps).2 ->
     dev_m_ojmaps pm dev = None /\ a_ojmaps = Some p /\ v = 0 /\
     dev_m_ojmaps (multirels_get_buffer pm dev a_kmrels a_ojmaps).1.1.2 dev
       = Some p) /\
  (dev_refcnt pm dev = 1 ->
   is_Some (dev_m_ojmaps pm dev) ->
   m_ojmaps
     (multirels_get_buffer (multirels_put_buffer pm dev).1 dev
        a_kmrels a_ojmaps).1.1.2 = m_ojmaps pm /\
   count_calls touches_ojmap
     ((multirels_put_buffer pm dev).2 ++
      (multirels_get_buffer (multirels_put_buffer pm dev).1 dev
         a_kmrels a_ojmaps).2) = 0%nat) /\
  (forall gjs' log,
     multirels_heap gjs !! pm_addr = Some pm ->
     multirels_detach_buffer gjs pm_addr may_kick = Some (OK (gjs', log)) ->
     (forall d k p,
        In (GpuMemFree d k p) log ->
        k = OuterJoinMap /\ dev_m_ojmaps pm d = Some p /\
        n_attached pm = 1 /\ multirels_heap gjs' !! pm_addr = None) /\
     (multirels_heap gjs' !! pm_addr = None ->
      forall d p,
        (d < num_context gjs)%nat ->
        dev_m_ojmaps pm d = Some p ->
        In (GpuMemFree d OuterJoinMap p) log)).
Proof.
  intros (Hv1 & Hv2 & Hv3 & Hv4).
  assert (Hput :
    m_ojmaps (multirels_put_buffer pm dev).1 = m_ojmaps pm /\
    count_calls touches_ojmap (multirels_put_buffer pm dev).2 = 0%nat /\
    dev_valid (multirels_put_buffer pm dev).1 dev).
  { unfold multirels_put_buffer, dev_valid.
    destruct (dev_refcnt pm dev - 1 =? 0); simpl;
      rewrite ?length_insert; [|repeat split; assumption].
    unfold dev_m_kmrels, dev_ev_loaded; cbn [m_kmrels ev_loaded set_device].
    destruct (default None (m_kmrels pm !! dev));
      destruct (default None (ev_loaded pm !! dev));
      repeat split; assumption. }
  assert (Hget : forall pm0,
    dev_valid pm0 dev ->
    is_Some (dev_m_ojmaps pm0 dev) ->
    m_ojmaps (multirels_get_buffer pm0 dev a_kmrels a_ojmaps).1.1.2 =
      m_ojmaps pm0 /\
    count_calls touches_ojmap
      (multirels_get_buffer pm0 dev a_kmrels a_ojmaps).2 = 0%nat).
  { intros pm0 _ Hoj. unfold multirels_get_buffer.
    rewrite (bool_decide_eq_true_2 _ Hoj), andb_false_r.
    destruct (dev_refcnt pm0 dev =? 0); [|auto].
    destruct a_kmrels; auto. }
  split; [|split; [|split; [|split]]].
  - destruct Hput as (Hsame & Hcount & _).
    split; [exact Hsame|]. split; [exact Hcount|].
    intros Hone. unfold multirels_put_buffer. rewrite Hone. simpl.
    unfold dev_m_kmrels, dev_ev_loaded; cbn [m_kmrels ev_loaded set_device].
    rewrite !default_lookup_insert by assumption.
    split; [reflexivity|]. split; [reflexivity|]. split.
    + intros p Hp. rewrite Hp. simpl. auto.
    + intros ev Hev. rewrite Hev. apply in_or_app. right. simpl. auto.
  - apply Hget. unfold dev_valid. auto.
  - intros p v n Hin. unfold multirels_get_buffer in *.
    destruct (dev_refcnt pm dev =? 0); [|destruct Hin].
    destruct a_kmrels as [kmrels|]; simpl in Hin;
      [|destruct Hin as [Hin|[]]; discriminate].
    destruct (ojmap_length pm >? 0); simpl in *;
      [|destruct Hin as [Hin|[]]; discriminate].
    destruct (dev_m_ojmaps pm dev) as [oj|] eqn:Hoj.
    + rewrite bool_decide_eq_true_2 in Hin by eauto. simpl in Hin.
      destruct Hin as [Hin|[]]; discriminate.
    + rewrite bool_decide_eq_false_2 in * by (intros [? ?]; discriminate).
      simpl in *. destruct a_ojmaps as [ojmaps|]; simpl in *.
      * destruct Hin as [Hin|[Hin|[Hin|[]]]]; try discriminate.
        injection Hin as -> <- _.
        unfold dev_m_ojmaps; cbn [m_ojmaps set_device].
        rewrite default_lookup_insert by assumption. auto.
      * destruct Hin as [Hin|[Hin|[Hin|[]]]]; discriminate.
  - intros Hone Hoj. destruct Hput as (Hsame & Hcount & Hvalid).
    assert (Hoj' : is_Some (dev_m_ojmaps (multirels_put_buffer pm dev).1 dev)).
    { unfold dev_m_ojmaps in *. rewrite Hsame. exact Hoj. }
    destruct (Hget _ Hvalid Hoj') as (Hsame' & Hcount').
    split; [rewrite Hsame'; exact Hsame|].
    rewrite count_calls_app, Hcount, Hcount'. reflexivity.
  - intros gjs' log Hpm Hdetach.
    rewrite (detach_live gjs pm_addr pm may_kick Hpm) in Hdetach.
    destruct (kicks pm may_kick) eqn:Hkick.
    + unfold kicks in Hkick.
      apply andb_prop in Hkick as [Hkick _].
      apply andb_prop in Hkick as [_ Hone]. apply Z.eqb_eq in Hone.
      destruct (gpujoin_create_task gjs pm_addr None 0)
        as [[[gjs1 t]|msg]|]; simpl in Hdetach; try discriminate.
      rewrite Hone in Hdetach. simpl in Hdetach. injection Hdetach as <- <-.
      split; [intros d k p []|].
      simpl. rewrite lookup_insert_eq. discriminate.
    + destruct (Z.eqb_spec (n_attached pm - 1) 0) as [Hlast|Hmore];
        injection Hdetach as <- <-.
      * split.
        -- intros d k p Hin. apply free_ojmaps_In in Hin as (-> & _ & Hoj).
           simpl. rewrite lookup_delete_eq. repeat split; auto. lia.
        -- intros _ d p Hd Hoj. apply free_ojmaps_In. auto.
      * split; [intros d k p []|].
        simpl. rewrite lookup_insert_eq. discriminate.
Qed.

End DetachFacts.



(** ** Instances on the sample platform: the shared buffer *)

Section BufferInstances.
#[local] Existing Instance Sample.env.

(** C4 as the specification states it fails once the device has released
    its last reference: the give-back frees the mirror and destroys the load
    event, so the next take on the same device allocates the mirror a
    second time and the next send uploads it a second time. *)
Lemma C4_mirror_is_allocated_again_after_release :
  exists pm' log,
    dev_run 0 0
      [DevGet (Some 1%positive) None; DevSend 1%positive; DevPut;
       DevGet (Some 2%positive) None; DevSend 2%positive]
      (Sample.window 1 0, []) = Some (pm', log) /\
    count_calls is_mirror_alloc log = 2%nat /\
    count_calls is_upload log = 2%nat /\
    count_calls is_mirror_free log = 1%nat.
Proof. do 2 eexists. vm_compute. repeat split; reflexivity. Qed.

Lemma C4_witness :
  exists pm' log,
    dev_run 0 0
      [DevGet (Some 1%positive) None; DevSend 1%positive;
       DevGet None None; DevSend 2%positive; DevPut; DevPut;
       DevGet (Some 2%positive) None]
      (Sample.window 1 0, []) = Some (pm', log) /\
    count_calls is_mirror_alloc log =
      (count_calls is_mirror_free log + held (dev_m_kmrels pm' 0))%nat /\
    (count_calls is_upload log <= count_calls is_mirror_alloc log)%nat.
Proof.
  destruct (dev_run 0 0
              [DevGet (Some 1%positive) None; DevSend 1%positive;
               DevGet None None; DevSend 2%positive; DevPut; DevPut;
               DevGet (Some 2%positive) None]
              (Sample.window 1 0, [])) as [[pm' log]|] eqn:Hrun.
  - assert (Hvalid : dev_valid (Sample.window 1 0) 0)
      by (unfold dev_valid; simpl; lia).
    assert (Hunused : dev_unused (Sample.window 1 0) 0) by (repeat split).
    destruct (C4_mirror_allocated_once_per_holding_period
                0 0 _ pm' _ log Hvalid Hunused Hrun) as (Halloc & Hup & _).
    exists pm', log. split; [reflexivity|]. split; [exact Halloc|exact Hup].
  - absurd_eval Hrun.
Defined.

Lemma C2_witness :
  (exists gjs' log t,
     multirels_detach_buffer
       (Sample.running_scan JOIN_RIGHT KDS_FORMAT_SLOT) 0 true =
       Some (OK (gjs', log)) /\
     pending_tasks gjs' = [t] /\
     sweep_task 0 t) /\
  (exists gjs',
     buffer_run 0 [OpAttach; OpDetach true; OpDetach false]
       (Sample.running_scan JOIN_RIGHT KDS_FORMAT_SLOT) = Some (OK gjs') /\
     multirels_heap gjs' !! 0%nat = None /\
     pending_tasks gjs' = []).
Proof.
  destruct (C2_outer_join_task_is_queued_at_most_once
              (Sample.running_scan JOIN_RIGHT KDS_FORMAT_SLOT) 0
              (Sample.window 1 16) eq_refl) as (_ & Hkick & _ & Hlost).
  split.
  - destruct (multirels_detach_buffer
                (Sample.running_scan JOIN_RIGHT KDS_FORMAT_SLOT) 0 true)
      as [[[gjs' log]|msg]|] eqn:Hdetach.
    + destruct (Hkick gjs' log eq_refl) as (t & pm' & Hpend & Hsweep & _).
      exists gjs', log, t. split; [reflexivity|].
      split; [exact Hpend|exact Hsweep].
    + absurd_eval Hdetach.
    + absurd_eval Hdetach.
  - exact (Hlost eq_refl).
Defined.

Lemma C10_witness :
  m_ojmaps
    (multirels_get_buffer
       (multirels_put_buffer
          (multirels_get_buffer (Sample.window 1 16) 0
             (Some 1%positive) (Some 2%positive)).1.1.2 0).1
       0 (Some 3%positive) (Some 4%positive)).1.1.2 =
    [Some 2%positive] /\
  count_calls touches_ojmap
    ((multirels_put_buffer
        (multirels_get_buffer (Sample.window 1 16) 0
           (Some 1%positive) (Some 2%positive)).1.1.2 0).2 ++
     (multirels_get_buffer
        (multirels_put_buffer
           (multirels_get_buffer (Sample.window 1 16) 0
              (Some 1%positive) (Some 2%positive)).1.1.2 0).1
        0 (Some 3%positive) (Some 4%positive)).2) = 0%nat.
Proof.
  destruct (C10_outer_join_map_outlives_the_mirror
              (Sample.running_scan JOIN_RIGHT KDS_FORMAT_SLOT) 0
              (multirels_get_buffer (Sample.window 1 16) 0
                 (Some 1%positive) (Some 2%positive)).1.1.2
              0 (Some 3%positive) (Some 4%positive) false)
    as (_ & _ & _ & Hagain & _); [unfold dev_valid; simpl; lia|].
  exact (Hagain eq_refl (ex_intro _ 2%positive eq_refl)).
Defined.

End BufferInstances.



(** ** Kernel launches of one task *)

Section LaunchFacts.
Context `{Env}.

Lemma launch_depths_app (p : kernel_name -> bool) (l1 l2 : list cuda_call) :
  launch_depths p (l1 ++ l2) = launch_depths p l1 ++ launch_depths p l2.
Proof. apply omap_app. Qed.




Lemma send_no_launch (p : kernel_name -> bool) (pm : pgstrom_multirels)
    (dev stream : nat) (ev_new : CUevent) :
  launch_depths p (multirels_send_buffer pm dev stream ev_new).2 = [].
Proof.
  unfold multirels_send_buffer.
  destruct (dev_ev_loaded pm dev); [reflexivity|]. simpl.
  induction (take (Z.to_nat (kern_nrels pm))
                  (zip (inner_chunks pm) (kern_chunks pm)))
    as [|[pds c] l IH]; [reflexivity|exact IH].
Qed.











Lemma launch_all_depths_eq (gjs : GpuJoinState) (pm : pgstrom_multirels)
    (pgjoin : pgstrom_gpujoin) :
  launch_all_depths gjs pm pgjoin =
    concat (map (launch_depth gjs pm pgjoin) (depth_range gjs)).
Proof. unfold launch_all_depths, depth_range. rewrite map_map. reflexivity. Qed.

Lemma depth_range_In (gjs : GpuJoinState) (d : Z) :
  In d (depth_range gjs) <->
  outer_join_start_depth gjs <= d <= num_rels gjs.
Proof.
  unfold depth_range. rewrite in_map_iff. split.
  - intros (k & <- & Hk). apply in_seq in Hk. lia.
  - intros Hd. exists (Z.to_nat (d - outer_join_start_depth gjs)).
    split; [lia|]. apply in_seq. lia.
Qed.




(** At a right or full outer join the sweep kernel of the depth is among
    the launches of the depth, whatever the task. *)
Lemma sweep_launched_in_depth (gjs : GpuJoinState) (pm : pgstrom_multirels)
    (pgjoin : pgstrom_gpujoin) (depth : Z) (istate : innerState) :
  inners gjs !! Z.to_nat (depth - 1) = Some istate ->
  join_type istate = JOIN_RIGHT \/ join_type istate = JOIN_FULL ->
  exists k,
    is_sweep k = true /\
    In (CuLaunchKernel k depth (cuda_stream pgjoin))
       (launch_depth gjs pm pgjoin depth).
Proof.
  intros Hist Hjt. unfold launch_depth. rewrite Hist.
  exists (if negb (hash_outer_keys istate) then gpujoin_outer_nestloop else gpujoin_outer_hashjoin).
  split; [destruct (hash_outer_keys istate); reflexivity|].
  right. apply in_or_app. right.
  destruct Hjt as [-> | ->]; apply in_or_app; right; left; reflexivity.
Qed.


(** The calls of a task that got its device buffer: transfers without any
    launch, then the launches of the depths, then the projection, then
    calls without any launch. *)
Lemma task_process_log (gjs : GpuJoinState) (pm : pgstrom_multirels)
    (pgjoin : pgstrom_gpujoin) (kg : CUdeviceptr) (ev_new : CUevent) :
  exists pre proj post,
    (__gpujoin_task_process gjs pm pgjoin (Some kg) ev_new).2 =
      pre ++
      launch_all_depths gjs
        (__gpujoin_task_process gjs pm pgjoin (Some kg) ev_new).1.1.2
        (__gpujoin_task_process gjs pm pgjoin (Some kg) ev_new).1.2 ++
      CuLaunchKernel proj (num_rels gjs + 1) (cuda_stream pgjoin) :: post /\
    is_projection proj = true /\
    (forall p, launch_depths p pre = []) /\
    (forall p, launch_depths p post = []) /\
    cuda_index (__gpujoin_task_process gjs pm pgjoin (Some kg) ev_new).1.2 =
      cuda_index pgjoin /\
    cuda_stream (__gpujoin_task_process gjs pm pgjoin (Some kg) ev_new).1.2 =
      cuda_stream pgjoin.
Proof.
  unfold __gpujoin_task_process.
  pose proof (fun p => send_no_launch p pm (cuda_index pgjoin)
                         (cuda_stream pgjoin) ev_new) as Hsend.
  destruct (multirels_send_buffer pm (cuda_index pgjoin) (cuda_stream pgjoin)
              ev_new) as [pm1 send].
  simpl in Hsend. cbn [fst snd].
  match goal with
  | |- context [?a :: send ++ ?dma ++ ?la ++ ?pj :: ?post] =>
      exists (a :: send ++ dma); eexists; exists post;
      split; [change (a :: send ++ dma ++ la ++ pj :: post)
                with ((a :: send) ++ dma ++ la ++ pj :: post);
              change (a :: send ++ dma) with ((a :: send) ++ dma);
              rewrite <- !app_assoc; reflexivity|]
  end.
  split; [destruct (pds_dst pgjoin) as [dst|];
          [destruct (k_format (kds dst))|]; reflexivity|].
  split; [|split; [|split]]; try reflexivity.
  intros p.
  change (launch_depths p
            ([GpuMemAlloc (cuda_index pgjoin) TaskBuffer
                (kresults_2_offset (kern pgjoin) +
                 kresults_2_offset (kern pgjoin) -
                 kresults_1_offset (kern pgjoin)) (Some kg)] ++
             send ++
             [CuMemcpyHtoDAsync (Some kg) 0 (kgjoin_head gjs)
                (cuda_stream pgjoin)] ++
             match pds_src pgjoin with
             | Some src =>
                 [CuMemcpyHtoDAsync (Some kg) 1 (k_length (kds src))
                    (cuda_stream pgjoin)]
             | None => []
             end ++
             match pds_dst pgjoin with
             | Some dst =>
                 [CuMemcpyHtoDAsync (Some kg) 2
                    (KERN_DATA_STORE_HEAD_LENGTH (kds dst))
                    (cuda_stream pgjoin)]
             | None => []
             end) = []).
  rewrite !launch_depths_app, Hsend.
  destruct (pds_src pgjoin); destruct (pds_dst pgjoin); reflexivity.
Qed.




End LaunchFacts.



(** ** Instances on the sample platform: kernel launches *)

Section LaunchInstances.
#[local] Existing Instance Sample.env.



End LaunchInstances.



(** * Further properties of the loader *)

Section LoadFacts.
Context `{Env}.

Lemma Zsum_alter (f : Z -> Z) (c : Z) (l : list Z) (i : nat) :
  (forall x, f x = x + c) ->
  (i < length l)%nat ->
  Zsum (alter f i l) = Zsum l + c.
Proof.
  intros Hf. unfold Zsum. revert i.
  induction l as [|x l IH]; intros i Hi; simpl in Hi.
  - lia.
  - destruct i as [|i]; simpl.
    + rewrite Hf. lia.
    + specialize (IH i ltac:(lia)). unfold alter in IH. lia.
Qed.

Lemma begin_hgram_ok (ist : innerState) (shift : Z) :
  4 <= shift < 32 -> hgram_ok (begin_hgram ist shift).
Proof.
  intros Hshift. unfold hgram_ok, begin_hgram. simpl.
  assert (Hwidth : wrap32 (Z.shiftl 1 shift) = 2 ^ shift).
  { rewrite Z.shiftl_1_l. apply wrap32_small. split.
    - apply Z.pow_nonneg. lia.
    - apply Z.pow_lt_mono_r; lia. }
  rewrite Hwidth, !length_replicate.
  rewrite (wrap32_small (32 - shift)) by lia.
  split; [lia|]. split; [|auto].
  rewrite <- Z.pow_add_r by lia. f_equal. lia.
Qed.

Lemma hgram_index_bound (ist : innerState) (hash : Z) :
  hgram_ok ist ->
  0 <= hash < 2 ^ 32 ->
  (Z.to_nat (Z.shiftr hash (hgram_shift ist)) < Z.to_nat (hgram_width ist))%nat.
Proof.
  intros (Hshift & Htile & _) Hhash.
  rewrite Z.shiftr_div_pow2 by lia.
  assert (Hpow : 0 < 2 ^ hgram_shift ist) by (apply Z.pow_pos_nonneg; lia).
  assert (Hq : 0 <= hash / 2 ^ hgram_shift ist < hgram_width ist).
  { split; [apply Z.div_pos; lia|].
    apply Z.div_lt_upper_bound; [exact Hpow|]. lia. }
  lia.
Qed.

Lemma hash_try_insert_counts (retry : innerState -> option (innerState * Z))
    (ist ist' : innerState) (tup : HeapTuple) (c tu tu' : Z) :
  (forall ist1 ist2 tu2,
     retry ist1 = Some (ist2, tu2) ->
     tu2 = tu + c /\ ntuples ist2 = ntuples ist1 + 1 /\
     upstream ist2 = upstream ist1 /\
     hgram_size ist2 = hgram_size ist1 /\
     hgram_nitems ist2 = hgram_nitems ist1 /\
     hgram_shift ist2 = hgram_shift ist1 /\
     hgram_width ist2 = hgram_width ist1) ->
  hash_try_insert retry ist tup c tu = Some (ist', tu') ->
  tu' = tu + c /\ ntuples ist' = ntuples ist + 1 /\
  upstream ist' = upstream ist /\
  hgram_size ist' = hgram_size ist /\
  hgram_nitems ist' = hgram_nitems ist /\
  hgram_shift ist' = hgram_shift ist /\
  hgram_width ist' = hgram_width ist.
Proof.
  intros Hretry Htry. unfold hash_try_insert in Htry.
  destruct (last (pds_list ist)) as [pds_hash|]; [|discriminate].
  destruct (pgstrom_data_store_insert_hashitem pds_hash tup (t_hash tup)).
  - injection Htry as <- <-. simpl. auto 10.
  - apply Hretry in Htry. exact Htry.
Qed.

Lemma hash_preload_retry_counts (fuel : nat) (tup : HeapTuple) (c tu : Z) :
  forall (ist ist' : innerState) (tu' : Z),
    hash_preload_retry fuel ist tup c tu = Some (ist', tu') ->
    tu' = tu + c /\ ntuples ist' = ntuples ist + 1 /\
    upstream ist' = upstream ist /\
    hgram_size ist' = hgram_size ist /\
    hgram_nitems ist' = hgram_nitems ist /\
    hgram_shift ist' = hgram_shift ist /\
    hgram_width ist' = hgram_width ist.
Proof.
  induction fuel as [|fuel IH]; intros ist ist' tu' Hrun; [discriminate|].
  simpl in Hrun.
  destruct (tupstore ist) as [rows|].
  { injection Hrun as <- <-. simpl. auto 10. }
  destruct ((pds_limit ist >? 0) && (pds_limit ist <=? consumed ist + c)).
  - destruct (last (pds_list ist)) as [pds_hash|]; [|discriminate].
    destruct (join_type ist).
    all: try (apply hash_try_insert_counts in Hrun;
              [exact Hrun|intros ? ? ? Hr; apply IH in Hr; exact Hr]).
    all: apply IH in Hrun; exact Hrun.
  - apply hash_try_insert_counts in Hrun;
      [exact Hrun|intros ? ? ? Hr; apply IH in Hr; exact Hr].
Qed.

(** A call that finds a row returns at its first pass when the depth is
    spilling to a tuplestore, and when the chunk the row goes to (the last
    chunk, or the one created for a depth that has none) takes the row
    within the budget. *)
Lemma hash_preload_returns (fuel : nat) (ist : innerState) (tu cons : Z)
    (tup : HeapTuple) (rest rows : list HeapTuple)
    (pds_hash pds' : pgstrom_data_store) :
  upstream ist = tup :: rest ->
  tupstore ist = Some rows \/
  (tupstore ist = None /\
   ((last (pds_list ist) = Some pds_hash /\ cons = consumed ist) \/
    (pds_list ist = [] /\
     pds_hash =
       pgstrom_create_data_store_hash
         (Max (ichunk_size ist) (pgstrom_chunk_size / 4)) (hash_nslots ist) /\
     cons = KERN_DATA_STORE_HEAD_LENGTH (kds pds_hash))) /\
   (pds_limit ist <= 0 \/ cons + hash_consumption tup < pds_limit ist) /\
   pgstrom_data_store_insert_hashitem pds_hash tup (t_hash tup) =
     Some pds') ->
  exists ist1 tu1,
    gpujoin_inner_hash_preload (S fuel) ist tu = Some (OK (true, ist1, tu1)).
Proof.
  intros Hup Hcase. unfold gpujoin_inner_hash_preload. rewrite Hup.
  destruct Hcase as [Hts|(Hts & Hchunk & Hbudget & Hins)].
  - assert (Hsame : forall A (x y : A),
              match pds_list ist, tupstore ist with
              | [], None => x
              | _, _ => y
              end = y).
    { intros A x y. rewrite Hts. destruct (pds_list ist); reflexivity. }
    cbn [pds_list tupstore with_loader]. rewrite Hsame.
    cbn [hash_preload_retry hgram_update with_loader tupstore].
    rewrite Hts. eauto.
  - assert (Hnot : (pds_limit ist >? 0) &&
                   (pds_limit ist <=? cons + hash_consumption tup) = false).
    { destruct Hbudget as [Hno|Hroom].
      - destruct (Z.gtb_spec (pds_limit ist) 0); [lia|reflexivity].
      - destruct (Z.leb_spec (pds_limit ist) (cons + hash_consumption tup));
          [lia|]. apply andb_false_r. }
    destruct Hchunk as [[Hlast ->]|(Hnil & -> & ->)].
    + destruct (pds_list ist) as [|pds0 pl] eqn:Hpl; [discriminate|].
      cbn [pds_list tupstore with_loader].
      cbn [hash_preload_retry hgram_update with_loader tupstore pds_limit
           consumed pds_list].
      rewrite Hts, Hnot. unfold hash_try_insert.
      change (pds_list (hgram_update _ _ _)) with (pds0 :: pl).
      rewrite Hlast, Hins. eauto.
    + rewrite Hnil.
      cbn [pds_list tupstore with_loader]. rewrite Hts.
      cbn [hash_preload_retry hgram_update with_loader tupstore pds_limit
           consumed pds_list upstream ichunk_size hash_nslots].
      rewrite Hnot. unfold hash_try_insert.
      change (last (pds_list (hgram_update _ _ _)))
        with (Some (pgstrom_create_data_store_hash
                      (Max (ichunk_size ist) (pgstrom_chunk_size / 4))
                      (hash_nslots ist))).
      cbv beta iota. rewrite Hins. eauto.
Qed.

(** X1.  The histogram of a hash-join depth accounts for every row the
    depth takes.  The geometry gpujoin_begin sets up has one cell per
    bucket and buckets that tile the 32-bit hash space.  With such a
    geometry, whenever a call of gpujoin_inner_hash_preload that finds a
    row upstream returns, it has taken exactly that row, reports that there
    may be more, has counted one row and the row's bytes, and has added the
    row's bytes and one item to the histogram cell of the row's hash value,
    which lies inside the histogram.  The call does return, at its first
    pass, when the depth is spilling to a tuplestore and when the chunk
    the row goes to (the last chunk, or the one created for a depth that
    has none) takes the row within the budget. *)
Theorem histogram_accounts_for_every_row
    (fuel : nat) (ist0 ist ist' : innerState) (shift tu tu' cons : Z)
    (more : bool) (tup : HeapTuple) (rest rows : list HeapTuple)
    (pds_hash pds' : pgstrom_data_store) :
  (4 <= shift < 32 -> hgram_ok (begin_hgram ist0 shift)) /\
  (hgram_ok ist ->
   upstream ist = tup :: rest ->
   0 <= t_hash tup < 2 ^ 32 ->
   gpujoin_inner_hash_preload fuel ist tu = Some (OK (more, ist', tu')) ->
   more = true /\ upstream ist' = rest /\
   ntuples ist' = ntuples ist + 1 /\
   tu' = tu + hash_consumption tup /\
   hgram_ok ist' /\
   (Z.to_nat (Z.shiftr (t_hash tup) (hgram_shift ist))
    < length (hgram_size ist))%nat /\
   hgram_size ist' =
     alter (Z.add (hash_consumption tup))
           (Z.to_nat (Z.shiftr (t_hash tup) (hgram_shift ist)))
           (hgram_size ist) /\
   hgram_nitems ist' =
     alter (Z.add 1)
           (Z.to_nat (Z.shiftr (t_hash tup) (hgram_shift ist)))
           (hgram_nitems ist) /\
   Zsum (hgram_size ist') = Zsum (hgram_size ist) + hash_consumption tup /\
   Zsum (hgram_nitems ist') = Zsum (hgram_nitems ist) + 1) /\
  (upstream ist = tup :: rest ->
   tupstore ist = Some rows \/
   (tupstore ist = None /\
    ((last (pds_list ist) = Some pds_hash /\ cons = consumed ist) \/
     (pds_list ist = [] /\
      pds_hash =
        pgstrom_create_data_store_hash
          (Max (ichunk_size ist) (pgstrom_chunk_size / 4))
          (hash_nslots ist) /\
      cons = KERN_DATA_STORE_HEAD_LENGTH (kds pds_hash))) /\
    (pds_limit ist <= 0 \/ cons + hash_consumption tup < pds_limit ist) /\
    pgstrom_data_store_insert_hashitem pds_hash tup (t_hash tup) =
      Some pds') ->
   exists ist1 tu1,
     gpujoin_inner_hash_preload (S fuel) ist tu =
       Some (OK (true, ist1, tu1))).
Proof.
  split; [apply begin_hgram_ok|].
  split; [|intros Hup Hcase;
           exact (hash_preload_returns fuel ist tu cons tup rest rows
                    pds_hash pds' Hup Hcase)].
  intros Hok Hup Hhash Hcall.
  pose proof (hgram_index_bound ist (t_hash tup) Hok Hhash) as Hindex.
  destruct Hok as (Hshift & Htile & Hlen1 & Hlen2).
  unfold gpujoin_inner_hash_preload in Hcall. rewrite Hup in Hcall.
  match type of Hcall with
  | match hash_preload_retry _ ?i _ _ _ with _ => _ end = _ =>
      set (ist2 := i) in Hcall
  end.
  destruct (hash_preload_retry fuel ist2 tup (hash_consumption tup) tu)
    as [[ist3 tu3]|] eqn:Hretry; [|discriminate].
  injection Hcall as <- <- <-.
  apply hash_preload_retry_counts in Hretry
    as (Htu & Hnt & Hups & Hsize & Hnitems & Hsh & Hw).
  assert (Hfacts :
    upstream ist2 = rest /\ ntuples ist2 = ntuples ist /\
    hgram_shift ist2 = hgram_shift ist /\
    hgram_width ist2 = hgram_width ist /\
    hgram_size ist2 =
      alter (Z.add (hash_consumption tup))
            (Z.to_nat (Z.shiftr (t_hash tup) (hgram_shift ist)))
            (hgram_size ist) /\
    hgram_nitems ist2 =
      alter (Z.add 1)
            (Z.to_nat (Z.shiftr (t_hash tup) (hgram_shift ist)))
            (hgram_nitems ist)).
  { subst ist2. unfold hgram_update.
    destruct (pds_list ist); destruct (tupstore ist); simpl; auto 10. }
  destruct Hfacts as (Hup2 & Hnt2 & Hsh2 & Hw2 & Hsize2 & Hnitems2).
  rewrite Hups, Hup2, Hnt, Hnt2, Hsize, Hsize2, Hnitems, Hnitems2.
  split; [reflexivity|]. split; [reflexivity|]. split; [reflexivity|].
  split; [exact Htu|]. split.
  { unfold hgram_ok. rewrite Hsh, Hsh2, Hw, Hw2, Hsize, Hsize2,
      Hnitems, Hnitems2, !length_alter. auto. }
  split; [rewrite Hlen1; exact Hindex|].
  split; [reflexivity|]. split; [reflexivity|]. split.
  - apply Zsum_alter; [intros x; lia|]. rewrite Hlen1. exact Hindex.
  - apply Zsum_alter; [intros x; lia|]. rewrite Hlen2. exact Hindex.
Qed.


(** *** Rows read back from the tuplestore *)

Lemma ranges_chain_snoc (chunks : list pgstrom_data_store) (maxes : list Z)
    (pds : pgstrom_data_store) (m : Z) :
  forall lo next : Z,
    ranges_chain lo chunks maxes next ->
    k_hash_min (kds pds) = next ->
    k_hash_max (kds pds) = m ->
    ranges_chain lo (chunks ++ [pds]) (maxes ++ [m]) (m + 1).
Proof.
  revert maxes. induction chunks as [|c chunks IH]; intros maxes lo next.
  - destruct maxes as [|m0 maxes]; simpl; [|tauto].
    intros -> Hmin Hmax. auto.
  - destruct maxes as [|m0 maxes]; simpl; [tauto|].
    intros (Hmin0 & Hmax0 & Hrest) Hmin Hmax.
    split; [exact Hmin0|]. split; [exact Hmax0|].
    apply (IH maxes (m0 + 1) next); assumption.
Qed.

Lemma wrap32_range (z : Z) : 0 <= wrap32 z < 2 ^ 32.
Proof. unfold wrap32. apply Z.mod_pos_bound. lia. Qed.

Lemma ts_step_chain (ist : innerState) (i sz ni : Z) (st st1 : ts_loop) :
  ts_step ist i sz ni st = OK st1 ->
  Forall (fun m => m < UINT_MAX) (ts_hash_max_list st1) ->
  ranges_chain 0 (ts_pds_list st) (ts_hash_max_list st) (ts_hash_min st) ->
  ranges_chain 0 (ts_pds_list st1) (ts_hash_max_list st1) (ts_hash_min st1).
Proof.
  unfold ts_step, ts_cut. intros Hstep Hmax Hchain.
  destruct (ts_curr_size st + sz >? pds_limit ist).
  - destruct (ts_curr_size st =? 0); simpl in Hstep; [discriminate|].
    injection Hstep as <-. simpl in *.
    apply Forall_app in Hmax as [_ Hlast].
    apply Forall_cons in Hlast as [Hlt _].
    match type of Hlt with
    | ?m < UINT_MAX =>
        pose proof (wrap32_range
                      ((i + 1) * wrap32 (Z.shiftl 1 (hgram_shift ist)) - 1))
          as Hrange;
        set (hash_max := m) in *
    end.
    rewrite (wrap32_small (hash_max + 1)) by (unfold UINT_MAX in Hlt; lia).
    apply (ranges_chain_snoc _ _ _ _ 0 (ts_hash_min st)); auto.
  - simpl in Hstep. injection Hstep as <-. exact Hchain.
Qed.

Lemma ts_loop_from_chain (ist : innerState) (bs : list (Z * Z)) :
  forall (i : Z) (st st' : ts_loop),
    ts_loop_from ist i bs st = OK st' ->
    Forall (fun m => m < UINT_MAX) (ts_hash_max_list st') ->
    ranges_chain 0 (ts_pds_list st) (ts_hash_max_list st) (ts_hash_min st) ->
    ranges_chain 0 (ts_pds_list st') (ts_hash_max_list st') (ts_hash_min st').
Proof.
  induction bs as [|[sz ni] bs IH]; intros i st st' Hloop Hmax Hchain;
    simpl in Hloop.
  - injection Hloop as <-. exact Hchain.
  - destruct (ts_step ist i sz ni st) as [st1|msg] eqn:Hstep;
      simpl in Hloop; [|discriminate].
    apply (IH (i + 1) st1 st' Hloop Hmax).
    apply (ts_step_chain ist i sz ni st st1 Hstep); [|exact Hchain].
    destruct (ts_loop_from_maxes _ _ _ _ _ Hloop) as [l Hl].
    rewrite Hl in Hmax. apply Forall_app in Hmax as [Hmax _]. exact Hmax.
Qed.

Lemma ts_route_chain (tup : HeapTuple) (chunks : list pgstrom_data_store) :
  forall (maxes : list Z) (lo next : Z),
    ranges_chain lo chunks maxes next ->
    lo <= t_hash tup < next ->
    match ts_route chunks maxes tup with
    | OK chunks' =>
        exists k pds pds',
          chunks !! k = Some pds /\
          in_hash_range (t_hash tup) pds = true /\
          pgstrom_data_store_insert_hashitem pds tup (t_hash tup) = Some pds' /\
          chunks' = <[k := pds']> chunks
    | ERROR msg =>
        msg = "Bug? GpuHashJoin Histgram was not correct"%string /\
        exists k pds,
          chunks !! k = Some pds /\
          in_hash_range (t_hash tup) pds = true /\
          pgstrom_data_store_insert_hashitem pds tup (t_hash tup) = None
    end.
Proof.
  induction chunks as [|pds chunks IH]; intros maxes lo next Hchain Hhash.
  - destruct maxes; simpl in Hchain; [lia|tauto].
  - destruct maxes as [|m maxes]; simpl in Hchain; [tauto|].
    destruct Hchain as (Hmin & Hmax & Hrest). simpl.
    destruct (Z.leb_spec (t_hash tup) m) as [Hle|Hgt].
    + assert (Hin : in_hash_range (t_hash tup) pds = true).
      { unfold in_hash_range. rewrite Hmin, Hmax.
        apply andb_true_intro. split; apply Z.leb_le; lia. }
      destruct (pgstrom_data_store_insert_hashitem pds tup (t_hash tup))
        as [pds'|] eqn:Hins.
      * exists 0%nat, pds, pds'. auto.
      * split; [reflexivity|]. exists 0%nat, pds. auto.
    + specialize (IH maxes (m + 1) next Hrest ltac:(lia)).
      destruct (ts_route chunks maxes tup) as [rest|msg]; simpl.
      * destruct IH as (k & q & q' & Hk & Hin & Hins & ->).
        exists (S k), q, q'. auto.
      * destruct IH as (-> & k & q & Hk & Hin & Hins).
        split; [reflexivity|]. exists (S k), q. auto.
Qed.

(** X2.  The routing loop of gpujoin_inner_hash_preload_TS never drops the
    row it is given and never puts it into a chunk of another hash range:
    whenever no chunk before the last received [UINT_MAX] as its upper
    bound, the row is inserted into a chunk whose recorded range contains
    its hash value, all other chunks staying as they are, or, if that chunk
    does not take it, the load stops with the error "Bug? GpuHashJoin
    Histgram was not correct". *)
Theorem spilled_row_goes_to_the_chunk_of_its_range
    (ist : innerState) (st : ts_loop) (tup : HeapTuple) :
  ts_loop_from ist 0 (hgram_buckets ist) ts_init = OK st ->
  Forall (fun m => m < UINT_MAX) (ts_hash_max_list st) ->
  0 <= t_hash tup <= UINT_MAX ->
  ts_partition ist = OK (ts_last_chunk ist st) /\
  match ts_route (ts_pds_list (ts_last_chunk ist st))
                 (ts_hash_max_list (ts_last_chunk ist st)) tup with
  | OK chunks' =>
      exists k pds pds',
        ts_pds_list (ts_last_chunk ist st) !! k = Some pds /\
        in_hash_range (t_hash tup) pds = true /\
        pgstrom_data_store_insert_hashitem pds tup (t_hash tup) = Some pds' /\
        chunks' = <[k := pds']> (ts_pds_list (ts_last_chunk ist st))
  | ERROR msg =>
      msg = "Bug? GpuHashJoin Histgram was not correct"%string /\
      exists k pds,
        ts_pds_list (ts_last_chunk ist st) !! k = Some pds /\
        in_hash_range (t_hash tup) pds = true /\
        pgstrom_data_store_insert_hashitem pds tup (t_hash tup) = None
  end.
Proof.
  intros Hloop Hmax Hhash.
  split; [unfold ts_partition; rewrite Hloop; reflexivity|].
  apply (ts_route_chain tup _ _ 0 (UINT_MAX + 1)); [|lia].
  unfold ts_last_chunk. simpl.
  apply (ranges_chain_snoc _ _ _ _ 0 (ts_hash_min st)); [|reflexivity..].
  apply (ts_loop_from_chain ist (hgram_buckets ist) 0 ts_init st Hloop Hmax).
  reflexivity.
Qed.


(** *** The round-robin load of all depths *)

Lemma hash_preload_done (fuel : nat) (ist ist' : innerState) (tu tu' : Z) :
  gpujoin_inner_hash_preload fuel ist tu = Some (OK (false, ist', tu')) ->
  depth_loaded ist'.
Proof.
  unfold gpujoin_inner_hash_preload, depth_loaded.
  destruct (upstream ist) as [|tup rest] eqn:Hup.
  - intros Hcall. injection Hcall as Hcall.
    destruct (tupstore ist) as [rows|].
    + unfold gpujoin_inner_hash_preload_TS in Hcall.
      destruct (ts_partition ist) as [st|]; simpl in Hcall; [|discriminate].
      destruct (ts_load _ _ rows) as [chunks|]; simpl in Hcall;
        [|discriminate].
      injection Hcall as <- _.
      destruct (map pgstrom_shrink_data_store chunks); simpl;
        split; solve [discriminate | exact Hup].
    + simpl in Hcall. injection Hcall as <- _.
      destruct (pds_list ist) eqn:Hlist; simpl;
        split; solve [discriminate | exact Hup | rewrite Hlist; discriminate].
  - intros Hcall.
    destruct (hash_preload_retry _ _ _ _ _) as [[ist3 tu3]|];
      discriminate.
Qed.

Lemma heap_preload_done (fuel : nat) (ist ist' : innerState) (tu tu' : Z) :
  gpujoin_inner_heap_preload fuel ist tu = Some (OK (false, ist', tu')) ->
  depth_loaded ist'.
Proof.
  unfold gpujoin_inner_heap_preload, depth_loaded.
  destruct (upstream ist) as [|tup rest] eqn:Hup.
  - intros Hcall. injection Hcall as <- _.
    destruct (pds_list ist) eqn:Hlist; simpl;
      split; solve [discriminate | exact Hup | rewrite Hlist; discriminate].
  - intros Hcall.
    repeat match type of Hcall with
           | match ?c with _ => _ end = _ => destruct c; try discriminate
           end.
Qed.

Lemma preload_one_done (fuel : nat) (ist ist' : innerState) (tu tu' : Z) :
  preload_one fuel ist tu = Some (OK (false, ist', tu')) ->
  depth_loaded ist'.
Proof.
  unfold preload_one. destruct (hash_inner_keys ist).
  - apply hash_preload_done.
  - apply heap_preload_done.
Qed.

Lemma preload_pass_inv (fuel : nat) (istate_buf : list nat) :
  forall (inners inners' : list innerState) (tu tu' : Z) (kept : list nat),
    List.NoDup istate_buf ->
    preload_pass fuel istate_buf inners tu = Some (OK (kept, inners', tu')) ->
    length inners' = length inners /\
    List.NoDup kept /\
    (forall k, In k kept -> In k istate_buf) /\
    (forall k, ~ In k istate_buf -> inners' !! k = inners !! k) /\
    (forall k, In k istate_buf -> ~ In k kept ->
       exists ist, inners' !! k = Some ist /\ depth_loaded ist).
Proof.
  induction istate_buf as [|k buf IH];
    intros inners inners' tu tu' kept Hnodup Hpass; simpl in Hpass.
  - injection Hpass as <- <- <-.
    split; [reflexivity|]. split; [constructor|].
    split; [tauto|]. split; [reflexivity|]. intros k [].
  - destruct (inners !! k) as [ist|] eqn:Hk; [|discriminate].
    destruct (preload_one fuel ist tu) as [[[[more ist1] tu1]|msg]|] eqn:Hone;
      simpl in Hpass; try discriminate.
    destruct (preload_pass fuel buf (<[k:=ist1]> inners) tu1)
      as [[[[kept1 inners1] tu2]|msg]|] eqn:Hrest;
      simpl in Hpass; try discriminate.
    injection Hpass as <- <- <-.
    apply NoDup_cons_iff in Hnodup as [Hfresh Hnodup].
    destruct (IH _ _ _ _ _ Hnodup Hrest)
      as (Hlen & Hnd & Hsub & Hsame & Hdone).
    rewrite length_insert in Hlen.
    assert (Hat : inners1 !! k = Some ist1).
    { rewrite (Hsame k Hfresh). apply list_lookup_insert_eq.
      apply lookup_lt_Some in Hk. exact Hk. }
    split; [exact Hlen|]. split; [|split; [|split]].
    + destruct more; [|exact Hnd].
      apply NoDup_cons_iff. split; [|exact Hnd].
      intros Hin. apply Hfresh, Hsub, Hin.
    + intros j Hj. destruct more; [destruct Hj as [<-|Hj]|];
        simpl; auto.
    + intros j Hj. rewrite Hsame by (simpl in Hj; tauto).
      apply list_lookup_insert_ne. simpl in Hj. intros ->. tauto.
    + intros j [<-|Hj] Hnot.
      * exists ist1. split; [exact Hat|].
        destruct more; [exfalso; apply Hnot; left; reflexivity|].
        apply (preload_one_done fuel ist ist1 tu tu1 Hone).
      * apply Hdone; [exact Hj|].
        intros Hin. apply Hnot. destruct more; [right|]; exact Hin.
Qed.

Lemma fix_pds_limit_lookup (inners : list innerState) (k : nat)
    (ist : innerState) :
  inners !! k = Some ist ->
  fix_pds_limit inners !! k = Some (set_pds_limit ist (consumed ist)).
Proof.
  intros Hk. unfold fix_pds_limit.
  rewrite list_lookup_fmap, Hk. reflexivity.
Qed.

Lemma preload_loop_inv (fuel : nat) :
  forall (istate_buf : list nat) (inners inners' : list innerState)
         (tu limit : Z) (fixed fixed' : bool),
    List.NoDup istate_buf ->
    (forall k, (k < length inners)%nat -> ~ In k istate_buf ->
       exists ist, inners !! k = Some ist /\ depth_loaded ist) ->
    preload_loop fuel istate_buf inners tu limit fixed =
      Some (OK (inners', fixed')) ->
    length inners' = length inners /\
    Forall depth_loaded inners'.
Proof.
  induction fuel as [|fuel IH];
    intros buf inners inners' tu limit fixed fixed' Hnodup Hdone Hloop.
  - destruct buf; simpl in Hloop; [|discriminate].
    injection Hloop as <- <-. split; [reflexivity|].
    apply Forall_lookup. intros k ist Hk.
    destruct (Hdone k) as (ist0 & Hk0 & Hl); [|tauto|congruence].
    apply lookup_lt_Some in Hk. exact Hk.
  - destruct buf as [|b buf].
    { simpl in Hloop. injection Hloop as <- <-. split; [reflexivity|].
      apply Forall_lookup. intros k ist Hk.
      destruct (Hdone k) as (ist0 & Hk0 & Hl); [|tauto|congruence].
      apply lookup_lt_Some in Hk. exact Hk. }
    cbn [preload_loop] in Hloop.
    destruct (preload_pass (S fuel) (b :: buf) inners tu)
      as [[[[kept inners1] tu1]|msg]|] eqn:Hpass;
      simpl in Hloop; try discriminate.
    destruct (preload_pass_inv _ _ _ _ _ _ _ Hnodup Hpass)
      as (Hlen & Hnd & Hsub & Hsame & Hpassed).
    assert (Hdone1 : forall k, (k < length inners1)%nat -> ~ In k kept ->
              exists ist, inners1 !! k = Some ist /\ depth_loaded ist).
    { intros k Hk Hnot.
      destruct (in_dec Nat.eq_dec k (b :: buf)) as [Hin|Hout].
      - apply Hpassed; assumption.
      - rewrite (Hsame k Hout). apply Hdone; [lia|exact Hout]. }
    destruct (negb fixed && (tu1 >=? limit)).
    + apply IH in Hloop; [|exact Hnd|].
      * unfold fix_pds_limit in Hloop at 1. rewrite length_map in Hloop.
        destruct Hloop as [Hl Hall]. split; [lia|exact Hall].
      * intros k Hk Hnot. unfold fix_pds_limit in Hk.
        rewrite length_map in Hk.
        destruct (Hdone1 k Hk Hnot) as (ist & Hist & Hl1 & Hl2).
        exists (set_pds_limit ist (consumed ist)).
        split; [apply fix_pds_limit_lookup; exact Hist|].
        split; assumption.
    + apply IH in Hloop; [|exact Hnd|exact Hdone1].
      destruct Hloop as [Hl Hall]. split; [lia|exact Hall].
Qed.

(** X3.  Once gpujoin_inner_preload has loaded the inner relations, every depth
    has delivered all its rows and has at least one chunk, also a depth
    whose relation is empty; its odometer index is 1 and [nbatches_exec] is
    the number of its chunks, which is positive. *)
Theorem every_loaded_depth_has_a_chunk
    (fuel : nat) (num_rels : Z) (inners inners' : list innerState) :
  Z.of_nat (length inners) = num_rels ->
  inner_load_all fuel num_rels inners = Some (OK inners') ->
  length inners' = length inners /\
  Forall (fun ist =>
            pds_list ist <> [] /\ upstream ist = [] /\
            pds_index ist = 1 /\
            nbatches_exec ist = Z.of_nat (length (pds_list ist)) /\
            0 < nbatches_exec ist)
         inners'.
Proof.
  intros Hnum Hload. unfold inner_load_all in Hload.
  destruct (preload_loop fuel (seq 0 (Z.to_nat num_rels)) inners _ _ false)
    as [[[inners1 fixed]|msg]|] eqn:Hloop; simpl in Hload; try discriminate.
  injection Hload as <-.
  apply preload_loop_inv in Hloop as [Hlen Hall].
  - assert (Hall2 : Forall depth_loaded
                      (if fixed then inners1 else fix_pds_limit inners1)).
    { destruct fixed; [exact Hall|].
      unfold fix_pds_limit. apply Forall_fmap.
      eapply Forall_impl; [exact Hall|]. intros ist Hl. exact Hl. }
    assert (Hlen2 : length (if fixed then inners1 else fix_pds_limit inners1)
                    = length inners).
    { destruct fixed; [exact Hlen|].
      unfold fix_pds_limit. rewrite length_map. exact Hlen. }
    unfold init_pds_index. rewrite length_map. split; [exact Hlen2|].
    apply Forall_fmap. eapply Forall_impl; [exact Hall2|].
    intros ist [Hne Hup]. simpl.
    split; [exact Hne|]. split; [exact Hup|]. split; [reflexivity|].
    split; [reflexivity|]. destruct (pds_list ist); [tauto|simpl; lia].
  - apply List.seq_NoDup.
  - intros k Hk Hnot. exfalso. apply Hnot. apply in_seq. lia.
Qed.

End LoadFacts.



(** * Further properties of the shared buffer *)

Section WindowFacts.
Context `{Env}.

Lemma ranges_packed_snoc (ranges : list (Z * Z)) (offset len : Z) :
  forall from limit limit' : Z,
    ranges_packed from ranges limit ->
    limit <= offset ->
    offset + len <= limit' ->
    ranges_packed from (ranges ++ [(offset, len)]) limit'.
Proof.
  induction ranges as [|[o l] ranges IH]; intros from limit limit';
    simpl; intros Hpacked Hoff Hend.
  - split; lia.
  - destruct Hpacked as [Hfrom Hrest]. split; [exact Hfrom|].
    apply (IH _ limit); assumption.
Qed.

Lemma window_add_layout (ist : innerState) (pm pm' : pgstrom_multirels) :
  (forall x, x <= STROMALIGN x) ->
  window_add ist pm = Some pm' ->
  window_layout pm ->
  window_layout pm' /\
  head_length pm' = head_length pm /\
  kern_nrels pm' = kern_nrels pm /\
  m_kmrels pm' = m_kmrels pm /\
  ev_loaded pm' = ev_loaded pm /\
  length (inner_chunks pm') = S (length (inner_chunks pm)).
Proof.
  intros Halign Hadd [Hlen Hpacked]. unfold window_add in Hadd.
  destruct (pds_list ist) as [|pds rest]; [discriminate|].
  injection Hadd as <-. unfold window_layout, chunk_ranges. simpl.
  rewrite !length_app. simpl.
  split; [|repeat split; lia].
  split; [lia|].
  rewrite zip_with_app by exact Hlen. rewrite map_app. simpl.
  apply (ranges_packed_snoc _ _ _ _ (usage_length pm));
    [exact Hpacked|lia|].
  pose proof (Halign (k_length (kds pds))). lia.
Qed.

Lemma build_window_layout (ins : list innerState) :
  forall pm pm' : pgstrom_multirels,
    (forall x, x <= STROMALIGN x) ->
    build_window ins pm = Some pm' ->
    window_layout pm ->
    window_layout pm' /\
    head_length pm' = head_length pm /\
    kern_nrels pm' = kern_nrels pm /\
    m_kmrels pm' = m_kmrels pm /\
    ev_loaded pm' = ev_loaded pm /\
    length (inner_chunks pm') = (length (inner_chunks pm) + length ins)%nat.
Proof.
  induction ins as [|ist ins IH]; intros pm pm' Halign Hbuild Hlayout;
    simpl in Hbuild.
  - injection Hbuild as <-. repeat split; try apply Hlayout. simpl. lia.
  - destruct (window_add ist pm) as [pm1|] eqn:Hadd; [|discriminate].
    destruct (window_add_layout ist pm pm1 Halign Hadd Hlayout)
      as (Hl1 & Hh1 & Hn1 & Hm1 & He1 & Hc1).
    destruct (IH pm1 pm' Halign Hbuild Hl1)
      as (Hl & Hh & Hn & Hm & He & Hc).
    split; [exact Hl|]. simpl. repeat split; try congruence. lia.
Qed.

(** X4.  The first upload of a window writes inside the mirror and never twice
    to the same place.  For a window built by gpujoin_inner_preload, the
    copies multirels_send_buffer issues on a device that has no load event
    yet go to byte ranges that lie one after the other from offset 0 on and
    end within [usage_length], and [usage_length] is the size
    multirels_get_buffer asks the allocator for. *)
Theorem upload_stays_inside_the_mirror
    (gjs : GpuJoinState) (ins : list innerState) (pm : pgstrom_multirels)
    (dev stream : nat) (ev_new : CUevent)
    (a_kmrels a_ojmaps : option CUdeviceptr) :
  (forall x, x <= STROMALIGN x) ->
  0 <= offsetof_kmultirels_chunks (num_rels gjs) <=
    STROMALIGN (offsetof_pmrels_chunks (num_rels gjs)) ->
  Z.of_nat (length ins) = num_rels gjs ->
  build_window ins (gpujoin_create_multirels gjs) = Some pm ->
  dev_ev_loaded pm dev = None ->
  ranges_packed 0 (copy_ranges (multirels_send_buffer pm dev stream ev_new).2)
                (usage_length pm) /\
  (forall d len ret,
     In (GpuMemAlloc d Mirror len ret)
        (multirels_get_buffer pm dev a_kmrels a_ojmaps).2 ->
     d = dev /\ len = usage_length pm).
Proof.
  intros Halign Hhead Hlen Hbuild Hev.
  destruct (build_window_layout ins (gpujoin_create_multirels gjs) pm
              Halign Hbuild)
    as ([Hzip Hpacked] & Hh & Hn & _ & _ & Hc).
  { unfold window_layout, chunk_ranges. simpl. split; [reflexivity|lia]. }
  simpl in Hh, Hn, Hc. split.
  - unfold multirels_send_buffer. rewrite Hev.
    cbn [snd]. unfold copy_ranges. cbn [omap list_omap app].
    rewrite omap_app. cbn [omap list_omap].
    rewrite app_nil_r, Hn.
    rewrite take_ge by (rewrite length_zip_with, <- Hzip, Hc; lia).
    split; [lia|].
    assert (Hmap : forall l : list (pgstrom_data_store * kern_chunk),
      omap (fun c =>
              match c with
              | CuMemcpyHtoDAsync _ offset len _ => Some (offset, len)
              | _ => None
              end)
           (map (fun '(pds, c) =>
                   CuMemcpyHtoDAsync (dev_m_kmrels pm dev) (chunk_offset c)
                     (k_length (kds pds)) stream) l) =
      map (fun '(pds, c) => (chunk_offset c, k_length (kds pds))) l).
    { induction l as [|[pds c] l IH]; [reflexivity|].
      simpl. f_equal. exact IH. }
    rewrite Hmap. fold (chunk_ranges pm).
    revert Hpacked. rewrite Hh.
    generalize (chunk_ranges pm) as ranges. intros ranges.
    destruct ranges as [|[o l] ranges]; simpl; [lia|].
    intros [Hfrom Hrest]. split; [lia|exact Hrest].
  - intros d len ret Hin. unfold multirels_get_buffer in Hin.
    destruct (dev_refcnt pm dev =? 0); [|destruct Hin].
    destruct a_kmrels as [kmrels|]; simpl in Hin.
    + destruct (_ && _); [destruct a_ojmaps|]; simpl in Hin;
        repeat (destruct Hin as [Hin|Hin];
                [try discriminate; injection Hin as <- <- _; auto|]);
        try destruct Hin.
    + destruct Hin as [Hin|[]]. injection Hin as <- <- _. auto.
Qed.


(** X5.  multirels_get_buffer fails only on a device that holds no reference,
    when the allocator has no memory for the mirror or for a missing
    outer-join map; it then leaves the buffer as it was and frees what it
    had allocated.  When it succeeds it frees nothing, counts one more
    reference, hands out the pointers the buffer holds for the device, and
    every pointer it allocated is one of them. *)
Theorem get_buffer_leaks_nothing
    (pm : pgstrom_multirels) (dev : nat)
    (a_kmrels a_ojmaps : option CUdeviceptr) :
  dev_valid pm dev ->
  ((multirels_get_buffer pm dev a_kmrels a_ojmaps).1.1.1 = false ->
   (multirels_get_buffer pm dev a_kmrels a_ojmaps).1.1.2 = pm /\
   dev_refcnt pm dev = 0 /\
   (a_kmrels = None \/
    (a_ojmaps = None /\ ojmap_length pm > 0 /\ dev_m_ojmaps pm dev = None)) /\
   count_calls is_alloc (multirels_get_buffer pm dev a_kmrels a_ojmaps).2 =
   count_calls is_free (multirels_get_buffer pm dev a_kmrels a_ojmaps).2) /\
  ((multirels_get_buffer pm dev a_kmrels a_ojmaps).1.1.1 = true ->
   dev_refcnt (multirels_get_buffer pm dev a_kmrels a_ojmaps).1.1.2 dev =
     dev_refcnt pm dev + 1 /\
   (multirels_get_buffer pm dev a_kmrels a_ojmaps).1.2 =
     (dev_m_kmrels (multirels_get_buffer pm dev a_kmrels a_ojmaps).1.1.2 dev,
      dev_m_ojmaps (multirels_get_buffer pm dev a_kmrels a_ojmaps).1.1.2 dev) /\
   count_calls is_free (multirels_get_buffer pm dev a_kmrels a_ojmaps).2
     = 0%nat /\
   forall d kind len p,
     In (GpuMemAlloc d kind len (Some p))
        (multirels_get_buffer pm dev a_kmrels a_ojmaps).2 ->
     d = dev /\
     ((kind = Mirror /\
       dev_m_kmrels (multirels_get_buffer pm dev a_kmrels a_ojmaps).1.1.2 dev
         = Some p) \/
      (kind = OuterJoinMap /\
       dev_m_ojmaps (multirels_get_buffer pm dev a_kmrels a_ojmaps).1.1.2 dev
         = Some p))).
Proof.
  intros (Hv1 & Hv2 & Hv3 & Hv4). unfold multirels_get_buffer.
  destruct (Z.eqb_spec (dev_refcnt pm dev) 0) as [Hzero|Hheld].
  - destruct a_kmrels as [kmrels|].
    + destruct (Z.gtb_spec (ojmap_length pm) 0) as [Hoj|Hnone]; simpl.
      * destruct (dev_m_ojmaps pm dev) as [oj|] eqn:Hmap.
        -- rewrite bool_decide_eq_true_2 by eauto. simpl.
           split; [discriminate|]. intros _.
           unfold dev_refcnt, dev_m_kmrels, dev_m_ojmaps in *.
           cbn [refcnt m_kmrels m_ojmaps set_device].
           rewrite !default_lookup_insert by assumption.
           split; [reflexivity|]. split; [reflexivity|].
           split; [reflexivity|].
           intros d kind len p [Hin|[]]. injection Hin as <- <- _ <-. auto.
        -- rewrite bool_decide_eq_false_2 by (intros [? ?]; discriminate).
           simpl. destruct a_ojmaps as [ojmaps|]; simpl.
           ++ split; [discriminate|]. intros _.
              unfold dev_refcnt, dev_m_kmrels, dev_m_ojmaps in *.
              cbn [refcnt m_kmrels m_ojmaps set_device].
              rewrite !default_lookup_insert
                by (rewrite ?length_insert; assumption).
              split; [reflexivity|]. split; [reflexivity|].
              split; [reflexivity|].
              intros d kind len p [Hin|[Hin|[Hin|[]]]];
                try discriminate;
                injection Hin as <- <- _ <-; auto.
           ++ split; [|discriminate]. intros _.
              split; [reflexivity|]. split; [exact Hzero|].
              split; [right; repeat split; lia|reflexivity].
      * simpl.
        split; [discriminate|]. intros _.
        unfold dev_refcnt, dev_m_kmrels, dev_m_ojmaps in *.
        cbn [refcnt m_kmrels m_ojmaps set_device].
        rewrite !default_lookup_insert by assumption.
        split; [reflexivity|]. split; [reflexivity|].
        split; [reflexivity|].
        intros d kind len p [Hin|[]]. injection Hin as <- <- _ <-. auto.
    + simpl. split; [|discriminate]. intros _. auto.
  - simpl. split; [discriminate|]. intros _.
    unfold dev_refcnt, dev_m_kmrels, dev_m_ojmaps in *.
    cbn [refcnt m_kmrels m_ojmaps set_device].
    rewrite !default_lookup_insert by assumption.
    split; [reflexivity|]. split; [reflexivity|]. split; [reflexivity|].
    intros d kind len p [].
Qed.


Ltac buffer_simpl :=
  unfold dev_refcnt, dev_m_kmrels, dev_ev_loaded, dev_m_ojmaps, set_device,
         set_cuda in *;
  cbn [refcnt m_kmrels ev_loaded m_ojmaps fst snd cuda_index cuda_stream
       m_kgjoin task_m_kmrels task_m_ojmaps] in *;
  rewrite ?default_lookup_insert, ?length_insert by (assumption || lia).

(** X6.  A task that finds no device memory for its own buffer launches nothing
    and gives back what it took: gpujoin_task_process returns false, the
    device's reference count and mirror pointer are what they were before
    the call, and a mirror allocated during the call has been freed
    again. *)
Theorem task_without_device_memory_gives_the_mirror_back
    (gjs : GpuJoinState) (pm : pgstrom_multirels) (pgjoin : pgstrom_gpujoin)
    (a_kmrels a_ojmaps : option CUdeviceptr) (ev_new : CUevent) :
  dev_valid pm (cuda_index pgjoin) ->
  (dev_refcnt pm (cuda_index pgjoin) = 0 <->
   dev_m_kmrels pm (cuda_index pgjoin) = None) ->
  m_kgjoin pgjoin = None ->
  (gpujoin_task_process gjs pm pgjoin a_kmrels a_ojmaps None ev_new).1.1.1
    = false /\
  dev_refcnt
    (gpujoin_task_process gjs pm pgjoin a_kmrels a_ojmaps None ev_new).1.1.2
    (cuda_index pgjoin) = dev_refcnt pm (cuda_index pgjoin) /\
  dev_m_kmrels
    (gpujoin_task_process gjs pm pgjoin a_kmrels a_ojmaps None ev_new).1.1.2
    (cuda_index pgjoin) = dev_m_kmrels pm (cuda_index pgjoin) /\
  launch_depths any_kernel
    (gpujoin_task_process gjs pm pgjoin a_kmrels a_ojmaps None ev_new).2
    = [] /\
  count_calls is_mirror_alloc
    (gpujoin_task_process gjs pm pgjoin a_kmrels a_ojmaps None ev_new).2 =
  count_calls is_mirror_free
    (gpujoin_task_process gjs pm pgjoin a_kmrels a_ojmaps None ev_new).2.
Proof.
  intros (Hv1 & Hv2 & Hv3 & Hv4) Hzero Hkg.
  unfold gpujoin_task_process, multirels_get_buffer.
  destruct (Z.eqb_spec (dev_refcnt pm (cuda_index pgjoin)) 0) as [Hfree|Hheld].
  - assert (Hnone : dev_m_kmrels pm (cuda_index pgjoin) = None)
      by (apply Hzero; exact Hfree).
    destruct a_kmrels as [kmrels|]; [|simpl; auto].
    destruct ((ojmap_length pm >? 0) &&
              negb (bool_decide (is_Some (dev_m_ojmaps pm (cuda_index pgjoin)))));
      [destruct a_ojmaps as [ojmaps|]; [|simpl; auto]|].
    all: cbv zeta; unfold __gpujoin_task_process,
           gpujoin_cleanup_cuda_resources, multirels_put_buffer;
      buffer_simpl; rewrite Hkg;
      rewrite ?Hfree, ?Hnone;
      change (0 + 1 - 1 =? 0) with true; cbv iota; buffer_simpl;
      destruct (default None (ev_loaded pm !! cuda_index pgjoin));
      rewrite !default_lookup_insert by (rewrite ?length_insert; assumption);
      repeat split; reflexivity.
  - destruct (dev_m_kmrels pm (cuda_index pgjoin)) as [p|] eqn:Hp;
      [|exfalso; apply Hheld, Hzero; reflexivity].
    cbv zeta. unfold __gpujoin_task_process,
      gpujoin_cleanup_cuda_resources, multirels_put_buffer.
    buffer_simpl. rewrite Hkg, Hp. buffer_simpl.
    replace (default 0 (refcnt pm !! cuda_index pgjoin) + 1 - 1)
      with (default 0 (refcnt pm !! cuda_index pgjoin)) by lia.
    destruct (Z.eqb_spec (default 0 (refcnt pm !! cuda_index pgjoin)) 0);
      [tauto|].
    buffer_simpl.
    rewrite list_insert_insert_eq. buffer_simpl. simpl. auto.
Qed.

End WindowFacts.



(** * Further properties of the scheduler *)

Section ScanFacts.
Context `{Env}.

Lemma read_outer_window (gjs : GpuJoinState) :
  curr_pmrels (read_outer gjs).1 = curr_pmrels gjs /\
  multirels_heap (read_outer gjs).1 = multirels_heap gjs.
Proof.
  unfold read_outer.
  destruct (scan_bulk gjs); simpl.
  - destruct (outer_chunks (outer_node gjs)); split; reflexivity.
  - destruct (scan_overflow gjs) as [slot|].
    + destruct (pgstrom_data_store_insert_tuple _ slot) as [p'|].
      * destruct (outer_fill _ _) as [[[rows pds] done] ovf].
        split; reflexivity.
      * split; reflexivity.
    + destruct (outer_fill _ _) as [[[rows pds] done] ovf].
      split; reflexivity.
Qed.

(** X8.  What gpujoin_next_chunk hands out.  When it returns NULL the scan
    holds no window any more.  When it returns a task, the scan has a
    current window, which is in use, and the task is attached to that
    window, has an outer chunk and starts at its first row. *)
Theorem next_chunk_task_is_on_the_current_window (fuel : nat) :
  forall (gjs gjs' : GpuJoinState) (r : option pgstrom_gpujoin),
    gpujoin_next_chunk fuel gjs = Some (OK (gjs', r)) ->
    match r with
    | None => curr_pmrels gjs' = None
    | Some t =>
        exists cur src pm,
          curr_pmrels gjs' = Some cur /\
          multirels_heap gjs' !! cur = Some pm /\
          pmrels t = Some cur /\
          pds_src t = Some src /\
          oitems_base t = 0
    end.
Proof.
  induction fuel as [|fuel IH]; intros gjs gjs' r Hnext; [discriminate|].
  cbn [gpujoin_next_chunk] in Hnext.
  match type of Hnext with
  | fbind ?c _ = _ => destruct c as [[[gjs5 more]|msg]|] eqn:Hfirst
  end; simpl in Hnext; try discriminate.
  assert (Hmore : more = false -> curr_pmrels gjs5 = None).
  { intros ->.
    destruct (scan_done gjs || negb (bool_decide (is_Some (curr_pmrels gjs))));
      [|discriminate].
    destruct (gpujoin_inner_preload (S fuel) gjs)
      as [[[gjs1 pmrels_new]|msg]|]; simpl in Hfirst; try discriminate.
    destruct (curr_pmrels gjs1) as [cur|] eqn:Hcur.
    - destruct (multirels_detach_buffer gjs1 cur true)
        as [[[gjs2 log]|msg]|]; simpl in Hfirst; try discriminate.
      destruct pmrels_new; injection Hfirst as <-; [discriminate|].
      reflexivity.
    - simpl in Hfirst.
      destruct pmrels_new; injection Hfirst as <-; [discriminate|].
      exact Hcur. }
  destruct more.
  - pose proof (read_outer_window gjs5) as [Hwin Hheap].
    destruct (read_outer gjs5) as [gjs6 pds]. simpl in Hwin, Hheap.
    destruct pds as [p|]; [|apply (IH gjs6 gjs' r Hnext)].
    destruct (curr_pmrels gjs6) as [cur|] eqn:Hcur; [|discriminate].
    destruct (multirels_heap gjs6 !! cur) as [pm|] eqn:Hpm;
      [|unfold gpujoin_create_task in Hnext; rewrite Hpm in Hnext;
        discriminate].
    destruct (create_task_live gjs6 cur pm (Some p) 0 Hpm)
      as (res & Hcreate & Hres).
    rewrite Hcreate in Hnext.
    destruct res as [[gjs7 task]|msg]; simpl in Hnext; [|discriminate].
    injection Hnext as <- <-.
    destruct Hres as (-> & Hsrc & Hbase & Hpmrels & _).
    exists cur, p, (multirels_attach_buffer pm). simpl.
    rewrite lookup_insert_eq. repeat split; auto.
  - injection Hnext as <- <-. apply Hmore. reflexivity.
Qed.


Lemma alter_keeps_chunks (f : innerState -> innerState) (i : nat)
    (ins : list innerState) :
  (forall ist, pds_list (f ist) = pds_list ist) ->
  map pds_list (alter f i ins) = map pds_list ins.
Proof.
  intros Hf. revert i. induction ins as [|ist ins IH]; intros [|i]; simpl;
    try reflexivity.
  - rewrite Hf. reflexivity.
  - f_equal. apply IH.
Qed.

Lemma odometer_reset_keeps_chunks (n i : nat) :
  forall ins : list innerState,
    map pds_list (odometer_reset n i ins) = map pds_list ins.
Proof.
  induction n as [|n IH]; intros ins; simpl; [reflexivity|].
  rewrite IH. apply alter_keeps_chunks. reflexivity.
Qed.

(** X9.  The odometer reports the end of the inner scan exactly when every
    depth stands at its last chunk, and when it advances it changes
    indexes only: every depth keeps its list of chunks. *)
Theorem odometer_ends_when_every_depth_is_at_its_last_chunk
    (k num_rels : nat) (ins : list innerState) :
  (odometer_advance k num_rels ins = None <->
   forall i ist,
     (i < k)%nat -> ins !! i = Some ist ->
     Z.of_nat (length (pds_list ist)) <= pds_index ist) /\
  (forall ins',
     odometer_advance k num_rels ins = Some ins' ->
     map pds_list ins' = map pds_list ins).
Proof.
  induction k as [|k [IHnone IHsome]]; simpl.
  - split; [|discriminate]. split; [intros _ i ist Hi; lia|reflexivity].
  - destruct (ins !! k) as [ist|] eqn:Hk.
    + destruct (Z.ltb_spec (pds_index ist) (Z.of_nat (length (pds_list ist))))
        as [Hlt|Hge].
      * split.
        -- split; [discriminate|]. intros Hall.
           specialize (Hall k ist ltac:(lia) Hk). lia.
        -- intros ins' Hadv. injection Hadv as <-.
           rewrite odometer_reset_keeps_chunks.
           apply alter_keeps_chunks. reflexivity.
      * split; [|exact IHsome]. rewrite IHnone. split.
        -- intros Hall i ist' Hi Hist.
           destruct (Nat.eq_dec i k) as [->|Hne].
           ++ rewrite Hk in Hist. injection Hist as <-. exact Hge.
           ++ apply (Hall i); [lia|exact Hist].
        -- intros Hall i ist' Hi. apply (Hall i). lia.
    + split; [|exact IHsome]. rewrite IHnone. split.
      * intros Hall i ist' Hi Hist.
        destruct (Nat.eq_dec i k) as [->|Hne]; [congruence|].
        apply (Hall i); [lia|exact Hist].
      * intros Hall i ist' Hi. apply (Hall i). lia.
Qed.

End ScanFacts.



(** * Properties of the planner side *)

Section PlanFacts.

Lemma long_to_int_small (v : Z) :
  - 2 ^ 31 <= v < 2 ^ 31 -> PlanInfo.long_to_int v = v.
Proof.
  intros Hv. unfold PlanInfo.long_to_int.
  rewrite Z.mod_small by lia. lia.
Qed.

(** X10.  deform_gpujoin_info reads back what form_gpujoin_info stored.  For
    [num_rels] and [extra_flags] within the range of a C int and doubles
    that survive the passage through a long, the plan node formed from a
    GpuJoinInfo has sixteen private cells and five expression cells, and
    deforming it gives the same GpuJoinInfo; also
    pgstrom_plan_is_gpujoin_bulkinput answers with the stored
    [outer_bulkload] for a GpuJoin plan and with false for any other. *)
Theorem deform_gpujoin_info_inverts_form
    {Expr double : Type}
    (double_as_long : double -> Z) (long_as_double : Z -> double)
    (cscan : PlanInfo.CustomScan (Expr := Expr))
    (gj_info : PlanInfo.GpuJoinInfo (Expr := Expr) (double := double)) :
  - 2 ^ 31 <= PlanInfo.num_rels gj_info < 2 ^ 31 ->
  - 2 ^ 31 <= PlanInfo.extra_flags gj_info < 2 ^ 31 ->
  long_as_double (double_as_long (PlanInfo.kresults_ratio gj_info)) =
    PlanInfo.kresults_ratio gj_info ->
  long_as_double (double_as_long (PlanInfo.bulkload_density gj_info)) =
    PlanInfo.bulkload_density gj_info ->
  long_as_double (double_as_long (PlanInfo.outer_ratio gj_info)) =
    PlanInfo.outer_ratio gj_info ->
  PlanInfo.deform_gpujoin_info long_as_double
    (PlanInfo.form_gpujoin_info double_as_long cscan gj_info) = Some gj_info /\
  length (PlanInfo.custom_private
            (PlanInfo.form_gpujoin_info double_as_long cscan gj_info))
    = 16%nat /\
  length (PlanInfo.custom_exprs
            (PlanInfo.form_gpujoin_info double_as_long cscan gj_info))
    = 5%nat /\
  PlanInfo.pgstrom_plan_is_gpujoin_bulkinput long_as_double
    (PlanInfo.T_CustomScan
       (PlanInfo.form_gpujoin_info double_as_long cscan gj_info)) =
    Some (match PlanInfo.methods cscan with
          | PlanInfo.gpujoin_plan_methods => PlanInfo.outer_bulkload gj_info
          | PlanInfo.other_plan_methods => false
          end) /\
  PlanInfo.pgstrom_plan_is_gpujoin_bulkinput (Expr := Expr) long_as_double
    PlanInfo.T_OtherPlan = Some false.
Proof.
  intros Hnum Hflags Hk Hb Ho.
  assert (Hround :
    PlanInfo.deform_gpujoin_info long_as_double
      (PlanInfo.form_gpujoin_info double_as_long cscan gj_info)
    = Some gj_info).
  { destruct gj_info. simpl in *.
    unfold PlanInfo.deform_gpujoin_info. simpl.
    rewrite !long_to_int_small by assumption.
    rewrite Hk, Hb, Ho.
    destruct outer_bulkload; reflexivity. }
  split; [exact Hround|]. split; [reflexivity|]. split; [reflexivity|].
  split; [|reflexivity].
  unfold PlanInfo.pgstrom_plan_is_gpujoin_bulkinput,
    PlanInfo.pgstrom_plan_is_gpujoin.
  change (PlanInfo.methods
            (PlanInfo.form_gpujoin_info double_as_long cscan gj_info))
    with (PlanInfo.methods cscan).
  destruct (PlanInfo.methods cscan); [|reflexivity].
  rewrite Hround. reflexivity.
Qed.


(** *** Flat qualifiers *)

Lemma and3_assoc (a b c : option bool) :
  Quals.and3 a (Quals.and3 b c) = Quals.and3 (Quals.and3 a b) c.
Proof. destruct a as [[]|], b as [[]|], c as [[]|]; reflexivity. Qed.

Lemma and3_true_r (a : option bool) : Quals.and3 a (Some true) = a.
Proof. destruct a as [[]|]; reflexivity. Qed.

Lemma and3_true_l (a : option bool) : Quals.and3 (Some true) a = a.
Proof. destruct a as [[]|]; reflexivity. Qed.

Lemma conj_app (leaf : nat -> option bool) (l1 l2 : list Quals.Expr) :
  fold_right (fun a acc => Quals.and3 (Quals.eval leaf a) acc) (Some true)
             (l1 ++ l2) =
  Quals.and3
    (fold_right (fun a acc => Quals.and3 (Quals.eval leaf a) acc) (Some true) l1)
    (fold_right (fun a acc => Quals.and3 (Quals.eval leaf a) acc) (Some true) l2).
Proof.
  induction l1 as [|e l1 IH]; simpl.
  - symmetry. apply and3_true_l.
  - rewrite IH. apply and3_assoc.
Qed.

Lemma flatten_loop_eval (leaf : nat -> option bool)
    (clauses : list (option Quals.Expr)) :
  forall args : list Quals.Expr,
    fold_right (fun a acc => Quals.and3 (Quals.eval leaf a) acc) (Some true)
      (fold_left
         (fun args clause =>
            match clause with
            | None => args
            | Some (Quals.BoolExpr Quals.AND_EXPR sub) => args ++ sub
            | Some expr => args ++ [expr]
            end)
         clauses args) =
    Quals.and3
      (fold_right (fun a acc => Quals.and3 (Quals.eval leaf a) acc)
                  (Some true) args)
      (fold_right (fun c acc => Quals.and3 (Quals.eval_qual leaf c) acc)
                  (Some true) clauses).
Proof.
  induction clauses as [|c clauses IH]; intros args; simpl.
  - symmetry. apply and3_true_r.
  - rewrite IH. rewrite and3_assoc. f_equal.
    destruct c as [[id|[] sub]|]; simpl.
    + rewrite conj_app. simpl. rewrite and3_true_r. reflexivity.
    + rewrite conj_app. reflexivity.
    + rewrite conj_app. simpl. rewrite and3_true_r. reflexivity.
    + rewrite conj_app. simpl. rewrite and3_true_r. reflexivity.
    + symmetry. apply and3_true_r.
Qed.

(** X11.  build_flatten_qualifier "makes a flat AND expression that is
    equivalent to the given list": in three-valued logic, whatever the
    values of the other nodes, its result has the value of the conjunction
    of the clauses of the list, NULL cells being skipped and no qualifier
    at all counting as true.  It returns no qualifier exactly when the list
    holds no conjunct. *)
Theorem flat_qualifier_is_equivalent_to_the_clauses
    (leaf : nat -> option bool) (clauses : list (option Quals.Expr)) :
  Quals.eval_qual leaf (Quals.build_flatten_qualifier clauses) =
    fold_right (fun c acc => Quals.and3 (Quals.eval_qual leaf c) acc)
               (Some true) clauses /\
  (Quals.build_flatten_qualifier clauses = None <->
   Quals.flatten_args clauses = []).
Proof.
  split.
  - rewrite <- (and3_true_l (fold_right _ (Some true) clauses)).
    change (Some true) with
      (fold_right (fun a acc => Quals.and3 (Quals.eval leaf a) acc)
                  (Some true) []) at 1.
    rewrite <- flatten_loop_eval.
    unfold Quals.build_flatten_qualifier, Quals.flatten_args.
    destruct (fold_left _ clauses []) as [|e [|e' args]]; simpl.
    + reflexivity.
    + symmetry. apply and3_true_r.
    + reflexivity.
  - unfold Quals.build_flatten_qualifier.
    destruct (Quals.flatten_args clauses) as [|e [|e' args]];
      split; intros Heq; solve [reflexivity | discriminate].
Qed.


(** *** The input path of a join *)

Lemma Qgtb_true (x y : Q) : Qgtb x y = true -> (y <= x)%Q.
Proof.
  unfold Qgtb. intros Hgt. apply negb_true_iff in Hgt.
  apply Qlt_le_weak, Qnot_le_lt. intros Hle.
  apply Qle_bool_iff in Hle. congruence.
Qed.

Lemma Qgtb_false (x y : Q) : Qgtb x y = false -> (x <= y)%Q.
Proof.
  unfold Qgtb. intros Hgt. apply negb_false_iff in Hgt.
  apply Qle_bool_iff. exact Hgt.
Qed.

Lemma cheapest_loop_spec (other : Planner.Relids) (paths : list Planner.Path) :
  forall acc : option Planner.Path,
    (forall p, acc = Some p ->
       Planner.bms_overlap (Planner.req_outer p) other = false) ->
    (forall p,
       Planner.cheapest_loop other paths acc = Some p ->
       Planner.bms_overlap (Planner.req_outer p) other = false /\
       (acc = Some p \/ In p paths) /\
       (forall q, acc = Some q ->
          (Planner.total_cost p <= Planner.total_cost q)%Q) /\
       (forall q, In q paths ->
          Planner.bms_overlap (Planner.req_outer q) other = false ->
          (Planner.total_cost p <= Planner.total_cost q)%Q)) /\
    (Planner.cheapest_loop other paths acc = None <->
     acc = None /\
     forall q, In q paths ->
       Planner.bms_overlap (Planner.req_outer q) other = true).
Proof.
  induction paths as [|curr rest IH]; intros acc Hacc; simpl.
  - split.
    + intros p Hp. split; [apply Hacc; exact Hp|]. split; [auto|].
      split; [|intros q []].
      intros q Hq. rewrite Hp in Hq. injection Hq as <-. apply Qle_refl.
    + split; [intros Hn; split; [exact Hn|intros q []]|tauto].
  - destruct (Planner.bms_overlap (Planner.req_outer curr) other) eqn:Hov.
    + destruct (IH acc Hacc) as [Hsome Hnone]. split.
      * intros p Hp. destruct (Hsome p Hp) as (Hok & Hin & Hle1 & Hle2).
        split; [exact Hok|]. split; [tauto|]. split; [exact Hle1|].
        intros q [<-|Hq] Hq2; [congruence|]. apply Hle2; assumption.
      * rewrite Hnone. split.
        -- intros [Hn Hall]. split; [exact Hn|].
           intros q [<-|Hq]; [exact Hov|apply Hall; exact Hq].
        -- intros [Hn Hall]. split; [exact Hn|]. intros q Hq.
           apply Hall. right. exact Hq.
    + assert (Hcurr : forall p, Some curr = Some p ->
                Planner.bms_overlap (Planner.req_outer p) other = false)
        by (intros p Hp; injection Hp as <-; exact Hov).
      destruct acc as [p0|].
      * destruct (Qgtb (Planner.total_cost p0) (Planner.total_cost curr))
          eqn:Hgt.
        -- destruct (IH (Some curr) Hcurr) as [Hsome Hnone]. split.
           ++ intros p Hp. destruct (Hsome p Hp) as (Hok & Hin & Hle1 & Hle2).
              pose proof (Hle1 curr eq_refl) as Hpc.
              split; [exact Hok|].
              split; [destruct Hin as [Hin|Hin];
                      [injection Hin as <-; right; left; reflexivity
                      |right; right; exact Hin]|].
              split.
              ** intros q Hq. injection Hq as <-.
                 eapply Qle_trans; [exact Hpc|]. apply Qgtb_true. exact Hgt.
              ** intros q [<-|Hq] Hq2; [exact Hpc|apply Hle2; assumption].
           ++ rewrite Hnone. split; intros [Hn _]; discriminate.
        -- destruct (IH (Some p0) Hacc) as [Hsome Hnone]. split.
           ++ intros p Hp. destruct (Hsome p Hp) as (Hok & Hin & Hle1 & Hle2).
              pose proof (Hle1 p0 eq_refl) as Hpp.
              split; [exact Hok|]. split; [tauto|]. split; [exact Hle1|].
              intros q [<-|Hq] Hq2; [|apply Hle2; assumption].
              eapply Qle_trans; [exact Hpp|]. apply Qgtb_false. exact Hgt.
           ++ rewrite Hnone. split; intros [Hn _]; discriminate.
      * destruct (IH (Some curr) Hcurr) as [Hsome Hnone]. split.
        -- intros p Hp. destruct (Hsome p Hp) as (Hok & Hin & Hle1 & Hle2).
           split; [exact Hok|].
           split; [destruct Hin as [Hin|Hin];
                   [injection Hin as <-; right; left; reflexivity
                   |right; right; exact Hin]|].
           split; [discriminate|].
           intros q [<-|Hq] Hq2; [apply Hle1; reflexivity|].
           apply Hle2; assumption.
        -- rewrite Hnone. split; [intros [Hn _]; discriminate|].
           intros [_ Hall]. specialize (Hall curr (or_introl eq_refl)).
           congruence.
Qed.

(** X12.  The input path gpujoin_find_cheapest_path returns is never
    parameterized by another relation of the join.  It is the relation's
    cheapest path if that one is usable; otherwise it is a path of the
    relation's list, no usable path of the list is cheaper, and there is
    no result exactly when no path of the list is usable. *)
Theorem cheapest_path_is_usable_and_cheapest
    (joinrel inputrel : Planner.RelOptInfo) :
  (forall p,
     Planner.gpujoin_find_cheapest_path joinrel inputrel = Some p ->
     Planner.bms_overlap (Planner.req_outer p)
       (Planner.relids joinrel ∖ Planner.relids inputrel) = false /\
     (p = Planner.cheapest_total_path inputrel \/
      In p (Planner.pathlist inputrel))) /\
  (Planner.bms_overlap
     (Planner.req_outer (Planner.cheapest_total_path inputrel))
     (Planner.relids joinrel ∖ Planner.relids inputrel) = false ->
   Planner.gpujoin_find_cheapest_path joinrel inputrel =
     Some (Planner.cheapest_total_path inputrel)) /\
  (Planner.bms_overlap
     (Planner.req_outer (Planner.cheapest_total_path inputrel))
     (Planner.relids joinrel ∖ Planner.relids inputrel) = true ->
   (forall p q,
      Planner.gpujoin_find_cheapest_path joinrel inputrel = Some p ->
      In q (Planner.pathlist inputrel) ->
      Planner.bms_overlap (Planner.req_outer q)
        (Planner.relids joinrel ∖ Planner.relids inputrel) = false ->
      (Planner.total_cost p <= Planner.total_cost q)%Q) /\
   (Planner.gpujoin_find_cheapest_path joinrel inputrel = None <->
    forall q, In q (Planner.pathlist inputrel) ->
      Planner.bms_overlap (Planner.req_outer q)
        (Planner.relids joinrel ∖ Planner.relids inputrel) = true)).
Proof.
  unfold Planner.gpujoin_find_cheapest_path.
  set (other := Planner.relids joinrel ∖ Planner.relids inputrel).
  destruct (cheapest_loop_spec other (Planner.pathlist inputrel) None)
    as [Hsome Hnone]; [discriminate|].
  destruct (Planner.bms_overlap
              (Planner.req_outer (Planner.cheapest_total_path inputrel))
              other) eqn:Hov.
  - split; [|split; [discriminate|]].
    + intros p Hp. destruct (Hsome p Hp) as (Hok & [Hin|Hin] & _);
        [discriminate|]. auto.
    + intros _. split.
      * intros p q Hp Hq Hq2. destruct (Hsome p Hp) as (_ & _ & _ & Hle).
        apply Hle; assumption.
      * rewrite Hnone. split; [tauto|auto].
  - split; [|split; [reflexivity|discriminate]].
    intros p Hp. injection Hp as <-. auto.
Qed.

(** *** Hash keys *)

Lemma split_hash_quals_spec {Arg : Type} (scan_relids : Planner.Relids)
    (hash_quals : list (Planner.hash_clause Arg)) :
  forall inner outer inner' outer' : list Arg,
    Planner.split_hash_quals scan_relids hash_quals inner outer =
      OK (inner', outer') ->
    exists ki ko : list Arg,
      inner' = inner ++ ki /\ outer' = outer ++ ko /\
      length ki = length hash_quals /\ length ko = length hash_quals /\
      Forall2
        (fun c '(i, o) =>
           (i = Planner.arg1 c /\ o = Planner.arg2 c /\
            Planner.relids1 c ⊆ scan_relids /\
            ~ Planner.relids2 c ⊆ scan_relids) \/
           (i = Planner.arg2 c /\ o = Planner.arg1 c /\
            Planner.relids2 c ⊆ scan_relids /\
            ~ Planner.relids1 c ⊆ scan_relids))
        hash_quals (zip ki ko).
Proof.
  induction hash_quals as [|c rest IH];
    intros inner outer inner' outer' Hsplit; simpl in Hsplit.
  - injection Hsplit as <- <-. exists [], [].
    rewrite !app_nil_r. repeat split; constructor.
  - unfold Planner.bms_is_subset in Hsplit.
    destruct (decide (Planner.relids1 c ⊆ scan_relids)) as [H1|H1];
      destruct (decide (Planner.relids2 c ⊆ scan_relids)) as [H2|H2];
      rewrite ?(bool_decide_eq_true_2 _ H1), ?(bool_decide_eq_false_2 _ H1),
        ?(bool_decide_eq_true_2 _ H2), ?(bool_decide_eq_false_2 _ H2)
        in Hsplit;
      simpl in Hsplit; try discriminate.
    + apply IH in Hsplit as (ki & ko & -> & -> & Hl1 & Hl2 & Hall).
      exists (Planner.arg1 c :: ki), (Planner.arg2 c :: ko).
      rewrite <- !app_assoc. simpl.
      repeat split; try lia. constructor; [left; auto|exact Hall].
    + apply IH in Hsplit as (ki & ko & -> & -> & Hl1 & Hl2 & Hall).
      exists (Planner.arg2 c :: ki), (Planner.arg1 c :: ko).
      rewrite <- !app_assoc. simpl.
      repeat split; try lia. constructor; [right; auto|exact Hall].
Qed.

Lemma split_hash_quals_error {Arg : Type} (scan_relids : Planner.Relids)
    (hash_quals : list (Planner.hash_clause Arg)) :
  forall (inner outer : list Arg) (msg : string),
    Planner.split_hash_quals scan_relids hash_quals inner outer = ERROR msg ->
    msg = "Bug? hash-clause reference bogus varnos"%string /\
    exists c,
      In c hash_quals /\
      (Planner.relids1 c ⊆ scan_relids <-> Planner.relids2 c ⊆ scan_relids).
Proof.
  induction hash_quals as [|c rest IH]; intros inner outer msg Hsplit;
    simpl in Hsplit; [discriminate|].
  unfold Planner.bms_is_subset in Hsplit.
  destruct (decide (Planner.relids1 c ⊆ scan_relids)) as [H1|H1];
    destruct (decide (Planner.relids2 c ⊆ scan_relids)) as [H2|H2];
    rewrite ?(bool_decide_eq_true_2 _ H1), ?(bool_decide_eq_false_2 _ H1),
      ?(bool_decide_eq_true_2 _ H2), ?(bool_decide_eq_false_2 _ H2)
      in Hsplit;
    simpl in Hsplit.
  - injection Hsplit as <-. split; [reflexivity|].
    exists c. split; [left; reflexivity|tauto].
  - apply IH in Hsplit as (Hmsg & c' & Hin & Hc).
    split; [exact Hmsg|]. exists c'. split; [right; exact Hin|exact Hc].
  - apply IH in Hsplit as (Hmsg & c' & Hin & Hc).
    split; [exact Hmsg|]. exists c'. split; [right; exact Hin|exact Hc].
  - injection Hsplit as <-. split; [reflexivity|].
    exists c. split; [left; reflexivity|tauto].
Qed.

(** X13.  The hash keys create_gpujoin_plan derives from the hash clauses of a
    depth come in pairs: there are as many inner keys as outer keys, one
    pair per clause and in the order of the clauses; the inner key of a
    pair is the argument of its clause that refers to the inner relation
    only, the outer key the other argument, which does not.  A clause with
    no such argument, or with two, stops the planning with an error. *)
Theorem hash_keys_come_in_pairs {Arg : Type}
    (scan_relids : Planner.Relids)
    (hash_quals : list (Planner.hash_clause Arg)) :
  match Planner.split_hash_quals scan_relids hash_quals [] [] with
  | OK (hash_inner_keys, hash_outer_keys) =>
      length hash_inner_keys = length hash_quals /\
      length hash_outer_keys = length hash_quals /\
      Forall2
        (fun c '(i, o) =>
           (i = Planner.arg1 c /\ o = Planner.arg2 c /\
            Planner.relids1 c ⊆ scan_relids /\
            ~ Planner.relids2 c ⊆ scan_relids) \/
           (i = Planner.arg2 c /\ o = Planner.arg1 c /\
            Planner.relids2 c ⊆ scan_relids /\
            ~ Planner.relids1 c ⊆ scan_relids))
        hash_quals (zip hash_inner_keys hash_outer_keys)
  | ERROR msg =>
      msg = "Bug? hash-clause reference bogus varnos"%string /\
      exists c,
        In c hash_quals /\
        (Planner.relids1 c ⊆ scan_relids <-> Planner.relids2 c ⊆ scan_relids)
  end.
Proof.
  destruct (Planner.split_hash_quals scan_relids hash_quals [] [])
    as [[inner outer]|msg] eqn:Hsplit.
  - apply split_hash_quals_spec in Hsplit
      as (ki & ko & -> & -> & Hl1 & Hl2 & Hall).
    simpl. auto.
  - apply (split_hash_quals_error scan_relids hash_quals [] []).
    exact Hsplit.
Qed.

End PlanFacts.



(** * Properties of the pseudo-scan target list *)

Section TlistFacts.

Lemma Node_induction (P : Tlist.Node -> Prop) :
  (forall v, P (Tlist.T_Var v)) ->
  (forall children, Forall P children -> P (Tlist.T_Node children)) ->
  forall node, P node.
Proof.
  intros Hvar Hnode.
  fix IH 1. intros [v|children].
  - apply Hvar.
  - apply Hnode. induction children as [|n children IHc].
    + constructor.
    + constructor; [apply IH|exact IHc].
Qed.

Lemma equal_eq (a b : Tlist.Var) : Tlist.equal a b = true -> a = b.
Proof.
  destruct a, b. unfold Tlist.equal. simpl. intros Heq.
  repeat match goal with
         | H : _ && _ = true |- _ => apply andb_prop in H as [H ?]
         end.
  repeat match goal with
         | H : (_ =? _) = true |- _ => apply Z.eqb_eq in H
         end.
  subst. reflexivity.
Qed.

Lemma find_in_plan_origin (v : Tlist.Var) (targetlist : list Tlist.TargetEntry)
    (n : Z) :
  Tlist.find_in_plan v targetlist = OK (Some n) ->
  exists src_tle,
    In src_tle targetlist /\ Tlist.expr src_tle = Tlist.T_Var v /\
    Tlist.resno src_tle = n.
Proof.
  induction targetlist as [|tle rest IH]; simpl; [discriminate|].
  destruct (Tlist.expr tle) as [w|children] eqn:Hexpr; [|discriminate].
  destruct (Tlist.equal v w) eqn:Heq.
  - intros Hn. injection Hn as <-. apply equal_eq in Heq as <-.
    exists tle. auto.
  - intros Hn. destruct (IH Hn) as (src & Hin & He & Hr).
    exists src. auto.
Qed.

Lemma find_source_origin (v : Tlist.Var) (srcs : Tlist.sources) :
  forall (i d n : Z) (pre : Tlist.sources),
    0 <= i ->
    i = Z.of_nat (length pre) ->
    Tlist.find_source v i srcs = OK (Some (d, n)) ->
    exists relids targetlist src_tle,
      0 <= d /\
      (pre ++ srcs) !! Z.to_nat d = Some (relids, targetlist) /\
      Tlist.varno v ∈ relids /\
      In src_tle targetlist /\ Tlist.expr src_tle = Tlist.T_Var v /\
      Tlist.resno src_tle = n.
Proof.
  induction srcs as [|[relids targetlist] rest IH];
    intros i d n pre Hi Hpre Hfind; simpl in Hfind; [discriminate|].
  destruct (decide (Tlist.varno v ∈ relids)) as [Hin|Hout].
  - rewrite (bool_decide_eq_true_2 _ Hin) in Hfind.
    destruct (Tlist.find_in_plan v targetlist) as [[m|]|msg] eqn:Hplan;
      simpl in Hfind; try discriminate.
    injection Hfind as <- <-.
    destruct (find_in_plan_origin v targetlist m Hplan)
      as (src & Hsrc & He & Hr).
    exists relids, targetlist, src. split; [exact Hi|].
    split; [|auto].
    rewrite Hpre, Nat2Z.id. rewrite lookup_app_r by lia.
    rewrite Nat.sub_diag. reflexivity.
  - rewrite (bool_decide_eq_false_2 _ Hout) in Hfind.
    destruct (IH (i + 1) d n (pre ++ [(relids, targetlist)])
                 ltac:(lia) ltac:(rewrite length_app; simpl; lia) Hfind)
      as (r & t & src & Hd & Hlook & Hrest).
    exists r, t, src. split; [exact Hd|].
    rewrite <- app_assoc in Hlook. simpl in Hlook. auto.
Qed.

Lemma in_ps_tlist_key (v : Tlist.Var) (tlist : list Tlist.TargetEntry) :
  Tlist.in_ps_tlist v tlist = true <-> In (Some (var_key v)) (map tle_key tlist).
Proof.
  unfold Tlist.in_ps_tlist. rewrite existsb_exists, in_map_iff.
  split.
  - intros (tle & Hin & Hmatch). exists tle. split; [|exact Hin].
    unfold tle_key. destruct (Tlist.expr tle) as [w|]; [|discriminate].
    apply andb_prop in Hmatch as [Hmatch H3].
    apply andb_prop in Hmatch as [H1 H2].
    apply Z.eqb_eq in H1, H2, H3. unfold var_key. congruence.
  - intros (tle & Hkey & Hin). exists tle. split; [exact Hin|].
    unfold tle_key in Hkey. destruct (Tlist.expr tle) as [w|]; [|discriminate].
    injection Hkey as H1 H2 H3. rewrite H1, H2, H3, !Z.eqb_refl. reflexivity.
Qed.

Lemma in_ps_tlist_app (v : Tlist.Var) (l1 l2 : list Tlist.TargetEntry) :
  Tlist.in_ps_tlist v l1 = true -> Tlist.in_ps_tlist v (l1 ++ l2) = true.
Proof.
  unfold Tlist.in_ps_tlist. rewrite existsb_app. intros ->. reflexivity.
Qed.

(** What a walk keeps and adds. *)
Lemma walk_var_spec (srcs : Tlist.sources) (v : Tlist.Var)
    (c c' : Tlist.build_ps_tlist_context) :
  Tlist.walk_var srcs v c = OK c' ->
  ps_lists_ok srcs (Tlist.ps_tlist c) (Tlist.ps_depth c) (Tlist.ps_resno c) ->
  ps_lists_ok srcs (Tlist.ps_tlist c') (Tlist.ps_depth c') (Tlist.ps_resno c')
  /\ Tlist.ctx_resjunk c' = Tlist.ctx_resjunk c /\
  (exists new,
     Tlist.ps_tlist c' = Tlist.ps_tlist c ++ new /\
     Forall (fun tle => Tlist.resjunk tle = Tlist.ctx_resjunk c) new) /\
  Tlist.in_ps_tlist v (Tlist.ps_tlist c') = true.
Proof.
  unfold Tlist.walk_var. intros Hwalk Hok.
  destruct (Tlist.in_ps_tlist v (Tlist.ps_tlist c)) eqn:Hin.
  - injection Hwalk as <-. split; [exact Hok|]. split; [reflexivity|].
    split; [|exact Hin]. exists []. rewrite app_nil_r. auto.
  - destruct (Tlist.find_source v 0 srcs) as [[[i n]|]|msg] eqn:Hfind;
      simpl in Hwalk; try discriminate.
    injection Hwalk as <-. simpl.
    destruct (find_source_origin v srcs 0 i n [] ltac:(lia) eq_refl Hfind)
      as (relids & targetlist & src & Hi & Hlook & Hmem & Hsrc & He & Hr).
    simpl in Hlook.
    destruct Hok as (Hl1 & Hl2 & Hentries & Hnodup).
    split; [|split; [reflexivity|split]].
    + unfold ps_lists_ok. rewrite !length_app. simpl.
      split; [lia|]. split; [lia|]. split.
      * intros k tle Hk.
        destruct (Nat.lt_ge_cases k (length (Tlist.ps_tlist c))) as [Hlt|Hge].
        -- rewrite lookup_app_l in Hk by exact Hlt.
           destruct (Hentries k tle Hk) as (Hres & i0 & n0 & Hd & Hn & Horig).
           split; [exact Hres|]. exists i0, n0.
           rewrite !lookup_app_l by lia.
           auto.
        -- rewrite lookup_app_r in Hk by exact Hge.
           destruct (k - length (Tlist.ps_tlist c))%nat as [|m] eqn:Hm;
             simpl in Hk; [|destruct m; discriminate].
           injection Hk as <-. simpl.
           assert (Hkk : k = length (Tlist.ps_tlist c)) by lia.
           split; [lia|]. exists i, n.
           rewrite !lookup_app_r by lia.
           replace (k - length (Tlist.ps_depth c))%nat with 0%nat by lia.
           replace (k - length (Tlist.ps_resno c))%nat with 0%nat by lia.
           split; [reflexivity|]. split; [reflexivity|].
           exists v, relids, targetlist, src. simpl. auto 10.
      * rewrite map_app. simpl.
        apply List.NoDup_app; [exact Hnodup|repeat constructor; intros []|].
        intros key Hkey Hnew. destruct Hnew as [<-|[]].
        change (tle_key (Tlist.mk_tle (Tlist.T_Var v)
                  (Z.of_nat (length (Tlist.ps_tlist c)) + 1)
                  (Tlist.ctx_resjunk c)))
          with (Some (var_key v)) in Hkey.
        apply in_ps_tlist_key in Hkey. congruence.
    + eexists. split; [reflexivity|]. repeat constructor.
    + rewrite in_ps_tlist_key, map_app. apply in_or_app. right.
      left. reflexivity.
Qed.

Lemma walker_spec (srcs : Tlist.sources) :
  forall (node : Tlist.Node) (c c' : Tlist.build_ps_tlist_context),
    Tlist.build_pseudo_targetlist_walker srcs node c = OK c' ->
    ps_lists_ok srcs (Tlist.ps_tlist c) (Tlist.ps_depth c) (Tlist.ps_resno c) ->
    ps_lists_ok srcs (Tlist.ps_tlist c') (Tlist.ps_depth c')
                (Tlist.ps_resno c') /\
    Tlist.ctx_resjunk c' = Tlist.ctx_resjunk c /\
    (exists new,
       Tlist.ps_tlist c' = Tlist.ps_tlist c ++ new /\
       Forall (fun tle => Tlist.resjunk tle = Tlist.ctx_resjunk c) new) /\
    (forall v, In v (vars_of node) ->
       Tlist.in_ps_tlist v (Tlist.ps_tlist c') = true).
Proof.
  intros node.
  induction node as [v|children IHc] using Node_induction;
    intros c c' Hwalk Hok.
  - simpl in Hwalk.
    destruct (walk_var_spec srcs v c c' Hwalk Hok) as (H1 & H2 & H3 & H4).
    split; [exact H1|]. split; [exact H2|]. split; [exact H3|].
    intros w [<-|[]]. exact H4.
  - simpl in Hwalk. simpl. revert c c' Hwalk Hok.
    induction IHc as [|n children Hn Hrest IH]; intros c c' Hwalk Hok.
    + injection Hwalk as <-. split; [exact Hok|]. split; [reflexivity|].
      split; [|intros v []]. exists []. rewrite app_nil_r. auto.
    + destruct (Tlist.build_pseudo_targetlist_walker srcs n c)
        as [c1|msg] eqn:Hfirst; simpl in Hwalk; [|discriminate].
      destruct (Hn c c1 Hfirst Hok) as (Hok1 & Hj1 & (new1 & Ht1 & Hf1) & Hv1).
      destruct (IH c1 c' Hwalk Hok1)
        as (Hok' & Hj' & (new2 & Ht2 & Hf2) & Hv2).
      split; [exact Hok'|]. split; [congruence|]. split.
      * exists (new1 ++ new2). split.
        -- rewrite Ht2, Ht1, app_assoc. reflexivity.
        -- apply Forall_app. split; [exact Hf1|].
           rewrite Hj1 in Hf2. exact Hf2.
      * intros v Hv. apply in_app_or in Hv as [Hv|Hv].
        -- rewrite Ht2. apply in_ps_tlist_app, Hv1, Hv.
        -- apply Hv2, Hv.
Qed.

(** X14.  The pseudo-scan target list build_pseudo_targetlist returns and the two
    lists it stores with it go together: they have the same length, the
    entries are numbered from 1 in list order, no Var is entered twice,
    each entry holds a Var together with the relation and the column of
    that relation's plan the Var comes from, every Var of the five
    expression trees walked has its entry, and the entries the host
    refers to come before the entries only the device refers to, which are
    the ones marked as junk. *)
Theorem pseudo_targetlist_is_consistent
    (srcs : Tlist.sources)
    (targetlist host_quals hash_outer_keys join_quals outer_quals : Tlist.Node)
    (tlist : list Tlist.TargetEntry) (depths resnos : list Z) :
  Tlist.build_pseudo_targetlist srcs targetlist host_quals hash_outer_keys
    join_quals outer_quals = OK (tlist, depths, resnos) ->
  ps_lists_ok srcs tlist depths resnos /\
  (forall v,
     In v (vars_of targetlist ++ vars_of host_quals ++
           vars_of hash_outer_keys ++ vars_of join_quals ++
           vars_of outer_quals) ->
     Tlist.in_ps_tlist v tlist = true) /\
  exists host device,
    tlist = host ++ device /\
    Forall (fun tle => Tlist.resjunk tle = false) host /\
    Forall (fun tle => Tlist.resjunk tle = true) device /\
    (forall v, In v (vars_of targetlist ++ vars_of host_quals) ->
       Tlist.in_ps_tlist v host = true).
Proof.
  unfold Tlist.build_pseudo_targetlist. intros Hbuild.
  destruct (Tlist.build_pseudo_targetlist_walker srcs targetlist _)
    as [c1|] eqn:H1; simpl in Hbuild; [|discriminate].
  destruct (Tlist.build_pseudo_targetlist_walker srcs host_quals c1)
    as [c2|] eqn:H2; simpl in Hbuild; [|discriminate].
  destruct (Tlist.build_pseudo_targetlist_walker srcs hash_outer_keys _)
    as [c3|] eqn:H3; simpl in Hbuild; [|discriminate].
  destruct (Tlist.build_pseudo_targetlist_walker srcs join_quals c3)
    as [c4|] eqn:H4; simpl in Hbuild; [|discriminate].
  destruct (Tlist.build_pseudo_targetlist_walker srcs outer_quals c4)
    as [c5|] eqn:H5; simpl in Hbuild; [|discriminate].
  injection Hbuild as <- <- <-.
  assert (Hok0 : ps_lists_ok srcs [] [] []).
  { unfold ps_lists_ok. simpl. split; [reflexivity|]. split; [reflexivity|].
    split; [intros k tle Hk; discriminate|constructor]. }
  apply walker_spec in H1 as (Hok1 & Hj1 & (n1 & Ht1 & Hf1) & Hv1);
    [|exact Hok0].
  apply walker_spec in H2 as (Hok2 & Hj2 & (n2 & Ht2 & Hf2) & Hv2);
    [|exact Hok1].
  apply walker_spec in H3 as (Hok3 & Hj3 & (n3 & Ht3 & Hf3) & Hv3);
    [|exact Hok2].
  apply walker_spec in H4 as (Hok4 & Hj4 & (n4 & Ht4 & Hf4) & Hv4);
    [|exact Hok3].
  apply walker_spec in H5 as (Hok5 & Hj5 & (n5 & Ht5 & Hf5) & Hv5);
    [|exact Hok4].
  simpl in *. rewrite Hj1 in Hf2. rewrite Hj4, Hj3 in Hf5. rewrite Hj3 in Hf4.
  simpl in *.
  assert (Hhost : forall v, In v (vars_of targetlist ++ vars_of host_quals) ->
            Tlist.in_ps_tlist v (Tlist.ps_tlist c2) = true).
  { intros v Hv. apply in_app_or in Hv as [Hv|Hv].
    - rewrite Ht2. apply in_ps_tlist_app, Hv1, Hv.
    - apply Hv2, Hv. }
  split; [exact Hok5|]. split.
  - intros v Hv.
    apply in_app_or in Hv as [Hv|Hv];
      [rewrite Ht5, Ht4, Ht3; do 3 apply in_ps_tlist_app;
       apply Hhost, in_or_app; left; exact Hv|].
    apply in_app_or in Hv as [Hv|Hv];
      [rewrite Ht5, Ht4, Ht3; do 3 apply in_ps_tlist_app;
       apply Hhost, in_or_app; right; exact Hv|].
    apply in_app_or in Hv as [Hv|Hv];
      [rewrite Ht5, Ht4; do 2 apply in_ps_tlist_app; apply Hv3, Hv|].
    apply in_app_or in Hv as [Hv|Hv];
      [rewrite Ht5; apply in_ps_tlist_app, Hv4, Hv|].
    apply Hv5, Hv.
  - exists (Tlist.ps_tlist c2), (n3 ++ n4 ++ n5).
    split; [rewrite Ht5, Ht4, Ht3, <- !app_assoc; reflexivity|].
    split; [rewrite Ht2, Ht1; apply Forall_app; split; assumption|].
    split; [repeat (apply Forall_app; split); assumption|exact Hhost].
Qed.


Lemma build_ps_lists_ok
    (srcs : Tlist.sources)
    (targetlist host_quals hash_outer_keys join_quals outer_quals : Tlist.Node)
    (tlist : list Tlist.TargetEntry) (depths resnos : list Z) :
  Tlist.build_pseudo_targetlist srcs targetlist host_quals hash_outer_keys
    join_quals outer_quals = OK (tlist, depths, resnos) ->
  ps_lists_ok srcs tlist depths resnos.
Proof.
  unfold Tlist.build_pseudo_targetlist. intros Hbuild.
  assert (Hok0 : ps_lists_ok srcs [] [] []).
  { unfold ps_lists_ok. simpl. split; [reflexivity|]. split; [reflexivity|].
    split; [intros k tle Hk; discriminate|constructor]. }
  repeat match type of Hbuild with
         | bind ?w _ = _ =>
             let c := fresh "c" in
             let Hw := fresh "Hw" in
             destruct w as [c|] eqn:Hw; simpl in Hbuild; [|discriminate];
             apply walker_spec in Hw as (Hok0' & _); [|exact Hok0];
             clear Hok0; rename Hok0' into Hok0
         end.
  injection Hbuild as <- <- <-. exact Hok0.
Qed.

(** X15.  A reference to a column of the pseudo-scan target list is fixed up to
    the column it came from.  For the lists build_pseudo_targetlist
    returns and a Var that refers to entry [k + 1] of the target list,
    fixup_varnode_to_origin at the depth recorded for the entry turns the
    Var into a reference to the inner tuple, with the column number
    recorded for the entry, which is the column of that depth's plan that
    holds the entry's Var; at a greater depth the Var is left as it is, and
    at a smaller depth the fix-up stops with an error. *)
Theorem pseudo_column_is_fixed_up_to_its_origin
    (srcs : Tlist.sources)
    (targetlist host_quals hash_outer_keys join_quals outer_quals : Tlist.Node)
    (tlist : list Tlist.TargetEntry) (depths resnos : list Z)
    (k : nat) (tle : Tlist.TargetEntry) (ref : Tlist.Var) :
  Tlist.build_pseudo_targetlist srcs targetlist host_quals hash_outer_keys
    join_quals outer_quals = OK (tlist, depths, resnos) ->
  tlist !! k = Some tle ->
  Tlist.varattno ref = Tlist.resno tle ->
  exists i n,
    depths !! k = Some i /\ resnos !! k = Some n /\
    ps_origin srcs tle i n /\
    Tlist.fixup_varnode_to_origin_mutator i depths resnos (Tlist.T_Var ref) =
      Some (OK (Tlist.T_Var
                  (Tlist.mk_var Tlist.INNER_VAR n (Tlist.vartype ref)
                     (Tlist.vartypmod ref) (Tlist.varcollid ref)
                     (Tlist.varlevelsup ref) (Tlist.varnoold ref)
                     (Tlist.varoattno ref)))) /\
    (forall d, i < d ->
       Tlist.fixup_varnode_to_origin_mutator d depths resnos (Tlist.T_Var ref)
       = Some (OK (Tlist.T_Var ref))) /\
    (forall d, d < i ->
       Tlist.fixup_varnode_to_origin_mutator d depths resnos (Tlist.T_Var ref)
       = Some (ERROR "Expression reference deeper than current depth")).
Proof.
  intros Hbuild Hk Hattno.
  apply build_ps_lists_ok in Hbuild as (_ & _ & Hentries & _).
  destruct (Hentries k tle Hk) as (Hresno & i & n & Hd & Hn & Horigin).
  exists i, n. split; [exact Hd|]. split; [exact Hn|].
  split; [exact Horigin|].
  assert (Hindex : Z.to_nat (Tlist.varattno ref - 1) = k) by lia.
  simpl. destruct (Z.ltb_spec (Tlist.varattno ref - 1) 0); [lia|].
  rewrite Hindex, Hd, Hn.
  split; [rewrite Z.eqb_refl; reflexivity|]. split.
  - intros d Hlt.
    destruct (Z.eqb_spec i d); [lia|].
    destruct (Z.gtb_spec i d); [lia|reflexivity].
  - intros d Hlt.
    destruct (Z.eqb_spec i d); [lia|].
    destruct (Z.gtb_spec i d); [reflexivity|lia].
Qed.

End TlistFacts.



(** * Properties of the callbacks and of the start depth *)

Section CallbackFacts.
Context `{Env}.

Lemma respond_keeps_errors_first (status : Z) (in_xact : bool)
    (pgjoin : pgstrom_gpujoin) (gts : task_lists) :
  (exists fails succs,
     completed_tasks gts = fails ++ succs /\
     Forall (fun t => task_errcode t <> StromError_Success) fails /\
     Forall (fun t => task_errcode t = StromError_Success) succs) ->
  exists fails succs,
    completed_tasks (gpujoin_task_respond status in_xact pgjoin gts) =
      fails ++ succs /\
    Forall (fun t => task_errcode t <> StromError_Success) fails /\
    Forall (fun t => task_errcode t = StromError_Success) succs.
Proof.
  intros (fails & succs & Hlist & Hf & Hs). unfold gpujoin_task_respond.
  destruct ((status =? CUDA_ERROR_INVALID_CONTEXT) || negb in_xact);
    [exists fails, succs; auto|].
  match goal with
  | |- context [task_errcode ?t] => destruct (task_errcode t) eqn:Herr
  end; simpl; rewrite Hlist.
  - eexists fails, (succs ++ [_]). rewrite app_assoc. split; [reflexivity|].
    split; [exact Hf|]. apply Forall_app. split; [exact Hs|].
    constructor; [exact Herr|constructor].
  - eexists (_ :: fails), succs. split; [reflexivity|].
    split; [|exact Hs]. constructor; [|exact Hf]. rewrite Herr. discriminate.
  - eexists (_ :: fails), succs. split; [reflexivity|].
    split; [|exact Hs]. constructor; [|exact Hf]. rewrite Herr. discriminate.
Qed.

(** X16.  The list of completed tasks keeps the failed tasks in front.  A
    callback for a destroyed context or outside a transaction changes
    nothing.  Any other callback takes the task off the running list,
    stores the kernel's error code for a successful CUDA status and the
    CUDA status otherwise, and puts the task at the head of the completed
    list if that code is an error and at its tail if not; so after any
    sequence of callbacks the completed list is a run of failed tasks
    followed by the successful ones. *)
Theorem completed_list_keeps_failed_tasks_in_front
    (events : list (Z * bool * pgstrom_gpujoin))
    (status : Z) (in_xact : bool) (pgjoin : pgstrom_gpujoin)
    (gts : task_lists) :
  completed_tasks gts = [] ->
  (exists fails succs,
     completed_tasks (respond_all events gts) = fails ++ succs /\
     Forall (fun t => task_errcode t <> StromError_Success) fails /\
     Forall (fun t => task_errcode t = StromError_Success) succs) /\
  ((status =? CUDA_ERROR_INVALID_CONTEXT) || negb in_xact = true ->
   gpujoin_task_respond status in_xact pgjoin gts = gts) /\
  ((status =? CUDA_ERROR_INVALID_CONTEXT) || negb in_xact = false ->
   num_running_tasks (gpujoin_task_respond status in_xact pgjoin gts) =
     num_running_tasks gts - 1 /\
   num_completed_tasks (gpujoin_task_respond status in_xact pgjoin gts) =
     num_completed_tasks gts + 1 /\
   Forall (fun t => task_addr t <> task_addr pgjoin)
          (running_tasks (gpujoin_task_respond status in_xact pgjoin gts)) /\
   exists t,
     completed_tasks (gpujoin_task_respond status in_xact pgjoin gts) = [t] /\
     task_addr t = task_addr pgjoin /\
     task_errcode t =
       (if status =? CUDA_SUCCESS then kg_kerror (kern pgjoin)
        else StromError_Other status)).
Proof.
  intros Hempty. split; [|split].
  - assert (Hgen : forall evs g,
      (exists fails succs,
         completed_tasks g = fails ++ succs /\
         Forall (fun t => task_errcode t <> StromError_Success) fails /\
         Forall (fun t => task_errcode t = StromError_Success) succs) ->
      exists fails succs,
        completed_tasks (respond_all evs g) = fails ++ succs /\
        Forall (fun t => task_errcode t <> StromError_Success) fails /\
        Forall (fun t => task_errcode t = StromError_Success) succs).
    { induction evs as [|[[st tx] t] evs IH]; intros g Hg; [exact Hg|].
      unfold respond_all. simpl. apply IH.
      apply respond_keeps_errors_first. exact Hg. }
    apply Hgen. exists [], []. rewrite Hempty. auto.
  - intros Hskip. unfold gpujoin_task_respond. rewrite Hskip. reflexivity.
  - intros Hrun. unfold gpujoin_task_respond. rewrite Hrun.
    assert (Hrunning :
      Forall (fun t => task_addr t <> task_addr pgjoin)
        (List.filter (fun t => negb (task_addr t =? task_addr pgjoin)%nat)
                     (running_tasks gts))).
    { apply Forall_forall. intros t Ht.
      apply list_elem_of_In, filter_In in Ht as [_ Ht].
      apply negb_true_iff, Nat.eqb_neq in Ht. exact Ht. }
    match goal with
    | |- context [task_errcode ?t] => destruct (task_errcode t) eqn:Herr
    end; simpl; rewrite Hempty;
      (split; [reflexivity|]); (split; [reflexivity|]);
      (split; [exact Hrunning|]);
      eexists; (split; [reflexivity|]); split; reflexivity.
Qed.

Lemma begin_start_depth_fixed (join_types : list JoinType) :
  forall i acc : Z,
    0 <= acc -> begin_start_depth join_types i acc = acc.
Proof.
  induction join_types as [|jt rest IH]; intros i acc Hacc; simpl;
    [reflexivity|].
  destruct (Z.ltb_spec acc 0); [lia|]. simpl. apply IH. exact Hacc.
Qed.

Lemma begin_start_depth_first (join_types : list JoinType) :
  forall i acc : Z,
    0 <= i -> acc < 0 ->
    (begin_start_depth join_types i acc = acc /\
     Forall (fun jt => is_right_or_full jt = false) join_types) \/
    (exists (k : nat) (jt : JoinType),
       join_types !! k = Some jt /\ is_right_or_full jt = true /\
       begin_start_depth join_types i acc = i + 1 + Z.of_nat k /\
       forall (j : nat) (jt' : JoinType),
         (j < k)%nat -> join_types !! j = Some jt' ->
         is_right_or_full jt' = false).
Proof.
  induction join_types as [|jt rest IH]; intros i acc Hi Hacc; simpl.
  - left. split; [reflexivity|constructor].
  - destruct (Z.ltb_spec acc 0); [|lia]. simpl.
    destruct (is_right_or_full jt) eqn:Hjt.
    + right. exists 0%nat, jt. split; [reflexivity|]. split; [exact Hjt|].
      split; [rewrite begin_start_depth_fixed by lia; lia|].
      intros j jt' Hj. lia.
    + destruct (IH (i + 1) acc ltac:(lia) Hacc)
        as [[Heq Hall]|(k & jt0 & Hk & Hrf & Heq & Hbefore)].
      * left. split; [exact Heq|]. constructor; assumption.
      * right. exists (S k), jt0. split; [exact Hk|]. split; [exact Hrf|].
        split; [lia|]. intros [|j] jt' Hj Hlook.
        -- simpl in Hlook. injection Hlook as <-. exact Hjt.
        -- apply (Hbefore j); [lia|exact Hlook].
Qed.

(** X17.  The depth gpujoin_begin records as [outer_join_start_depth] is the
    depth of the first right or full outer join, and 1 if there is none:
    no depth before it is a right or full outer join.  With that start
    depth every right or full outer join depth lies in the range of the
    launch loop, so a task that got its device buffer launches the sweep
    kernel of each of them. *)
Theorem start_depth_is_the_first_outer_join
    (gjs : GpuJoinState) (pm : pgstrom_multirels) (pgjoin : pgstrom_gpujoin)
    (kg : CUdeviceptr) (ev_new : CUevent) :
  outer_join_start_depth gjs =
    begin_outer_join_start_depth (map join_type (inners gjs)) ->
  num_rels gjs = Z.of_nat (length (inners gjs)) ->
  1 <= outer_join_start_depth gjs /\
  (forall d ist,
     1 <= d < outer_join_start_depth gjs ->
     inners gjs !! Z.to_nat (d - 1) = Some ist ->
     is_right_or_full (join_type ist) = false) /\
  (Exists (fun ist => is_right_or_full (join_type ist) = true) (inners gjs) ->
   exists ist,
     inners gjs !! Z.to_nat (outer_join_start_depth gjs - 1) = Some ist /\
     is_right_or_full (join_type ist) = true) /\
  (forall d ist,
     1 <= d ->
     inners gjs !! Z.to_nat (d - 1) = Some ist ->
     is_right_or_full (join_type ist) = true ->
     outer_join_start_depth gjs <= d <= num_rels gjs /\
     exists k,
       is_sweep k = true /\
       In (CuLaunchKernel k d (cuda_stream pgjoin))
          (__gpujoin_task_process gjs pm pgjoin (Some kg) ev_new).2).
Proof.
  intros Hstart Hnum.
  unfold begin_outer_join_start_depth in Hstart.
  assert (Hbefore : forall d ist,
            1 <= d < outer_join_start_depth gjs ->
            inners gjs !! Z.to_nat (d - 1) = Some ist ->
            is_right_or_full (join_type ist) = false).
  { intros d ist Hd Hist.
    destruct (begin_start_depth_first (map join_type (inners gjs)) 0 (-1))
      as [[Heq Hall]|(k & jt & Hk & Hrf & Heq & Hfirst)]; try lia.
    - rewrite Forall_forall in Hall. apply Hall.
      apply list_elem_of_In, in_map_iff. exists ist. split; [reflexivity|].
      apply list_elem_of_In, list_elem_of_lookup. eauto.
    - rewrite Heq in Hstart. unfold Max in Hstart.
      destruct (Z.gtb_spec (0 + 1 + Z.of_nat k) 1); [|lia].
      apply (Hfirst (Z.to_nat (d - 1)) (join_type ist)); [lia|].
      rewrite list_lookup_fmap, Hist. reflexivity. }
  split; [rewrite Hstart; unfold Max;
          destruct (_ >? 1) eqn:Hgt; [apply Z.gtb_lt in Hgt|]; lia|].
  split; [exact Hbefore|]. split.
  - intros Hex.
    destruct (begin_start_depth_first (map join_type (inners gjs)) 0 (-1))
      as [[Heq Hall]|(k & jt & Hk & Hrf & Heq & Hfirst)]; try lia.
    + exfalso. apply Exists_exists in Hex as (ist & Hin & Hrf).
      rewrite Forall_forall in Hall.
      rewrite (Hall (join_type ist)) in Hrf; [discriminate|].
      apply list_elem_of_In, in_map_iff. exists ist. split; [reflexivity|].
      apply list_elem_of_In. exact Hin.
    + rewrite Heq in Hstart. unfold Max in Hstart.
      rewrite list_lookup_fmap in Hk.
      destruct (inners gjs !! k) as [ist|] eqn:Hist; [|discriminate].
      injection Hk as <-. exists ist. split; [|exact Hrf].
      destruct (Z.gtb_spec (0 + 1 + Z.of_nat k) 1);
        rewrite Hstart; [|assert (k = 0%nat) by lia; subst k];
        rewrite <- Hist; f_equal; lia.
  - intros d ist Hd Hist Hrf.
    assert (Hrange : outer_join_start_depth gjs <= d <= num_rels gjs).
    { split.
      - destruct (Z.le_gt_cases (outer_join_start_depth gjs) d) as [|Hlt];
          [assumption|].
        rewrite (Hbefore d ist ltac:(lia) Hist) in Hrf. discriminate.
      - apply lookup_lt_Some in Hist. lia. }
    split; [exact Hrange|].
    destruct (task_process_log gjs pm pgjoin kg ev_new)
      as (pre & proj & post & Hlog & _ & _ & _ & _ & Hstream).
    set (pm1 := (__gpujoin_task_process gjs pm pgjoin (Some kg) ev_new).1.1.2)
      in *.
    set (t1 := (__gpujoin_task_process gjs pm pgjoin (Some kg) ev_new).1.2)
      in *.
    destruct (sweep_launched_in_depth gjs pm1 t1 d ist Hist) as (k & Hk & Hin).
    { destruct (join_type ist); simpl in Hrf; try discriminate; auto. }
    rewrite Hstream in Hin. exists k. split; [exact Hk|].
    rewrite Hlog. apply in_or_app. right. apply in_or_app. left.
    rewrite launch_all_depths_eq. apply in_concat.
    exists (launch_depth gjs pm1 t1 d). split; [|exact Hin].
    apply in_map. apply depth_range_In. exact Hrange.
Qed.

End CallbackFacts.


(** * Properties of the completion handler's clean-up *)

Section ReleaseFacts.
Context `{Env}.

Lemma attach_result_buffer_keeps_pointers (gjs : GpuJoinState)
    (pm : pgstrom_multirels) (pgjoin t' : pgstrom_gpujoin) :
  gpujoin_attach_result_buffer gjs pm pgjoin = OK t' ->
  m_kgjoin t' = m_kgjoin pgjoin /\ task_m_kmrels t' = task_m_kmrels pgjoin.
Proof.
  unfold gpujoin_attach_result_buffer.
  destruct (cap_result_buffer gjs (retry_estimate gjs pm pgjoin))
    as [[n total]|msg]; simpl; [|discriminate].
  match goal with
  | |- bind ?r _ = _ -> _ => destruct r as [[n' dst]|msg]
  end; simpl; [|discriminate].
  intros Hok. injection Hok as <-. split; reflexivity.
Qed.

Lemma cleanup_refcnt (pm : pgstrom_multirels) (pgjoin : pgstrom_gpujoin) :
  dev_valid pm (cuda_index pgjoin) ->
  dev_refcnt (cleaned_pmrels pm pgjoin) (cuda_index pgjoin) =
    dev_refcnt pm (cuda_index pgjoin) -
    match task_m_kmrels pgjoin with Some _ => 1 | None => 0 end /\
  (task_m_kmrels pgjoin <> None ->
   dev_refcnt pm (cuda_index pgjoin) = 1 ->
   dev_m_kmrels (cleaned_pmrels pm pgjoin) (cuda_index pgjoin) = None /\
   dev_ev_loaded (cleaned_pmrels pm pgjoin) (cuda_index pgjoin) = None).
Proof.
  intros (Hv1 & Hv2 & Hv3 & Hv4).
  unfold cleaned_pmrels, gpujoin_cleanup_cuda_resources.
  destruct (task_m_kmrels pgjoin) as [p|]; simpl.
  - unfold multirels_put_buffer.
    destruct (Z.eqb_spec (dev_refcnt pm (cuda_index pgjoin) - 1) 0)
      as [Hlast|Hmore]; simpl;
      unfold dev_refcnt, dev_m_kmrels, dev_ev_loaded, set_device in *;
      simpl; rewrite ?default_lookup_insert by assumption.
    + split; [reflexivity|]. intros _ _. split; reflexivity.
    + split; [reflexivity|]. intros _ Hone. lia.
  - split; [lia|]. intros Hsome. exfalso. apply Hsome. reflexivity.
Qed.

(** X7.  Whatever the kernel reported, gpujoin_task_complete begins with
    the clean-up, after which the task holds no device memory: its device
    buffer is freed, its pointers to the buffer and to the mirror are
    cleared, and the reference it held on the mirror of its device is
    given back, the last one to go taking the mirror and its load event
    with it.  The handler then returns for every task but one: a task
    that succeeded and has no outer chunk makes it read through the null
    [pds_src].  A task that failed with any other code is handed on as the
    clean-up left it, and whenever the handler returns a task, handed on
    or queued again, that task and the buffer are as the clean-up left
    them on the device; the handler answers false only for the task it
    queues again after StromError_DataStoreNoSpace. *)
Theorem completed_task_holds_no_device_memory
    (gjs : GpuJoinState) (pgjoin : pgstrom_gpujoin)
    (pm_addr : nat) (pm : pgstrom_multirels) :
  pmrels pgjoin = Some pm_addr ->
  multirels_heap gjs !! pm_addr = Some pm ->
  dev_valid pm (cuda_index pgjoin) ->
  (m_kgjoin (cleaned_task pm pgjoin) = None /\
   task_m_kmrels (cleaned_task pm pgjoin) = None /\
   (forall p,
      m_kgjoin pgjoin = Some p ->
      In (GpuMemFree (cuda_index pgjoin) TaskBuffer p)
         (gpujoin_cleanup_cuda_resources pm pgjoin).2) /\
   dev_refcnt (cleaned_pmrels pm pgjoin) (cuda_index pgjoin) =
     dev_refcnt pm (cuda_index pgjoin) -
     match task_m_kmrels pgjoin with Some _ => 1 | None => 0 end /\
   (task_m_kmrels pgjoin <> None ->
    dev_refcnt pm (cuda_index pgjoin) = 1 ->
    dev_m_kmrels (cleaned_pmrels pm pgjoin) (cuda_index pgjoin) = None /\
    dev_ev_loaded (cleaned_pmrels pm pgjoin) (cuda_index pgjoin) = None)) /\
  match task_errcode pgjoin, pds_src pgjoin with
  | StromError_Success, None => gpujoin_task_complete gjs pgjoin = None
  | StromError_Other _, _ =>
      gpujoin_task_complete gjs pgjoin =
        Some (OK (cleaned_state gjs pm_addr pm pgjoin,
                  cleaned_task pm pgjoin, true))
  | _, _ => exists r, gpujoin_task_complete gjs pgjoin = Some r
  end /\
  (forall gjs' pgjoin' ret,
     gpujoin_task_complete gjs pgjoin = Some (OK (gjs', pgjoin', ret)) ->
     m_kgjoin pgjoin' = None /\
     task_m_kmrels pgjoin' = None /\
     (ret = false <-> task_errcode pgjoin = StromError_DataStoreNoSpace) /\
     exists pm',
       multirels_heap gjs' !! pm_addr = Some pm' /\
       refcnt pm' = refcnt (cleaned_pmrels pm pgjoin) /\
       m_kmrels pm' = m_kmrels (cleaned_pmrels pm pgjoin) /\
       ev_loaded pm' = ev_loaded (cleaned_pmrels pm pgjoin)).
Proof.
  intros Hpm Hheap Hvalid.
  destruct (cleanup_refcnt pm pgjoin Hvalid) as [Hcnt Hlast].
  pose proof (cleaned_task_eq pm pgjoin) as Htask.
  split; [|split].
  - rewrite Htask. split; [reflexivity|]. split; [reflexivity|].
    split; [|split; [exact Hcnt|exact Hlast]].
    intros p Hp. unfold gpujoin_cleanup_cuda_resources. rewrite Hp.
    destruct (match task_m_kmrels pgjoin with
              | Some _ => multirels_put_buffer pm (cuda_index pgjoin)
              | None => (pm, [])
              end) as [pm1 log2].
    simpl. left. reflexivity.
  - unfold gpujoin_task_complete. rewrite Hpm, Hheap, cleanup_split, Htask.
    cbn [task_errcode set_cuda pds_src].
    destruct (task_errcode pgjoin) eqn:Herr.
    + destruct (pds_src pgjoin) as [src|] eqn:Hsrc; [|reflexivity].
      match goal with
      | |- exists r, (if ?c then _ else _) = _ => destruct c
      end; [|eauto].
      match goal with
      | |- exists r, fbind (gpujoin_create_task ?g ?a ?s ?b) _ = _ =>
          destruct (create_task_live g a (cleaned_pmrels pm pgjoin) s b)
            as (r & Hcreate & _);
            [simpl; apply lookup_insert_eq|]
      end.
      rewrite Hcreate. destruct r as [[gjs3 t]|msg]; simpl; eauto.
    + destruct (pds_src pgjoin); eauto.
    + rewrite <- Htask. reflexivity.
  - intros gjs' pgjoin' ret Hdone.
    unfold gpujoin_task_complete in Hdone. rewrite Hpm, Hheap in Hdone.
    rewrite cleanup_split in Hdone.
    rewrite Htask in Hdone. cbn [task_errcode set_cuda pds_src] in Hdone.
    destruct (task_errcode pgjoin) eqn:Herr.
    + destruct (pds_src pgjoin) as [src|] eqn:Hsrc; [|discriminate].
      match type of Hdone with
      | (if ?c then _ else _) = _ => destruct c
      end.
      * match type of Hdone with
        | fbind (gpujoin_create_task ?g ?a ?s ?b) _ = _ =>
            destruct (create_task_live g a (cleaned_pmrels pm pgjoin) s b)
              as (r & Hcreate & Hr);
              [simpl; apply lookup_insert_eq|]
        end.
        rewrite Hcreate in Hdone. destruct r as [[gjs3 t]|msg];
          simpl in Hdone; [|discriminate].
        destruct Hr as (Hgjs3 & _).
        injection Hdone as <- <- <-.
        split; [reflexivity|]. split; [reflexivity|].
        split; [split; discriminate|].
        exists (multirels_attach_buffer (cleaned_pmrels pm pgjoin)).
        split; [rewrite Hgjs3; simpl; apply lookup_insert_eq|].
        repeat split.
      * injection Hdone as <- <- <-.
        split; [reflexivity|]. split; [reflexivity|].
        split; [split; discriminate|].
        exists (cleaned_pmrels pm pgjoin).
        split; [simpl; apply lookup_insert_eq|]. repeat split.
    + injection Hdone as Hdone.
      match type of Hdone with
      | bind (gpujoin_attach_result_buffer ?g ?p ?t) _ = _ =>
          destruct (gpujoin_attach_result_buffer g p t) as [t'|msg] eqn:Hsz
      end; simpl in Hdone; [|discriminate].
      apply attach_result_buffer_keeps_pointers in Hsz as [Hkg Hkm].
      injection Hdone as <- <- <-.
      split; [exact Hkg|]. split; [exact Hkm|].
      split; [split; reflexivity|].
      exists (cleaned_pmrels pm pgjoin).
      split; [simpl; apply lookup_insert_eq|]. repeat split.
    + injection Hdone as <- <- <-.
      split; [reflexivity|]. split; [reflexivity|].
      split; [split; discriminate|].
      exists (cleaned_pmrels pm pgjoin).
      split; [simpl; apply lookup_insert_eq|]. repeat split.
Qed.

End ReleaseFacts.


(** * Instances of the further properties on the sample platform *)

Section FurtherInstances.
#[local] Existing Instance Sample.env.

(** The alignment of the sample platform rounds up. *)
Lemma sample_align_le (x : Z) : x <= Sample.TYPEALIGN 16 x.
Proof.
  unfold Sample.TYPEALIGN. rewrite <- Z.ldiff_land.
  change (16 - 1) with (Z.ones 4).
  rewrite Z.ldiff_ones_r by lia.
  rewrite Z.shiftr_div_pow2, Z.shiftl_mul_pow2 by lia.
  change (2 ^ 4) with 16.
  pose proof (Z.div_mod (x + Z.ones 4) 16 ltac:(lia)) as Hdiv.
  pose proof (Z.mod_pos_bound (x + Z.ones 4) 16 ltac:(lia)) as Hmod.
  change (Z.ones 4) with 15 in *. lia.
Qed.

Lemma histogram_accounts_for_every_row_witness :
  hgram_ok (begin_hgram (Sample.depth_of 1 JOIN_INNER true []) 4) /\
  (exists ist',
     gpujoin_inner_hash_preload 10
       (Sample.depth_of 1 JOIN_INNER true [Sample.row 100 7]) 0 =
       Some (OK (true, ist', 124)) /\
     hgram_size ist' = <[0%nat := 124]> (replicate 16 0) /\
     Zsum (hgram_nitems ist') = 1) /\
  (exists ist1 tu1,
     gpujoin_inner_hash_preload 10
       (Sample.depth_of 1 JOIN_INNER true [Sample.row 100 7]) 0 =
       Some (OK (true, ist1, tu1))).
Proof.
  destruct (gpujoin_inner_hash_preload 10
              (Sample.depth_of 1 JOIN_INNER true [Sample.row 100 7]) 0)
    as [[[[more ist'] tu']|msg]|] eqn:Hcall;
    [|absurd_eval Hcall|absurd_eval Hcall].
  destruct (histogram_accounts_for_every_row 9
              (Sample.depth_of 1 JOIN_INNER true [])
              (Sample.depth_of 1 JOIN_INNER true [Sample.row 100 7])
              ist' 4 0 tu' 64 more (Sample.row 100 7) [] []
              (Sample.empty_store KDS_FORMAT_HASH 1024 16 0)
              (mk_pds (mk_kds 1024 188 1 0 16 KDS_FORMAT_HASH 0 UINT_MAX)
                      1024 [Sample.row 100 7]))
    as (Hbegin & _ & Hreturns).
  destruct (histogram_accounts_for_every_row 10
              (Sample.depth_of 1 JOIN_INNER true [])
              (Sample.depth_of 1 JOIN_INNER true [Sample.row 100 7])
              ist' 4 0 tu' 64 more (Sample.row 100 7) [] []
              (Sample.empty_store KDS_FORMAT_HASH 1024 16 0)
              (mk_pds (mk_kds 1024 188 1 0 16 KDS_FORMAT_HASH 0 UINT_MAX)
                      1024 [Sample.row 100 7]))
    as (_ & Hstep & _).
  split; [apply Hbegin; lia|]. split.
  - destruct Hstep as (-> & _ & _ & -> & _ & _ & Hsize & _ & _ & Hitems).
    + unfold hgram_ok. simpl. repeat split; lia.
    + reflexivity.
    + simpl. lia.
    + exact Hcall.
    + exists ist'. split; [reflexivity|]. split; [exact Hsize|exact Hitems].
  - rewrite <- Hcall. apply Hreturns; [reflexivity|].
    right. split; [reflexivity|]. split.
    + right. split; [reflexivity|]. split; reflexivity.
    + split; [left; simpl; lia|reflexivity].
Defined.

Lemma spilled_row_goes_to_the_chunk_of_its_range_witness :
  ts_partition (Sample.spilled 300) =
    OK (ts_last_chunk (Sample.spilled 300)
          (mk_ts (3 * 2 ^ 28) 248 2
             [set_hash_range
                (pgstrom_create_data_store_hash 344 2) 0 (3 * 2 ^ 28 - 1)]
             [3 * 2 ^ 28 - 1])).
Proof.
  destruct (spilled_row_goes_to_the_chunk_of_its_range
              (Sample.spilled 300)
              (mk_ts (3 * 2 ^ 28) 248 2
                 [set_hash_range
                    (pgstrom_create_data_store_hash 344 2) 0 (3 * 2 ^ 28 - 1)]
                 [3 * 2 ^ 28 - 1])
              (Sample.row 100 (2 ^ 31))) as [Hpart _].
  - vm_compute. reflexivity.
  - repeat constructor.
  - by_eval.
  - exact Hpart.
Defined.

Lemma every_loaded_depth_has_a_chunk_witness :
  exists inners',
    inner_load_all 10 1 (inners Sample.one_depth_scan) = Some (OK inners') /\
    Forall (fun ist => pds_list ist <> [] /\ 0 < nbatches_exec ist) inners'.
Proof.
  destruct (inner_load_all 10 1 (inners Sample.one_depth_scan))
    as [[inners'|msg]|] eqn:Hload; [|absurd_eval Hload|absurd_eval Hload].
  destruct (every_loaded_depth_has_a_chunk 10 1
              (inners Sample.one_depth_scan) inners' eq_refl Hload)
    as [_ Hall].
  exists inners'. split; [reflexivity|].
  eapply Forall_impl; [exact Hall|].
  intros ist (Hne & _ & _ & _ & Hpos). split; assumption.
Defined.

Lemma upload_stays_inside_the_mirror_witness :
  ranges_packed 0
    (copy_ranges
       (multirels_send_buffer
          (default (gpujoin_create_multirels
                      (Sample.running_scan JOIN_INNER KDS_FORMAT_SLOT))
             (build_window
                (inners (Sample.running_scan JOIN_INNER KDS_FORMAT_SLOT))
                (gpujoin_create_multirels
                   (Sample.running_scan JOIN_INNER KDS_FORMAT_SLOT))))
          0 0 1%positive).2)
    (usage_length
       (default (gpujoin_create_multirels
                   (Sample.running_scan JOIN_INNER KDS_FORMAT_SLOT))
          (build_window
             (inners (Sample.running_scan JOIN_INNER KDS_FORMAT_SLOT))
             (gpujoin_create_multirels
                (Sample.running_scan JOIN_INNER KDS_FORMAT_SLOT))))).
Proof.
  destruct (upload_stays_inside_the_mirror
              (Sample.running_scan JOIN_INNER KDS_FORMAT_SLOT)
              (inners (Sample.running_scan JOIN_INNER KDS_FORMAT_SLOT))
              (default (gpujoin_create_multirels
                          (Sample.running_scan JOIN_INNER KDS_FORMAT_SLOT))
                 (build_window
                    (inners (Sample.running_scan JOIN_INNER KDS_FORMAT_SLOT))
                    (gpujoin_create_multirels
                       (Sample.running_scan JOIN_INNER KDS_FORMAT_SLOT))))
              0%nat 0%nat 1%positive None None) as [Hpacked _].
  - exact sample_align_le.
  - by_eval.
  - reflexivity.
  - vm_compute. reflexivity.
  - reflexivity.
  - exact Hpacked.
Defined.

Lemma get_buffer_leaks_nothing_witness :
  dev_refcnt
    (multirels_get_buffer (Sample.window 1 16) 0
       (Some 1%positive) (Some 2%positive)).1.1.2 0 = 1 /\
  count_calls is_free
    (multirels_get_buffer (Sample.window 1 16) 0
       (Some 1%positive) (Some 2%positive)).2 = 0%nat.
Proof.
  destruct (get_buffer_leaks_nothing (Sample.window 1 16) 0
              (Some 1%positive) (Some 2%positive)) as [_ Hok].
  - unfold dev_valid. simpl. lia.
  - destruct (Hok eq_refl) as (Hcnt & _ & Hfree & _).
    split; [exact Hcnt|exact Hfree].
Defined.

Lemma task_without_device_memory_gives_the_mirror_back_witness :
  (gpujoin_task_process (Sample.running_scan JOIN_INNER KDS_FORMAT_SLOT)
     (Sample.window 1 0) (Sample.fresh_task 2)
     (Some 1%positive) None None 1%positive).1.1.1 = false /\
  dev_m_kmrels
    (gpujoin_task_process (Sample.running_scan JOIN_INNER KDS_FORMAT_SLOT)
       (Sample.window 1 0) (Sample.fresh_task 2)
       (Some 1%positive) None None 1%positive).1.1.2 0 = None.
Proof.
  destruct (task_without_device_memory_gives_the_mirror_back
              (Sample.running_scan JOIN_INNER KDS_FORMAT_SLOT)
              (Sample.window 1 0) (Sample.fresh_task 2)
              (Some 1%positive) None 1%positive)
    as (Hfalse & _ & Hmirror & _).
  - unfold dev_valid. simpl. lia.
  - split; reflexivity.
  - reflexivity.
  - split; [exact Hfalse|exact Hmirror].
Defined.

Lemma next_chunk_task_is_on_the_current_window_witness :
  exists gjs' t,
    gpujoin_next_chunk 10 Sample.one_depth_scan = Some (OK (gjs', Some t)) /\
    pmrels t = curr_pmrels gjs' /\
    oitems_base t = 0.
Proof.
  destruct (gpujoin_next_chunk 10 Sample.one_depth_scan)
    as [[[gjs' [t|]]|msg]|] eqn:Hnext;
    [|absurd_eval Hnext|absurd_eval Hnext|absurd_eval Hnext].
  destruct (next_chunk_task_is_on_the_current_window 10
              Sample.one_depth_scan gjs' (Some t) Hnext)
    as (cur & src & pm & Hcur & _ & Htask & _ & Hbase).
  exists gjs', t. split; [reflexivity|].
  split; [rewrite Hcur; exact Htask|exact Hbase].
Defined.

Lemma deform_gpujoin_info_inverts_form_witness :
  PlanInfo.deform_gpujoin_info SamplePlan.long_as_double
    (PlanInfo.form_gpujoin_info SamplePlan.double_as_long
       (PlanInfo.mk_cscan PlanInfo.gpujoin_plan_methods [] [])
       SamplePlan.info) = Some SamplePlan.info.
Proof.
  destruct (deform_gpujoin_info_inverts_form
              SamplePlan.double_as_long SamplePlan.long_as_double
              (PlanInfo.mk_cscan PlanInfo.gpujoin_plan_methods [] [])
              SamplePlan.info) as [Hround _].
  - by_eval.
  - by_eval.
  - reflexivity.
  - reflexivity.
  - reflexivity.
  - exact Hround.
Defined.

Lemma pseudo_targetlist_is_consistent_witness :
  ps_lists_ok SamplePlan.srcs SamplePlan.ps_tlist [0; 1; 0] [1; 1; 2].
Proof.
  destruct (pseudo_targetlist_is_consistent SamplePlan.srcs
              SamplePlan.targetlist SamplePlan.no_quals
              SamplePlan.hash_outer_keys SamplePlan.join_quals
              SamplePlan.no_quals
              SamplePlan.ps_tlist [0; 1; 0] [1; 1; 2]) as [Hok _].
  - vm_compute. reflexivity.
  - exact Hok.
Defined.

Lemma pseudo_column_is_fixed_up_to_its_origin_witness :
  Tlist.fixup_varnode_to_origin_mutator 1 [0; 1; 0] [1; 1; 2]
    (Tlist.T_Var (SamplePlan.var Tlist.INDEX_VAR 2)) =
    Some (OK (Tlist.T_Var
                (Tlist.mk_var Tlist.INNER_VAR 1 23 (-1) 0 0
                              Tlist.INDEX_VAR 2))) /\
  Tlist.fixup_varnode_to_origin_mutator 0 [0; 1; 0] [1; 1; 2]
    (Tlist.T_Var (SamplePlan.var Tlist.INDEX_VAR 2)) =
    Some (ERROR "Expression reference deeper than current depth").
Proof.
  destruct (pseudo_column_is_fixed_up_to_its_origin SamplePlan.srcs
              SamplePlan.targetlist SamplePlan.no_quals
              SamplePlan.hash_outer_keys SamplePlan.join_quals
              SamplePlan.no_quals
              SamplePlan.ps_tlist [0; 1; 0] [1; 1; 2] 1%nat
              (Tlist.mk_tle (Tlist.T_Var (SamplePlan.var 2 1)) 2 false)
              (SamplePlan.var Tlist.INDEX_VAR 2))
    as (i & n & Hi & Hn & _ & Hfix & _ & Herr).
  - vm_compute. reflexivity.
  - reflexivity.
  - reflexivity.
  - injection Hi as <-. injection Hn as <-.
    split; [exact Hfix|apply Herr; lia].
Defined.

Lemma completed_list_keeps_failed_tasks_in_front_witness :
  map task_errcode
    (completed_tasks
       (respond_all
          [(0, true, Sample.returned_task StromError_Success 2 2 4 2);
           (700, true, Sample.fresh_task 2)]
          (mk_lists [Sample.fresh_task 2] 2 [] 0))) =
    [StromError_Other 700; StromError_Success] /\
  num_completed_tasks
    (gpujoin_task_respond 700 true (Sample.fresh_task 2)
       (mk_lists [Sample.fresh_task 2] 2 [] 0)) = 1.
Proof.
  destruct (completed_list_keeps_failed_tasks_in_front
              [(0, true, Sample.returned_task StromError_Success 2 2 4 2);
               (700, true, Sample.fresh_task 2)]
              700 true (Sample.fresh_task 2)
              (mk_lists [Sample.fresh_task 2] 2 [] 0) eq_refl)
    as (_ & _ & Hrun).
  destruct (Hrun eq_refl) as (_ & Hdone & _).
  split; [reflexivity|exact Hdone].
Defined.

Lemma start_depth_is_the_first_outer_join_witness :
  exists k,
    is_sweep k = true /\
    In (CuLaunchKernel k 1 0)
       (__gpujoin_task_process (Sample.running_scan JOIN_RIGHT KDS_FORMAT_SLOT)
          (Sample.window 1 16) (Sample.fresh_task 2)
          (Some 3%positive) 1%positive).2.
Proof.
  destruct (start_depth_is_the_first_outer_join
              (Sample.running_scan JOIN_RIGHT KDS_FORMAT_SLOT)
              (Sample.window 1 16) (Sample.fresh_task 2)
              3%positive 1%positive eq_refl eq_refl)
    as (_ & _ & _ & Hsweep).
  destruct (Hsweep 1 (Sample.loaded_depth 1 JOIN_RIGHT 1))
    as (_ & k & Hk & Hin).
  - lia.
  - reflexivity.
  - reflexivity.
  - exists k. split; [exact Hk|exact Hin].
Defined.

Lemma completed_task_holds_no_device_memory_witness :
  exists gjs' t' pm',
    gpujoin_task_complete
      (set_heap (Sample.running_scan JOIN_INNER KDS_FORMAT_SLOT)
                {[0%nat := (multirels_get_buffer (Sample.window 1 0) 0
                              (Some 1%positive) None).1.1.2]} 1)
      (set_cuda (Sample.returned_task StromError_Success 2 2 4 2)
                (Some 9%positive) (Some 1%positive) None) =
      Some (OK (gjs', t', true)) /\
    m_kgjoin t' = None /\
    multirels_heap gjs' !! 0%nat = Some pm' /\
    refcnt pm' = [0] /\
    m_kmrels pm' = [None].
Proof.
  destruct (gpujoin_task_complete
      (set_heap (Sample.running_scan JOIN_INNER KDS_FORMAT_SLOT)
                {[0%nat := (multirels_get_buffer (Sample.window 1 0) 0
                              (Some 1%positive) None).1.1.2]} 1)
      (set_cuda (Sample.returned_task StromError_Success 2 2 4 2)
                (Some 9%positive) (Some 1%positive) None))
    as [[[[gjs' t'] [|]]|msg]|] eqn:Hdone;
    [|absurd_eval Hdone|absurd_eval Hdone|absurd_eval Hdone].
  assert (Hvalid : dev_valid
            (multirels_get_buffer (Sample.window 1 0) 0
               (Some 1%positive) None).1.1.2 0)
    by (unfold dev_valid; simpl; lia).
  assert (Hheap :
    multirels_heap
      (set_heap (Sample.running_scan JOIN_INNER KDS_FORMAT_SLOT)
         {[0%nat := (multirels_get_buffer (Sample.window 1 0) 0
                       (Some 1%positive) None).1.1.2]} 1) !! 0%nat =
    Some (multirels_get_buffer (Sample.window 1 0) 0
            (Some 1%positive) None).1.1.2)
    by (vm_compute; reflexivity).
  destruct (completed_task_holds_no_device_memory
              (set_heap (Sample.running_scan JOIN_INNER KDS_FORMAT_SLOT)
                 {[0%nat := (multirels_get_buffer (Sample.window 1 0) 0
                               (Some 1%positive) None).1.1.2]} 1)
              (set_cuda (Sample.returned_task StromError_Success 2 2 4 2)
                 (Some 9%positive) (Some 1%positive) None)
              0%nat
              (multirels_get_buffer (Sample.window 1 0) 0
                 (Some 1%positive) None).1.1.2 eq_refl Hheap Hvalid)
    as (_ & _ & Hret).
  destruct (Hret gjs' t' true Hdone)
    as (Hkg & _ & _ & pm' & Hpm' & Hcnt & Hmirror & _).
  exists gjs', t', pm'. split; [reflexivity|]. split; [exact Hkg|].
  split; [exact Hpm'|]. split; [exact Hcnt|exact Hmirror].
Defined.

End FurtherInstances.
